(** * Comicks: the comic-page editor of [app.js]

    A shallow embedding of the document model, the loader and its element
    sanitizer, the mutation callbacks, the keyboard and pointer handlers and
    the PNG export of [src/app.js], followed by the properties of the
    specification, each proved or refuted on that embedding.

    Layout of the file:
    - [JSNum]: the Number type of the language (binary64, on [SpecFloat]),
      [Math.max] / [Math.min], and the two conversions between numbers and
      strings;
    - [Eff]: the effects of the program, exceptions and the randomness that
      [uid()] draws from;
    - [JSValue]: the values a parsed JSON text is made of, with the coercions
      the program triggers ([ToBoolean], [ToString], [ToNumber], property
      keys, [===], [??], [||], [+]);
    - [App]: the program, function by function, names as in the source,
      the board, the element view and the inspector included;
    - the theorems: first the properties of the specification, then further
      properties of the utilities, the layout effect, the loader, the
      mutation callbacks, the keyboard, the pointer gestures, the export
      counter, the views and the inspector. *)

From Stdlib Require Import ZArith NArith SpecFloat String Ascii.
From Stdlib Require Import DecimalString DecimalPos DecimalN DecimalFacts.
From stdpp Require Import gmap strings list.

Local Open Scope Z_scope.
Set Warnings "-register-all".

(* ===================================================================== *)
(** * Numbers *)
(* ===================================================================== *)

Module JSNum.

(** A Number is an IEEE 754 binary64 value with a single NaN. *)
Definition prec : Z := 53.
Definition emax : Z := 1024.

Definition num : Type := spec_float.

Definition NaN : num := S754_nan.
Definition Infinity : num := S754_infinity false.
Definition pzero : num := S754_zero false.

(** The number denoted by an integer literal of the source. *)
Definition of_Z (z : Z) : num := binary_normalize prec emax z 0 false.

Definition is_nan (x : num) : bool :=
  match x with S754_nan => true | _ => false end.

(** [x + y] and [x - y] on two Numbers. *)
Definition add (x y : num) : num := SFadd prec emax x y.
Definition sub (x y : num) : num := SFsub prec emax x y.

(** [- x]. *)
Definition opp (x : num) : num := SFopp x.

(** [x <= y]; false when either side is NaN. *)
Definition le (x y : num) : bool := SFleb x y.

(** [a <= x && x <= b]. *)
Definition within (a b x : num) : bool := le a x && le x b.

(** [Math.max] and [Math.min] of two Numbers: NaN if either is NaN, and
    [+0] counts as larger than [-0]. *)
Definition Math_max (a b : num) : num :=
  match SFcompare a b with
  | None => NaN
  | Some Lt => b
  | Some Gt => a
  | Some Eq => match a with S754_zero true => b | _ => a end
  end.

Definition Math_min (a b : num) : num :=
  match SFcompare a b with
  | None => NaN
  | Some Lt => a
  | Some Gt => b
  | Some Eq => match a with S754_zero false => b | _ => a end
  end.

(** [Math.max(a, Math.min(b, v))] on numbers. *)
Definition clampN (a b v : num) : num := Math_max a (Math_min b v).

(** ** From decimal digits to the nearest binary64

    [dec_to_num neg m e10] is [m * 10^e10], negated when [neg], rounded once
    (to nearest, ties to even). *)
Definition dec_to_num (neg : bool) (m : N) (e10 : Z) : num :=
  match m with
  | N0 => S754_zero neg
  | Npos p =>
      match e10 with
      | Zneg k =>
          let '(q, e, l) :=
            SFdiv_core_binary prec emax (Zpos p) 0 (Zpos (Pos.pow 10 k)) 0 in
          binary_round_aux prec emax neg q e l
      | Z0 => binary_round prec emax neg p 0
      | Zpos k => binary_round prec emax neg (p * Pos.pow 10 k) 0
      end
  end.

(** ** [StringToNumber]: the value [Number(s)] of a string *)

Definition is_white (c : ascii) : bool :=
  let n := N_of_ascii c in
  ((9 <=? n) && (n <=? 13) || (n =? 32) || (n =? 160))%N.

Fixpoint trim_start (s : string) : string :=
  match s with
  | String c r => if is_white c then trim_start r else s
  | EmptyString => s
  end.

Definition trim (s : string) : string :=
  String.rev (trim_start (String.rev (trim_start s))).

(** The value of a digit in a radix up to 16. *)
Definition digit_of (radix : N) (c : ascii) : option N :=
  let n := N_of_ascii c in
  let d := (if (48 <=? n) && (n <=? 57) then Some (n - 48)
            else if (97 <=? n) && (n <=? 102) then Some (n - 87)
            else if (65 <=? n) && (n <=? 70) then Some (n - 55)
            else None)%N in
  match d with
  | Some v => if (v <? radix)%N then Some v else None
  | None => None
  end.

(** Reads the longest prefix of digits: the number read (continuing [acc]),
    how many digits were read, and the rest. *)
Fixpoint read_digits (radix : N) (s : string) (acc : N) (cnt : nat)
  : N * nat * string :=
  match s with
  | String c r =>
      match digit_of radix c with
      | Some d => read_digits radix r (acc * radix + d)%N (S cnt)
      | None => (acc, cnt, s)
      end
  | EmptyString => (acc, cnt, s)
  end.

Definition read_sign (s : string) : bool * string :=
  match s with
  | String "-" r => (true, r)
  | String "+" r => (false, r)
  | _ => (false, s)
  end.

(** The exponent part [e±ddd], which must end the literal. *)
Definition read_exponent (s : string) : option Z :=
  match s with
  | EmptyString => Some 0
  | String c r =>
      if (c =? "e")%char || (c =? "E")%char then
        let '(neg, r1) := read_sign r in
        match read_digits 10 r1 0%N 0%nat with
        | (_, O, _) => None
        | (n, _, EmptyString) => Some (if neg then - Z.of_N n else Z.of_N n)
        | _ => None
        end
      else None
  end.

(** [StrDecimalLiteral]. *)
Definition read_decimal (s : string) : num :=
  let '(neg, r) := read_sign s in
  if (r =? "Infinity")%string then S754_infinity neg
  else
    let '(m1, n1, r1) := read_digits 10 r 0%N 0%nat in
    let '(m2, n2, r2) :=
      match r1 with
      | String "." r' => read_digits 10 r' m1 0%nat
      | _ => (m1, 0%nat, r1)
      end in
    match (n1 + n2)%nat with
    | O => NaN
    | _ =>
        match read_exponent r2 with
        | Some e => dec_to_num neg m2 (e - Z.of_nat n2)
        | None => NaN
        end
    end.

(** [0x], [0o] and [0b] literals: unsigned, digits only. *)
Definition read_radix (radix : N) (s : string) : num :=
  match read_digits radix s 0%N 0%nat with
  | (_, O, _) => NaN
  | (n, _, EmptyString) => dec_to_num false n 0
  | _ => NaN
  end.

Definition StringToNumber (s : string) : num :=
  match trim s with
  | EmptyString => pzero
  | String "0" (String c r) as t =>
      if (c =? "x")%char || (c =? "X")%char then read_radix 16 r
      else if (c =? "o")%char || (c =? "O")%char then read_radix 8 r
      else if (c =? "b")%char || (c =? "B")%char then read_radix 2 r
      else read_decimal t
  | t => read_decimal t
  end.

(** ** [Number::toString]: the shortest decimal that reads back *)

(** A positive finite binary64 as an exact fraction [n / d]. *)
Definition fraction_of (m : positive) (e : Z) : Z * Z :=
  match e with
  | Zneg k => (Zpos m, Zpos (Pos.pow 2 k))
  | _ => (Zpos m * 2 ^ e, 1)
  end.

(** [scale10 (n, d) j] is the fraction [n / d * 10^j]. *)
Definition scale10 (f : Z * Z) (j : Z) : Z * Z :=
  let '(n, d) := f in
  match j with
  | Zneg k => (n, d * Zpos (Pos.pow 10 k))
  | _ => (n * 10 ^ j, d)
  end.

(** The least [n] from [lo] on with [x < 10^n], searched upwards; the search
    starts just below the estimate that the binary exponent gives. *)
Fixpoint magnitude10 (fuel : nat) (f : Z * Z) (lo : Z) : Z :=
  match fuel with
  | O => lo
  | S fuel' =>
      let '(n, d) := scale10 f (- lo) in
      if n <? d then lo else magnitude10 fuel' f (lo + 1)
  end.

(** How far the integer [s] is from the fraction, in units of [1 / d]. *)
Definition offset (f : Z * Z) (s : Z) : Z :=
  let '(n, d) := f in Z.abs (n - s * d).

(** The [k]-digit decimals next to [x] that read back as [x], nearest first:
    [Some (s, n)] stands for [s * 10^(n-k)]. *)
Definition candidate (x : num) (f : Z * Z) (n : Z) (k : Z) : option (Z * Z) :=
  let g := scale10 f (k - n) in
  let lo := fst g / snd g in
  let hi := lo + 1 in
  let reads s := match SFcompare (dec_to_num false (Z.to_N s) (n - k)) x with
                 | Some Eq => true | _ => false end in
  let norm s := if s =? 10 ^ k then (10 ^ (k - 1), n + 1) else (s, n) in
  match reads lo, reads hi with
  | true, true =>
      match offset g lo ?= offset g hi with
      | Lt => Some (norm lo)
      | Gt => Some (norm hi)
      | Eq => Some (norm (if Z.even lo then lo else hi))
      end
  | true, false => Some (norm lo)
  | false, true => Some (norm hi)
  | false, false => None
  end.

Fixpoint shortest (fuel : nat) (x : num) (f : Z * Z) (n : Z) (k : Z)
  : Z * Z * Z :=
  match fuel with
  | O => (0, n, k)
  | S fuel' =>
      match candidate x f n k with
      | Some (s, n') => (s, n', k)
      | None => shortest fuel' x f n (k + 1)
      end
  end.

Definition digits (z : Z) : string := NilEmpty.string_of_uint (N.to_uint (Z.to_N z)).

Fixpoint zeros (n : nat) : string :=
  match n with O => "" | S n' => String "0" (zeros n') end.

(** The layout of the digits [s] (there are [k] of them) with the decimal
    point after the [n]-th. *)
Definition layout_digits (s n k : Z) : string :=
  let ds := digits s in
  if (k <=? n) && (n <=? 21) then ds +:+ zeros (Z.to_nat (n - k))
  else if (0 <? n) && (n <=? 21) then
    substring 0 (Z.to_nat n) ds +:+ "." +:+ substring (Z.to_nat n) (Z.to_nat (k - n)) ds
  else if (-6 <? n) && (n <=? 0) then "0." +:+ zeros (Z.to_nat (- n)) +:+ ds
  else
    let e := n - 1 in
    let es := (if e <? 0 then "-" else "+") +:+ digits (Z.abs e) in
    if k =? 1 then ds +:+ "e" +:+ es
    else substring 0 1 ds +:+ "." +:+ substring 1 (Z.to_nat (k - 1)) ds +:+ "e" +:+ es.

Definition NumberToString (x : num) : string :=
  match x with
  | S754_nan => "NaN"
  | S754_zero _ => "0"
  | S754_infinity s => if s then "-Infinity" else "Infinity"
  | S754_finite sg m e =>
      let f := fraction_of m e in
      let bits := Z.log2 (Zpos m) + e in
      let n := magnitude10 8 f (bits * 30103 / 100000 - 1) in
      let '(s, n', k) := shortest 20 (S754_finite false m e) f n 1 in
      (if sg then "-" else "") +:+ layout_digits s n' k
  end.

End JSNum.

(* ===================================================================== *)
(** * Effects: exceptions and randomness *)
(* ===================================================================== *)

Module Eff.

(** What a [throw] carries: a [TypeError] raised by the language, or the
    [Error('Invalid format')] that [loadJSON] raises itself. *)
Inductive exn := TypeError | InvalidFormat.

(** How an evaluation ends: with a value, or with what was thrown. *)
Inductive completion (E A : Type) : Type :=
| Ok (a : A)
| Throw (e : E).
Arguments Ok {E A} a.
Arguments Throw {E A} e.

(** An expression without effects gives a value or throws. *)
Abbreviation result := (completion exn).

Definition rbind {A B} (c : result A) (k : A -> result B) : result B :=
  match c with Ok a => k a | Throw e => Throw e end.

(** [Math.random().toString(36)] is not computed: the state holds the strings
    that the successive calls will return. *)
Definition randomness : Type := nat -> string.

(** A computation that may draw random strings and may throw.  The strings
    drawn before a [throw] are consumed all the same, so both ways of ending
    carry the randomness that is left. *)
Definition M (A : Type) : Type :=
  randomness -> completion (exn * randomness) (A * randomness).

Definition ret {A} (a : A) : M A := fun r => Ok (a, r).

Definition bind {A B} (c : M A) (k : A -> M B) : M B :=
  fun r => match c r with Ok (a, r') => k a r' | Throw e => Throw e end.

Definition lift {A} (c : result A) : M A :=
  fun r => match c with Ok a => Ok (a, r) | Throw e => Throw (e, r) end.

Definition random_string : M string :=
  fun r => Ok (r O, fun n => r (S n)).

(** [xs.map(f)] for an [f] with effects: left to right. *)
Fixpoint mapM {A B} (f : A -> M B) (xs : list A) : M (list B) :=
  match xs with
  | [] => ret []
  | x :: xs' => bind (f x) (fun y => bind (mapM f xs') (fun ys => ret (y :: ys)))
  end.

End Eff.

Import Eff.

Declare Scope eff_scope.
Delimit Scope eff_scope with eff.
Notation "x <- c ;; k" := (bind c (fun x => k))
  (at level 100, c at next level, right associativity) : eff_scope.
Notation "x <-! c ;; k" := (rbind c (fun x => k))
  (at level 100, c at next level, right associativity) : eff_scope.

(* ===================================================================== *)
(** * Values *)
(* ===================================================================== *)

Module JSValue.
Import JSNum.
Local Open Scope eff_scope.

(** The values that [JSON.parse] yields, and [undefined], which reading an
    absent property yields.  An object is the list of its own properties in
    insertion order. *)
Inductive value : Type :=
| Undefined
| Null
| Bool (b : bool)
| Num (n : num)
| Str (s : string)
| Arr (items : list value)
| Obj (props : list (string * value)).

Definition obj : Type := list (string * value).

(** An integer literal of the source, as a value. *)
Definition lit (z : Z) : value := Num (of_Z z).

(** ** Objects *)

Fixpoint lookup_prop (k : string) (o : obj) : option value :=
  match o with
  | [] => None
  | (k', v) :: o' => if (k =? k')%string then Some v else lookup_prop k o'
  end.

(** [o.k] on an object of the program. *)
Definition field (o : obj) (k : string) : value :=
  match lookup_prop k o with Some v => v | None => Undefined end.

(** [o[k] = v] while an object literal is built: an existing key keeps its
    place, a new key goes last. *)
Fixpoint set_prop (k : string) (v : value) (o : obj) : obj :=
  match o with
  | [] => [(k, v)]
  | (k', v') :: o' =>
      if (k =? k')%string then (k, v) :: o' else (k', v') :: set_prop k v o'
  end.

(** [{ ...o, ...patch }]. *)
Definition spread (o patch : obj) : obj :=
  fold_left (fun acc kv => set_prop (fst kv) (snd kv) acc) patch o.

(** [v.k] on any value, for the property names this program reads ([id],
    [bg], [elements], [type], [src], [x], [y], [w], [h], [z], [rotate],
    [subtype], [text], [fontSize], [color], [align], [radius], [weight],
    [layout], [panels], [width], [height]): none of them is defined on a
    built-in prototype, so only an object's own properties answer, and
    reading from [null] or [undefined] throws. *)
Definition get (v : value) (k : string) : result value :=
  match v with
  | Undefined | Null => Throw TypeError
  | Obj o => Ok (field o k)
  | _ => Ok Undefined
  end.

(** ** Tests *)

Definition nullish (v : value) : bool :=
  match v with Undefined | Null => true | _ => false end.

Definition ToBoolean (v : value) : bool :=
  match v with
  | Undefined | Null => false
  | Bool b => b
  | Num (S754_zero _) | Num S754_nan => false
  | Num _ => true
  | Str s => negb (s =? "")%string
  | Arr _ | Obj _ => true
  end.

(** [a ?? b] and [a || b] (both operands are already evaluated: in this
    program the right operands are literals or conditionals on strings). *)
Definition nullish_or (a b : value) : value := if nullish a then b else a.
Definition or_else (a b : value) : value := if ToBoolean a then a else b.

Definition isArray (v : value) : bool :=
  match v with Arr _ => true | _ => false end.

(** [a === b].  Two objects are equal when they are the same object, which
    the value alone does not tell; in this program one side of every [===]
    is a string, a number or [null], so that case is never reached. *)
Definition strict_eq (a b : value) : bool :=
  match a, b with
  | Undefined, Undefined | Null, Null => true
  | Bool x, Bool y => Bool.eqb x y
  | Num x, Num y => SFeqb x y
  | Str x, Str y => (x =? y)%string
  | _, _ => false
  end.

(** [[s1, s2, ...].includes(v)] for an array of strings. *)
Definition includes (l : list string) (v : value) : bool :=
  match v with
  | Str s => existsb (String.eqb s) l
  | _ => false
  end.

(** ** Coercions

    An object made by [JSON.parse] has no callable property of its own.  Its
    conversion to a primitive calls the inherited [toString], which answers
    ["[object Object]"], unless an own property named [toString] hides it:
    then [valueOf] (own and not callable, or inherited and answering the
    object itself) gives no primitive either and a [TypeError] is thrown.
    An array is joined with commas, [null] and [undefined] items as empty
    strings.  Both hints give the same result. *)
Fixpoint ToString (v : value) : result string :=
  match v with
  | Undefined => Ok "undefined"
  | Null => Ok "null"
  | Bool b => Ok (if b then "true" else "false")
  | Num n => Ok (NumberToString n)
  | Str s => Ok s
  | Arr items =>
      (fix join (l : list value) : result string :=
         match l with
         | [] => Ok ""
         | x :: l' =>
             s <-! (if nullish x then Ok "" else ToString x) ;;
             match l' with
             | [] => Ok s
             | _ => t <-! join l' ;; Ok (s +:+ "," +:+ t)
             end
         end) items
  | Obj o =>
      match lookup_prop "toString" o with
      | Some _ => Throw TypeError
      | None => Ok "[object Object]"
      end
  end.

Definition ToNumber (v : value) : result num :=
  match v with
  | Undefined => Ok NaN
  | Null => Ok pzero
  | Bool b => Ok (if b then of_Z 1 else pzero)
  | Num n => Ok n
  | Str s => Ok (StringToNumber s)
  | Arr _ | Obj _ => s <-! ToString v ;; Ok (StringToNumber s)
  end.

(** The property key that a value names. *)
Definition ToPropertyKey (v : value) : result string := ToString v.

(** [Math.max(a, b)] and [Math.min(a, b)]: the arguments are converted left
    to right. *)
Definition Math_max2 (a b : value) : result num :=
  x <-! ToNumber a ;; y <-! ToNumber b ;; Ok (Math_max x y).

Definition Math_min2 (a b : value) : result num :=
  x <-! ToNumber a ;; y <-! ToNumber b ;; Ok (Math_min x y).

(** [a + b]: concatenation as soon as one side is, or converts to, a
    string. *)
Definition ToPrimitive (v : value) : result value :=
  match v with
  | Arr _ | Obj _ => s <-! ToString v ;; Ok (Str s)
  | _ => Ok v
  end.

Definition plus (a b : value) : result value :=
  pa <-! ToPrimitive a ;;
  pb <-! ToPrimitive b ;;
  match pa, pb with
  | Str _, _ | _, Str _ =>
      sa <-! ToString pa ;; sb <-! ToString pb ;; Ok (Str (sa +:+ sb))
  | _, _ =>
      x <-! ToNumber pa ;; y <-! ToNumber pb ;; Ok (Num (add x y))
  end.

(** [a - b]. *)
Definition minus (a b : value) : result value :=
  x <-! ToNumber a ;; y <-! ToNumber b ;; Ok (Num (sub x y)).

(** [k in o] for an object literal [o] of the source with the given own
    keys: the properties that every object inherits count too. *)
Definition Object_prototype_keys : list string :=
  [ "constructor"; "__defineGetter__"; "__defineSetter__"; "hasOwnProperty";
    "__lookupGetter__"; "__lookupSetter__"; "isPrototypeOf";
    "propertyIsEnumerable"; "toString"; "valueOf"; "__proto__";
    "toLocaleString" ].

Definition is_key_of (own : list string) (k : string) : bool :=
  existsb (String.eqb k) own.

Definition key_in (k : value) (own : list string) : result bool :=
  s <-! ToPropertyKey k ;;
  Ok (is_key_of own s || is_key_of Object_prototype_keys s).

(** ** [JSON.parse(JSON.stringify(v))]

    The text is not built: what writing a value and reading it back does is
    stated on the value.  A property holding [undefined] is left out, an
    [undefined] item of an array and a number that is not finite become
    [null], [-0] becomes [0]; every other number reads back as itself.  The
    properties keep their order (no object of this program has a key that
    is an array index, which would come first). *)
Fixpoint json_roundtrip (v : value) : value :=
  match v with
  | Undefined => Undefined
  | Null => Null
  | Bool b => Bool b
  | Num (S754_nan | S754_infinity _) => Null
  | Num (S754_zero _) => Num pzero
  | Num n => Num n
  | Str s => Str s
  | Arr items =>
      Arr ((fix each (l : list value) : list value :=
              match l with
              | [] => []
              | x :: l' =>
                  (match x with Undefined => Null | _ => json_roundtrip x end)
                  :: each l'
              end) items)
  | Obj o =>
      Obj ((fix each (l : list (string * value)) : list (string * value) :=
              match l with
              | [] => []
              | (k, x) :: l' =>
                  match x with
                  | Undefined => each l'
                  | _ => (k, json_roundtrip x) :: each l'
                  end
              end) o)
  end.

End JSValue.

(* ===================================================================== *)
(** * The program *)
(* ===================================================================== *)

Module App.
Import JSNum JSValue.
Local Open Scope eff_scope.

(** ** Utilities *)

(** [const clamp = (v, a, b) => Math.max(a, Math.min(b, v));] *)
Definition clamp (v a b : value) : result value :=
  m <-! Math_min2 b v ;;
  r <-! Math_max2 a (Num m) ;;
  Ok (Num r).

(** [const uid = () => Math.random().toString(36).slice(2, 9);] *)
Definition uid : M value :=
  s <- random_string ;; ret (Str (substring 2 7 s)).

(** ** Layout presets *)

Record preset := {
  name : string;
  grid : string;
  preset_panels : nat;   (* the [panels] property *)
  vertical : bool;
}.

Definition LAYOUTS : list (string * preset) :=
  [ ("1",  {| name := "1 Panel"; grid := "grid-cols-1";
              preset_panels := 1; vertical := false |});
    ("2h", {| name := "2 Panels (Horizontal)"; grid := "md:grid-cols-2";
              preset_panels := 2; vertical := false |});
    ("2v", {| name := "2 Panels (Vertical)"; grid := "grid-cols-1";
              preset_panels := 2; vertical := true |});
    ("4",  {| name := "4 Panels (2x2)"; grid := "md:grid-cols-2";
              preset_panels := 4; vertical := false |}) ].

Definition LAYOUT_keys : list string := map fst LAYOUTS.

Fixpoint own_preset (k : string) (l : list (string * preset)) : option preset :=
  match l with
  | [] => None
  | (k', p) :: l' => if (k =? k')%string then Some p else own_preset k l'
  end.

(** [LAYOUTS[layout].panels]: the count of an own preset; [undefined]
    ([None]) on an inherited property, which has no [panels]; a [TypeError]
    when [LAYOUTS[layout]] is [undefined]. *)
Definition LAYOUTS_panels (layout : value) : result (option nat) :=
  k <-! ToPropertyKey layout ;;
  match own_preset k LAYOUTS with
  | Some p => Ok (Some (preset_panels p))
  | None =>
      if is_key_of Object_prototype_keys k then Ok None else Throw TypeError
  end.

(** ** The document *)

Record Panel := {
  id : value;
  bg : value;
  elements : list obj;
}.

Record Page := {
  layout : value;
  panels : list Panel;
}.

Record Selection := {
  panelIdx : nat;
  elId : value;
}.

(** [{ id: uid(), bg: '#ffffff', elements: [] }] *)
Definition fresh_panel : M Panel :=
  i <- uid ;; ret {| id := i; bg := Str "#ffffff"; elements := [] |}.

(** [n] evaluations of [c], first to last. *)
Fixpoint timesM {A} (n : nat) (c : M A) : M (list A) :=
  match n with
  | O => ret []
  | S n' => x <- c ;; xs <- timesM n' c ;; ret (x :: xs)
  end.

Definition DEFAULT_PAGE : M Page :=
  ps <- timesM 4 fresh_panel ;;
  ret {| layout := Str "4"; panels := ps |}.

Definition defaultText (subtype : value) : M obj :=
  i <- uid ;;
  ret [ ("id", i);
        ("type", Str "text");
        ("subtype", subtype);
        ("text", if strict_eq subtype (Str "sfx") then Str "BAM!"
                 else if strict_eq subtype (Str "caption") then Str "Caption..."
                 else Str "Speech...");
        ("x", lit 24); ("y", lit 24); ("w", lit 200); ("h", lit 80);
        ("fontSize", if strict_eq subtype (Str "sfx") then lit 36 else lit 20);
        ("color", if strict_eq subtype (Str "caption") then Str "#111827"
                  else Str "#111827");
        ("bg", if strict_eq subtype (Str "caption") then Str "#fef3c7"
               else Str "#ffffffcc");
        ("rotate", lit 0);
        ("z", lit 1);
        ("align", Str "left");
        ("radius", if strict_eq subtype (Str "speech") then lit 16 else lit 8);
        ("weight", if strict_eq subtype (Str "sfx") then lit 800 else lit 600) ].

(** [natural?.k] *)
Definition optional_get (v : value) (k : string) : result value :=
  if nullish v then Ok Undefined else get v k.

Definition defaultImage (src natural : value) : M obj :=
  i <- uid ;;
  nw <- lift (optional_get natural "width") ;;
  w <- lift (Math_min2 (lit 300) (or_else nw (lit 300))) ;;
  nh <- lift (optional_get natural "height") ;;
  h <- lift (Math_min2 (lit 220) (or_else nh (lit 220))) ;;
  ret [ ("id", i);
        ("type", Str "image");
        ("src", src);
        ("x", lit 24); ("y", lit 24);
        ("w", Num w);
        ("h", Num h);
        ("z", lit 0);
        ("rotate", lit 0) ].

(** ** State updates of [App] *)

(** The effect that keeps the panels in step with the layout preset:
    [panels = p.panels.slice(0, need)], then fresh panels are pushed while
    [panels.length < need].  With [need] undefined the slice keeps every
    panel and the comparison is false. *)
Definition sync_panels (p : Page) : M Page :=
  need <- lift (LAYOUTS_panels (layout p)) ;;
  match need with
  | None => ret {| layout := layout p; panels := panels p |}
  | Some n =>
      let kept := take n (panels p) in
      pushed <- timesM (n - length kept) fresh_panel ;;
      ret {| layout := layout p; panels := kept ++ pushed |}
  end.

(** The two shapes of patch that [setPanel] is called with. *)
Inductive panel_patch :=
| patch_bg (v : value)
| patch_elements (els : list obj).

Definition patch_panel (pan : Panel) (patch : panel_patch) : Panel :=
  match patch with
  | patch_bg v => {| id := id pan; bg := v; elements := elements pan |}
  | patch_elements els => {| id := id pan; bg := bg pan; elements := els |}
  end.

Definition setPanel (idx : nat) (patch : panel_patch) (p : Page) : Page :=
  {| layout := layout p;
     panels := imap (fun i pan => if (i =? idx)%nat then patch_panel pan patch
                                  else pan) (panels p) |}.

Definition mutateElement (pIdx : nat) (eId : value) (patch : obj) (p : Page)
  : Page :=
  {| layout := layout p;
     panels :=
       imap (fun i pan =>
               if negb (i =? pIdx)%nat then pan
               else {| id := id pan; bg := bg pan;
                       elements :=
                         map (fun el => if strict_eq (field el "id") eId
                                        then spread el patch else el)
                             (elements pan) |})
            (panels p) |}.

(** [page.panels[panelIdx].elements]: a [TypeError] when there is no such
    panel. *)
Definition elements_at (p : Page) (pIdx : nat) : result (list obj) :=
  match panels p !! pIdx with
  | Some pan => Ok (elements pan)
  | None => Throw TypeError
  end.

Definition addText (pIdx : nat) (subtype : value) (p : Page) : M Page :=
  els <- lift (elements_at p pIdx) ;;
  el <- defaultText subtype ;;
  ret (setPanel pIdx (patch_elements (els ++ [el])) p).

(** [addImage] once the file was given a URL and its natural size was
    probed ([probe] is [{ width, height }] or [null]).  The probe is
    awaited, so two pages are involved: [shown] is the [page] of the render
    in which the file was chosen, from whose elements the new list is
    built, and [current] is the state when the update runs, which
    [setPanel] patches. *)
Definition addImage (pIdx : nat) (url probe : value) (shown current : Page)
  : M Page :=
  els <- lift (elements_at shown pIdx) ;;
  el <- defaultImage url probe ;;
  ret (setPanel pIdx (patch_elements (els ++ [el])) current).

Definition remove_from (pIdx : nat) (eId : value) (p : Page) : Page :=
  {| layout := layout p;
     panels :=
       imap (fun i pan =>
               if negb (i =? pIdx)%nat then pan
               else {| id := id pan; bg := bg pan;
                       elements :=
                         List.filter
                           (fun el => negb (strict_eq (field el "id") eId))
                           (elements pan) |})
            (panels p) |}.

(** [onLayout]: [setPage(p => ({ ...p, layout }))]. *)
Definition setLayout (l : value) (p : Page) : Page :=
  {| layout := l; panels := panels p |}.

(** ** Loading a document *)

(** [el.k], inside a computation. *)
Definition rd (v : value) (k : string) : M value := lift (get v k).

Definition sanitizeElement (el : value) : M obj :=
  ty <- rd el "type" ;;
  if strict_eq ty (Str "image") then
    src <- rd el "src" ;;
    nw <- rd el "w" ;;
    nh <- rd el "h" ;;
    d <- defaultImage (or_else src (Str ""))
                      (Obj [("width", nw); ("height", nh)]) ;;
    ex <- rd el "x" ;;
    x <- lift (clamp (nullish_or ex (lit 24)) (lit 0) (lit 10000)) ;;
    ey <- rd el "y" ;;
    y <- lift (clamp (nullish_or ey (lit 24)) (lit 0) (lit 10000)) ;;
    ew <- rd el "w" ;;
    w <- lift (clamp (nullish_or ew (lit 300)) (lit 10) (lit 10000)) ;;
    eh <- rd el "h" ;;
    h <- lift (clamp (nullish_or eh (lit 220)) (lit 10) (lit 10000)) ;;
    ez <- rd el "z" ;;
    er <- rd el "rotate" ;;
    ret (spread d [ ("x", x); ("y", y); ("w", w); ("h", h);
                    ("z", nullish_or ez (lit 0));
                    ("rotate", nullish_or er (lit 0)) ])
  else
    es <- rd el "subtype" ;;
    let subtype :=
      if includes ["speech"; "caption"; "sfx"] es then es else Str "speech" in
    d <- defaultText subtype ;;
    et <- rd el "text" ;;
    text <- lift (ToString (nullish_or et (Str ""))) ;;
    ex <- rd el "x" ;;
    x <- lift (clamp (nullish_or ex (lit 24)) (lit 0) (lit 10000)) ;;
    ey <- rd el "y" ;;
    y <- lift (clamp (nullish_or ey (lit 24)) (lit 0) (lit 10000)) ;;
    ew <- rd el "w" ;;
    w <- lift (clamp (nullish_or ew (lit 200)) (lit 40) (lit 10000)) ;;
    eh <- rd el "h" ;;
    h <- lift (clamp (nullish_or eh (lit 80)) (lit 30) (lit 10000)) ;;
    ef <- rd el "fontSize" ;;
    fontSize <- lift (clamp (nullish_or ef (lit 20)) (lit 8) (lit 160)) ;;
    ec <- rd el "color" ;;
    eb <- rd el "bg" ;;
    er <- rd el "rotate" ;;
    ez <- rd el "z" ;;
    ea <- rd el "align" ;;
    erad <- rd el "radius" ;;
    radius <- lift (clamp (nullish_or erad (if strict_eq subtype (Str "speech")
                                            then lit 16 else lit 8))
                          (lit 0) (lit 64)) ;;
    ewt <- rd el "weight" ;;
    weight <- lift (clamp (nullish_or ewt (if strict_eq subtype (Str "sfx")
                                           then lit 800 else lit 600))
                          (lit 100) (lit 900)) ;;
    ret (spread d [ ("text", Str (substring 0 2000 text));
                    ("x", x); ("y", y); ("w", w); ("h", h);
                    ("fontSize", fontSize);
                    ("color", or_else ec (Str "#111827"));
                    ("bg", or_else eb (if strict_eq subtype (Str "caption")
                                       then Str "#fef3c7" else Str "#ffffffcc"));
                    ("rotate", nullish_or er (lit 0));
                    ("z", nullish_or ez (lit 1));
                    ("align", if includes ["left"; "center"; "right"] ea
                              then ea else Str "left");
                    ("radius", radius);
                    ("weight", weight) ]).

(** The callback of [doc.panels.map]: [uid()] is called only when [p.id] is
    falsy. *)
Definition load_panel (p : value) : M Panel :=
  pid <- rd p "id" ;;
  i <- (if ToBoolean pid then ret pid else uid) ;;
  pbg <- rd p "bg" ;;
  pels <- rd p "elements" ;;
  els <- match pels with
         | Arr items => mapM sanitizeElement items
         | _ => ret []
         end ;;
  ret {| id := i; bg := or_else pbg (Str "#ffffff"); elements := els |}.

(** The body of the [try] in [loadJSON], from the parsed [doc] to the
    argument of [setPage]. *)
Definition load_document (doc : value) : M Page :=
  dp <- lift (if ToBoolean doc then get doc "panels" else Throw InvalidFormat) ;;
  match dp with
  | Arr items =>
      dl <- rd doc "layout" ;;
      known <- lift (key_in dl LAYOUT_keys) ;;
      ps <- mapM load_panel items ;;
      ret {| layout := if known then dl else Str "4"; panels := ps |}
  | _ => lift (Throw InvalidFormat)
  end.

(** ** The application state *)

(** What a download link carries: a data URL, or the text
    [JSON.stringify(v)] of a value. *)
Inductive payload :=
| DataUrl (url : string)
| JsonText (v : value).

Record World := {
  page : Page;
  selection : Selection;
  localStorage : gmap string string;
  downloads : list (string * payload);
  alerts : list string;
}.

Definition with_page (w : World) (p : Page) : World :=
  {| page := p; selection := selection w; localStorage := localStorage w;
     downloads := downloads w; alerts := alerts w |}.

Definition with_selection (w : World) (s : Selection) : World :=
  {| page := page w; selection := s; localStorage := localStorage w;
     downloads := downloads w; alerts := alerts w |}.

Definition alert (msg : string) (w : World) : World :=
  {| page := page w; selection := selection w; localStorage := localStorage w;
     downloads := downloads w; alerts := alerts w ++ [msg] |}.

Definition download (file : string) (c : payload) (w : World) : World :=
  {| page := page w; selection := selection w; localStorage := localStorage w;
     downloads := downloads w ++ [(file, c)]; alerts := alerts w |}.

Definition setItem (k v : string) (w : World) : World :=
  {| page := page w; selection := selection w;
     localStorage := <[k := v]> (localStorage w);
     downloads := downloads w; alerts := alerts w |}.

(** [localStorage.getItem(k)]: the string, or [null]. *)
Definition getItem (k : string) (w : World) : value :=
  match localStorage w !! k with Some s => Str s | None => Null end.

(** [loadJSON], from the result of [JSON.parse(reader.result)] on: whatever
    is thrown inside the [try] ends in the alert, and [setPage] is not
    reached.  The calls of [uid] made before the [throw] have drawn their
    strings. *)
Definition loadJSON (parsed : result value) (w : World) (r : randomness)
  : World * randomness :=
  match (doc <- lift parsed ;; load_document doc) r with
  | Ok (p, r') => (with_page w p, r')
  | Throw (_, r') => (alert "Invalid JSON." w, r')
  end.

Definition removeElement (pIdx : nat) (eId : value) (w : World) : World :=
  with_selection (with_page w (remove_from pIdx eId (page w)))
                 {| panelIdx := panelIdx (selection w); elId := Null |}.

(** The page as the object that [JSON.stringify(page)] is given. *)
Definition panel_value (pan : Panel) : value :=
  Obj [ ("id", id pan); ("bg", bg pan);
        ("elements", Arr (map Obj (elements pan))) ].

Definition page_value (p : Page) : value :=
  Obj [ ("layout", layout p); ("panels", Arr (map panel_value (panels p))) ].

Definition saveJSON (w : World) : World :=
  download "comic.json" (JsonText (page_value (page w))) w.

(** ** Export *)

(** [exportPNG]: [mounted] tells whether [boardRef.current] is set,
    [rendered] is what awaiting [toPng] gives (a data URL, or [None] when it
    rejects) and [now] is [Date.now()]. *)
Definition exportPNG (mounted : bool) (rendered : option string) (now : num)
    (w : World) : World :=
  if negb mounted then w
  else
    match rendered with
    | None => alert "Export failed. (CORS or memory). Try smaller images." w
    | Some dataUrl =>
        let w1 := download ("comic-" +:+ NumberToString now +:+ ".png")
                           (DataUrl dataUrl) w in
        match ToNumber (or_else (getItem "comicsCount" w1) (Str "0")) with
        | Ok c =>
            let n := add c (of_Z 1) in
            alert "Exported PNG and updated dashboard count."
                  (setItem "comicsCount" (NumberToString n) w1)
        | Throw _ =>
            alert "Export failed. (CORS or memory). Try smaller images." w1
        end
    end.

(** ** Keyboard *)

Record KeyboardEvent := {
  key : string;
  shiftKey : bool;
}.

(** [page.panels[panelIdx]?.elements.find(x => x.id === elId)] *)
Definition find_element (p : Page) (pIdx : nat) (eId : value) : option obj :=
  match panels p !! pIdx with
  | Some pan => List.find (fun x => strict_eq (field x "id") eId) (elements pan)
  | None => None
  end.

(** [onKey]: [activeTag] is the tag name of [document.activeElement], if
    there is one.  An exception leaves the handler without any update. *)
Definition onKey (activeTag : option string) (e : KeyboardEvent) (w : World)
  : result World :=
  match activeTag with
  | None => Ok w
  | Some tag =>
      if (tag =? "INPUT")%string || (tag =? "TEXTAREA")%string then Ok w
      else
        let pIdx := panelIdx (selection w) in
        let eId := elId (selection w) in
        if nullish eId then Ok w
        else
          let step := if shiftKey e then of_Z 10 else of_Z 1 in
          if (key e =? "Delete")%string || (key e =? "Backspace")%string then
            Ok (removeElement pIdx eId w)
          else if is_key_of ["ArrowUp"; "ArrowDown"; "ArrowLeft"; "ArrowRight"]
                            (key e) then
            match find_element (page w) pIdx eId with
            | None => Ok w
            | Some el =>
                let dx := if (key e =? "ArrowRight")%string then step
                          else if (key e =? "ArrowLeft")%string then opp step
                          else of_Z 0 in
                let dy := if (key e =? "ArrowDown")%string then step
                          else if (key e =? "ArrowUp")%string then opp step
                          else of_Z 0 in
                nx <-! plus (field el "x") (Num dx) ;;
                ny <-! plus (field el "y") (Num dy) ;;
                Ok (with_page w (mutateElement pIdx eId [("x", nx); ("y", ny)]
                                               (page w)))
            end
          else if (key e =? "]")%string then
            match find_element (page w) pIdx eId with
            | None => Ok w
            | Some el =>
                nz <-! plus (nullish_or (field el "z") (lit 0)) (lit 1) ;;
                Ok (with_page w (mutateElement pIdx eId [("z", nz)] (page w)))
            end
          else if (key e =? "[")%string then
            match find_element (page w) pIdx eId with
            | None => Ok w
            | Some el =>
                d <-! minus (nullish_or (field el "z") (lit 0)) (lit 1) ;;
                nz <-! Math_max2 (lit 0) d ;;
                Ok (with_page w (mutateElement pIdx eId [("z", Num nz)]
                                               (page w)))
            end
          else Ok w
  end.

(** ** Pointer gestures of a [Panel] *)

Record PointerEvent := {
  clientX : num;
  clientY : num;
}.

(** The contents of [dragRef.current]. *)
Record Drag := {
  drag_id : value;      (* the [id] property *)
  kind : string;
  startX : num;
  startY : num;
  startRect : obj;
}.

Definition startDrag (idx : nat) (e : PointerEvent) (el : obj) (k : string)
    (w : World) : World * option Drag :=
  (with_selection w {| panelIdx := idx; elId := field el "id" |},
   Some {| drag_id := field el "id"; kind := k;
           startX := clientX e; startY := clientY e;
           startRect := [ ("x", field el "x"); ("y", field el "y");
                          ("w", field el "w"); ("h", field el "h") ] |}).

(** The [pointermove] listener of the panel at [idx]. *)
Definition move (idx : nat) (dragRef : option Drag) (e : PointerEvent)
    (p : Page) : result Page :=
  match dragRef with
  | None => Ok p
  | Some d =>
      let dx := sub (clientX e) (startX d) in
      let dy := sub (clientY e) (startY d) in
      if (kind d =? "move")%string then
        nx <-! plus (field (startRect d) "x") (Num dx) ;;
        ny <-! plus (field (startRect d) "y") (Num dy) ;;
        Ok (mutateElement idx (drag_id d) [("x", nx); ("y", ny)] p)
      else
        sw <-! plus (field (startRect d) "w") (Num dx) ;;
        nw <-! Math_max2 (lit 20) sw ;;
        sh <-! plus (field (startRect d) "h") (Num dy) ;;
        nh <-! Math_max2 (lit 20) sh ;;
        Ok (mutateElement idx (drag_id d) [("w", Num nw); ("h", Num nh)] p)
  end.

(** The [pointerup] listener. *)
Definition up (dragRef : option Drag) : option Drag := None.

(** ** [Board] *)

(** [LAYOUTS[layout]]: an own preset, a value that every object inherits (a
    function, or [Object.prototype] itself; none has a [grid], a [vertical]
    or a [panels] property), or [undefined]. *)
Inductive layout_entry :=
| OwnPreset (pr : preset)
| InheritedValue
| NoEntry.

Definition LAYOUTS_get (l : value) : result layout_entry :=
  k <-! ToPropertyKey l ;;
  Ok match own_preset k LAYOUTS with
     | Some pr => OwnPreset pr
     | None =>
         if is_key_of Object_prototype_keys k then InheritedValue else NoEntry
     end.

(** The class list of the board: four strings joined by a blank;
    [layout.grid] throws when [LAYOUTS[page.layout]] is [undefined]. *)
Definition gridClasses (p : Page) : result string :=
  e <-! LAYOUTS_get (layout p) ;;
  match e with
  | NoEntry => Throw TypeError
  | OwnPreset pr =>
      Ok (String.concat " "
            [ "grid gap-3 bg-slate-200 p-3 rounded";
              if (grid pr =? "")%string then "grid-cols-1" else grid pr;
              if vertical pr then "grid-rows-2" else "";
              if strict_eq (layout p) (Str "4")
              then "grid-cols-1 md:grid-cols-2" else "" ])
  | InheritedValue =>
      Ok (String.concat " "
            [ "grid gap-3 bg-slate-200 p-3 rounded";
              "grid-cols-1";
              "";
              if strict_eq (layout p) (Str "4")
              then "grid-cols-1 md:grid-cols-2" else "" ])
  end.

(** ** [ElementView] *)

(** What [ElementView] hands to the renderer: the style of the outer box,
    its class names, what it holds (the source of the picture, or the
    text), the style of the text box (an image has none), and whether the
    resize handle is there. *)
Record View := {
  style : obj;
  className : string;
  content : value;
  box : option obj;
  handle : bool;
}.

Definition ElementView (el : obj) (selected : bool) : result View :=
  deg <-! ToString (or_else (field el "rotate") (lit 0)) ;;
  let common :=
    [ ("position", Str "absolute");
      ("left", field el "x");
      ("top", field el "y");
      ("width", field el "w");
      ("height", field el "h");
      ("transform", Str ("rotate(" +:+ deg +:+ "deg)"));
      ("zIndex", or_else (field el "z") (lit 0)) ] in
  let ring := if selected then "ring-2 ring-sky-500"
              else "ring-1 ring-slate-300" in
  if strict_eq (field el "type") (Str "image") then
    Ok {| style := common;
          className := "group " +:+ ring +:+ " rounded cursor-move";
          content := field el "src";
          box := None;
          handle := selected |}
  else
    let align := or_else (field el "align") (Str "left") in
    let weight := or_else (field el "weight") (lit 600) in
    borderRadius <-! plus (nullish_or (field el "radius") (lit 12)) (Str "px") ;;
    fontSize <-! plus (or_else (field el "fontSize") (lit 18)) (Str "px") ;;
    Ok {| style := common;
          className := "group " +:+ ring +:+ " rounded cursor-move p-2";
          content := field el "text";
          box := Some [ ("background", or_else (field el "bg") (Str "#ffffffcc"));
                        ("color", or_else (field el "color") (Str "#111827"));
                        ("borderRadius", borderRadius);
                        ("fontSize", fontSize);
                        ("fontWeight", weight);
                        ("textAlign", align) ];
          handle := selected |}.

(** ** [Inspector] *)

(** The controls that edit the selected element. *)
Inductive control :=
| Ctext | CfontSize | Cweight | Ccolor | Cbg | Cradius | Calign
| Cx | Cy | Cw | Ch | Crotate | Cz.

(** The controls that are there for a text only. *)
Definition text_only (c : control) : bool :=
  match c with
  | Ctext | CfontSize | Cweight | Ccolor | Cbg | Cradius | Calign => true
  | Cx | Cy | Cw | Ch | Crotate | Cz => false
  end.

(** The property that a control edits. *)
Definition control_key (c : control) : string :=
  match c with
  | Ctext => "text" | CfontSize => "fontSize" | Cweight => "weight"
  | Ccolor => "color" | Cbg => "bg" | Cradius => "radius" | Calign => "align"
  | Cx => "x" | Cy => "y" | Cw => "w" | Ch => "h"
  | Crotate => "rotate" | Cz => "z"
  end.

(** The value that the [onChange] of a control commits for the text [input]
    of its field ([e.target.value]): the text itself, or
    [Number(e.target.value || 0)], with 600 in the place of 0 for the
    weight. *)
Definition control_value (c : control) (input : string) : result value :=
  match c with
  | Ctext | Ccolor | Cbg | Calign => Ok (Str input)
  | Cweight => n <-! ToNumber (or_else (Str input) (lit 600)) ;; Ok (Num n)
  | CfontSize | Cradius | Cx | Cy | Cw | Ch | Crotate | Cz =>
      n <-! ToNumber (or_else (Str input) (lit 0)) ;; Ok (Num n)
  end.

(** The element that the Inspector edits:
    [page.panels[panelIdx]?.elements.find(e => e.id === elId)]. *)
Definition Inspector_el (w : World) : option obj :=
  find_element (page w) (panelIdx (selection w)) (elId (selection w)).

(** [panel?.bg || '#ffffff'] *)
Definition panelBg (w : World) : value :=
  match panels (page w) !! panelIdx (selection w) with
  | Some pan => or_else (bg pan) (Str "#ffffff")
  | None => Str "#ffffff"
  end.

(** A change of the control [c]: without an element no control is rendered,
    and an image has only the controls that are not for texts. *)
Definition Inspector_change (c : control) (input : string) (w : World)
  : result World :=
  match Inspector_el w with
  | None => Ok w
  | Some el =>
      if text_only c && negb (strict_eq (field el "type") (Str "text"))
      then Ok w
      else
        v <-! control_value c input ;;
        Ok (with_page w (mutateElement (panelIdx (selection w)) (field el "id")
                                       [(control_key c, v)] (page w)))
  end.

(** A change of the panel's colour: [setPanel(panelIdx, { bg: value })]. *)
Definition Inspector_background (input : string) (w : World) : World :=
  with_page w (setPanel (panelIdx (selection w)) (patch_bg (Str input)) (page w)).

(** The Delete button: [removeElement(panelIdx, el.id)]. *)
Definition Inspector_delete (w : World) : World :=
  match Inspector_el w with
  | None => w
  | Some el => removeElement (panelIdx (selection w)) (field el "id") w
  end.

End App.


(* ===================================================================== *)
(** * Notions used by the statements *)
(* ===================================================================== *)

Module Props.
Import JSNum JSValue App.
Local Open Scope eff_scope.

(** ** Randomness *)

(** What [uid()] returns on a state, and the state it leaves. *)
Definition drawn (r : randomness) : value := Str (substring 2 7 (r O)).
Definition after_draw (r : randomness) : randomness := fun n => r (S n).

(** A sample of what [Math.random().toString(36)] may return, call after
    call. *)
Definition sample_random : randomness :=
  fun n => "0." +:+ String (ascii_of_nat (97 + n mod 26)) "q7w2m9xk4t".

(** ** Reading a property without the exception *)

(** [v.k] for a [v] that is neither [null] nor [undefined]. *)
Definition member (v : value) (k : string) : value :=
  match v with Obj o => field o k | _ => Undefined end.

(** ** The sanitizer once the id is drawn

    [sanitizeElement] draws one id and then only converts values; these two
    functions are that second half, for an image and for a text, with the
    new object written out.  [sanitizeElement_eq] below relates them to the
    function of the source. *)
Definition sanitized_image (el i : value) : result obj :=
  _ <-! ToNumber (or_else (member el "w") (lit 300)) ;;
  _ <-! ToNumber (or_else (member el "h") (lit 220)) ;;
  x <-! ToNumber (nullish_or (member el "x") (lit 24)) ;;
  y <-! ToNumber (nullish_or (member el "y") (lit 24)) ;;
  w <-! ToNumber (nullish_or (member el "w") (lit 300)) ;;
  h <-! ToNumber (nullish_or (member el "h") (lit 220)) ;;
  Ok [ ("id", i);
       ("type", Str "image");
       ("src", or_else (member el "src") (Str ""));
       ("x", Num (clampN (of_Z 0) (of_Z 10000) x));
       ("y", Num (clampN (of_Z 0) (of_Z 10000) y));
       ("w", Num (clampN (of_Z 10) (of_Z 10000) w));
       ("h", Num (clampN (of_Z 10) (of_Z 10000) h));
       ("z", nullish_or (member el "z") (lit 0));
       ("rotate", nullish_or (member el "rotate") (lit 0)) ].

Definition subtype_of (el : value) : value :=
  if includes ["speech"; "caption"; "sfx"] (member el "subtype")
  then member el "subtype" else Str "speech".

Definition sanitized_text (el i : value) : result obj :=
  let subtype := subtype_of el in
  text <-! ToString (nullish_or (member el "text") (Str "")) ;;
  x <-! ToNumber (nullish_or (member el "x") (lit 24)) ;;
  y <-! ToNumber (nullish_or (member el "y") (lit 24)) ;;
  w <-! ToNumber (nullish_or (member el "w") (lit 200)) ;;
  h <-! ToNumber (nullish_or (member el "h") (lit 80)) ;;
  fontSize <-! ToNumber (nullish_or (member el "fontSize") (lit 20)) ;;
  radius <-! ToNumber (nullish_or (member el "radius")
                         (if strict_eq subtype (Str "speech") then lit 16 else lit 8)) ;;
  weight <-! ToNumber (nullish_or (member el "weight")
                         (if strict_eq subtype (Str "sfx") then lit 800 else lit 600)) ;;
  Ok [ ("id", i);
       ("type", Str "text");
       ("subtype", subtype);
       ("text", Str (substring 0 2000 text));
       ("x", Num (clampN (of_Z 0) (of_Z 10000) x));
       ("y", Num (clampN (of_Z 0) (of_Z 10000) y));
       ("w", Num (clampN (of_Z 40) (of_Z 10000) w));
       ("h", Num (clampN (of_Z 30) (of_Z 10000) h));
       ("fontSize", Num (clampN (of_Z 8) (of_Z 160) fontSize));
       ("color", or_else (member el "color") (Str "#111827"));
       ("bg", or_else (member el "bg")
                (if strict_eq subtype (Str "caption") then Str "#fef3c7"
                 else Str "#ffffffcc"));
       ("rotate", nullish_or (member el "rotate") (lit 0));
       ("z", nullish_or (member el "z") (lit 1));
       ("align", if includes ["left"; "center"; "right"] (member el "align")
                 then member el "align" else Str "left");
       ("radius", Num (clampN (of_Z 0) (of_Z 64) radius));
       ("weight", Num (clampN (of_Z 100) (of_Z 900) weight)) ].

Definition sanitized (el i : value) : result obj :=
  if strict_eq (member el "type") (Str "image") then sanitized_image el i
  else sanitized_text el i.

(** ** Numbers *)

(** A number other than NaN and the infinities. *)
Definition finite (x : num) : bool :=
  match x with
  | S754_zero _ | S754_finite _ _ _ => true
  | _ => false
  end.

(** ** Well-formed documents

    What the editor itself maintains on a page, and no more: the properties
    of each element are there with the types that the handlers rely on.
    This is not the Document type of the specification: the layout is not
    looked at, an id need not be unique, a colour need not be a colour, and
    a measure may be NaN or out of its range (see [page_in_range] for the
    ranges). *)

Definition is_num (v : value) : bool :=
  match v with Num _ => true | _ => false end.

Definition is_str (v : value) : bool :=
  match v with Str _ => true | _ => false end.

Definition keys (o : obj) : list string := map fst o.

Fixpoint same_keys (l1 l2 : list string) : bool :=
  match l1, l2 with
  | [], [] => true
  | k1 :: l1', k2 :: l2' => (k1 =? k2)%string && same_keys l1' l2'
  | _, _ => false
  end.

Definition text_keys : list string :=
  [ "id"; "type"; "subtype"; "text"; "x"; "y"; "w"; "h"; "fontSize"; "color";
    "bg"; "rotate"; "z"; "align"; "radius"; "weight" ].

Definition image_keys : list string :=
  [ "id"; "type"; "src"; "x"; "y"; "w"; "h"; "z"; "rotate" ].

(** A text element, as far as the sanitizer enforces types: every property
    is there, [id] is a string,
    [subtype] and [align] are in their enumerations, [text] is a string of
    at most 2000 characters, the seven measures are numbers, the colours are
    truthy, [rotate] and [z] are present. *)
Definition valid_text (o : obj) : bool :=
  same_keys (keys o) text_keys
  && is_str (field o "id")
  && strict_eq (field o "type") (Str "text")
  && includes ["speech"; "caption"; "sfx"] (field o "subtype")
  && match field o "text" with
     | Str s => (String.length s <=? 2000)%nat
     | _ => false
     end
  && forallb (fun k => is_num (field o k))
             ["x"; "y"; "w"; "h"; "fontSize"; "radius"; "weight"]
  && ToBoolean (field o "color")
  && ToBoolean (field o "bg")
  && negb (nullish (field o "rotate"))
  && negb (nullish (field o "z"))
  && includes ["left"; "center"; "right"] (field o "align").

(** An image element: [src] is truthy or the empty string. *)
Definition valid_image (o : obj) : bool :=
  same_keys (keys o) image_keys
  && is_str (field o "id")
  && strict_eq (field o "type") (Str "image")
  && (ToBoolean (field o "src") || strict_eq (field o "src") (Str ""))
  && forallb (fun k => is_num (field o k)) ["x"; "y"; "w"; "h"]
  && negb (nullish (field o "rotate"))
  && negb (nullish (field o "z")).

Definition valid_element (o : obj) : bool := valid_text o || valid_image o.

(** A panel: its [id] is what the file gave (truthy) or a drawn string, its
    background is truthy, its elements are well formed. *)
Definition valid_panel (pan : Panel) : bool :=
  (ToBoolean (id pan) || is_str (id pan))
  && ToBoolean (bg pan)
  && forallb valid_element (elements pan).

(** A page whose panels are well formed in that sense; its [layout] is not
    constrained. *)
Definition valid_page (p : Page) : bool := forallb valid_panel (panels p).

(** ** What [loadJSON] accepts *)

(** The test that [loadJSON] makes itself:
    [doc && Array.isArray(doc.panels)]. *)
Definition shape_ok (doc : value) : bool :=
  ToBoolean doc && isArray (member doc "panels").

(** A value that converts to a string, a number or a property key without a
    [TypeError]. *)
Definition converts (v : value) : bool :=
  match ToString v with Ok _ => true | Throw _ => false end.

(** The properties of an element that the sanitizer converts. *)
Definition converted_fields (el : value) : list string :=
  if strict_eq (member el "type") (Str "image") then ["w"; "h"; "x"; "y"]
  else ["text"; "x"; "y"; "w"; "h"; "fontSize"; "radius"; "weight"].

Definition element_ok (el : value) : bool :=
  negb (nullish el)
  && forallb (fun k => converts (member el k)) (converted_fields el).

Definition panel_ok (p : value) : bool :=
  negb (nullish p)
  && match member p "elements" with
     | Arr els => forallb element_ok els
     | _ => true
     end.

Definition loadable (doc : value) : bool :=
  shape_ok doc
  && converts (member doc "layout")
  && match member doc "panels" with
     | Arr ps => forallb panel_ok ps
     | _ => false
     end.

(** ** Ranges *)

(** The property [k] of [o] is a number in [[lo, hi]]. *)
Definition in_range (o : obj) (k : string) (lo hi : Z) : bool :=
  match field o k with
  | Num n => within (of_Z lo) (of_Z hi) n
  | _ => false
  end.

Definition is_image (o : obj) : bool :=
  strict_eq (field o "type") (Str "image").

(** The table of section 4.2. *)
Definition ranges (o : obj) : list (string * (Z * Z)) :=
  if is_image o then
    [ ("x", (0, 10000)); ("y", (0, 10000));
      ("w", (10, 10000)); ("h", (10, 10000)) ]
  else
    [ ("x", (0, 10000)); ("y", (0, 10000));
      ("w", (40, 10000)); ("h", (30, 10000));
      ("fontSize", (8, 160)); ("radius", (0, 64)); ("weight", (100, 900)) ].

Definition element_in_range (o : obj) : bool :=
  forallb (fun kr => in_range o (fst kr) (fst (snd kr)) (snd (snd kr)))
          (ranges o).

Definition page_in_range (p : Page) : bool :=
  forallb (fun pan => forallb element_in_range (elements pan)) (panels p).

(** The property names that have a range, and [type], which selects the
    table. *)
Definition ranged_keys : list string :=
  [ "type"; "x"; "y"; "w"; "h"; "fontSize"; "radius"; "weight" ].

(** A patch that writes none of them. *)
Definition leaves_ranges (patch : obj) : bool :=
  forallb (fun k => negb (is_key_of ranged_keys k)) (keys patch).

(** The property [k] of [o] is a number that is NaN or lies in [[lo, hi]]. *)
Definition in_range_or_nan (o : obj) (k : string) (lo hi : Z) : bool :=
  match field o k with
  | Num n => is_nan n || within (of_Z lo) (of_Z hi) n
  | _ => false
  end.

(** ** Reading the page *)

(** The element [j] of panel [i]. *)
Definition element_at (p : Page) (i j : nat) : option obj :=
  match panels p !! i with
  | Some pan => elements pan !! j
  | None => None
  end.

(** A panel as the layout effect pushes it. *)
Definition empty_panel (pan : Panel) : bool :=
  is_str (id pan) && strict_eq (bg pan) (Str "#ffffff")
  && match elements pan with [] => true | _ => false end.

(** [save] then [load]: the document that [loadJSON] builds from the text
    that [saveJSON] wrote. *)
Definition reload (p : Page) : M Page :=
  load_document (json_roundtrip (page_value p)).

(** ** Samples *)

(** What a computation returns, when it returns. *)
Definition result_of {A} (c : M A) (r : randomness) : option A :=
  match c r with Ok (a, _) => Some a | Throw _ => None end.

Definition sample_page : Page :=
  match DEFAULT_PAGE sample_random with
  | Ok (p, _) => p
  | Throw _ => {| layout := Str "4"; panels := [] |}
  end.

(** The sample page once a sound-effect text was added to its first panel
    (the id of the text is ["aq7w2m9"]). *)
Definition sample_text_page : Page :=
  match result_of (addText 0 (Str "sfx") sample_page) sample_random with
  | Some p => p
  | None => sample_page
  end.

Definition sample_world : World :=
  {| page := sample_page;
     selection := {| panelIdx := 0; elId := Null |};
     localStorage := ∅;
     downloads := [];
     alerts := [] |}.

(** The counter that the store holds, as [exportPNG] reads it:
    [Number(localStorage.getItem('comicsCount') || '0')]. *)
Definition counter (w : World) : num :=
  match localStorage w !! "comicsCount" with
  | Some s => if (s =? "")%string then StringToNumber "0" else StringToNumber s
  | None => StringToNumber "0"
  end.

(** [f] holds of 0, 1, ..., [n - 1]. *)
Definition all_below (f : Z -> bool) (n : N) : bool :=
  fst (N.iter n (fun bi => (fst bi && f (snd bi), snd bi + 1)) (true, 0)).

(** A world whose store holds the counter [n], written in decimal. *)
Definition world_counting (n : Z) : World :=
  {| page := sample_page;
     selection := {| panelIdx := 0; elId := Null |};
     localStorage := {[ "comicsCount" := digits n ]};
     downloads := [];
     alerts := [] |}.

(** ** Notions used by the further properties *)

(** The randomness after [k] draws. *)
Fixpoint advance (k : nat) (r : randomness) : randomness :=
  match k with
  | O => r
  | S k' => advance k' (after_draw r)
  end.

(** How many ids the loader draws for an entry of [panels]: one when its
    [id] is falsy, and one for each entry of its [elements] array. *)
Definition panel_draws (item : value) : nat :=
  ((if ToBoolean (member item "id") then 0 else 1)
   + match member item "elements" with
     | Arr els => length els
     | _ => 0
     end)%nat.

(** The draws made for the entries before the [i]-th. *)
Definition draws_before (items : list value) (i : nat) : nat :=
  list_sum (map panel_draws (take i items)).

(** Whether two patches of a panel write the same property. *)
Definition same_property (a b : panel_patch) : bool :=
  match a, b with
  | patch_bg _, patch_bg _ | patch_elements _, patch_elements _ => true
  | _, _ => false
  end.

(** [n] successful exports in a row, each rendering [url] at time [now]. *)
Fixpoint exports (n : nat) (url : string) (now : num) (w : World) : World :=
  match n with
  | O => w
  | S n' => exports n' url now (exportPNG true (Some url) now w)
  end.

(** The texts of a counter that an export leaves as they are. *)
Definition stuck_counters : list string :=
  [ "NaN"; "Infinity"; "-Infinity"; "9007199254740992" ].

(** The controls of the Inspector that commit a number, and what they
    commit for an empty field. *)
Definition numeric (c : control) : bool :=
  match c with
  | Ctext | Ccolor | Cbg | Calign => false
  | _ => true
  end.

Definition fallback (c : control) : Z :=
  match c with Cweight => 600 | _ => 0 end.

(** An element as the editor itself writes it: every property is a number
    or a string. *)
Definition plain (o : obj) : bool :=
  forallb (fun kv => is_num (snd kv) || is_str (snd kv)) o.

Definition plain_page (p : Page) : bool :=
  forallb (fun pan => forallb plain (elements pan)) (panels p).

End Props.


(* ===================================================================== *)
(** * Facts about numbers *)
(* ===================================================================== *)

Import JSNum JSValue App Props.
Local Open Scope eff_scope.

Lemma SFcompare_antisym (x y : num) :
  SFcompare y x = option_map CompOpp (SFcompare x y).
Proof.
  destruct x as [sx|sx| |sx mx ex], y as [sy|sy| |sy my ey]; simpl;
    try reflexivity;
    try (destruct sx; reflexivity); try (destruct sy; reflexivity);
    try (destruct sx, sy; reflexivity).
  destruct sx, sy; simpl; try reflexivity;
    rewrite (Z.compare_antisym ex ey);
    destruct (ex ?= ey); simpl; try reflexivity;
    f_equal; rewrite ?CompOpp_involutive;
    [ symmetry; apply ZC4 | apply ZC4 ].
Qed.

Lemma SFcompare_refl (x : num) : is_nan x = false -> SFcompare x x = Some Eq.
Proof.
  destruct x as [s|s| |s m e]; simpl; intros H; try discriminate;
    try (destruct s; reflexivity).
  destruct s; rewrite Z.compare_refl;
    change (PosDef.Pos.compare_cont Eq m m) with (Pos.compare m m);
    rewrite Pos.compare_refl; reflexivity.
Qed.

Lemma SFcompare_some_not_nan (x y : num) c :
  SFcompare x y = Some c -> is_nan x = false /\ is_nan y = false.
Proof. destruct x, y; simpl; intros H; try discriminate; split; reflexivity. Qed.

Lemma SFcompare_none (x y : num) :
  SFcompare x y = None -> is_nan x = true \/ is_nan y = true.
Proof. destruct x, y; simpl; intros H; try discriminate; auto. Qed.

Lemma num_le_refl (x : num) : is_nan x = false -> le x x = true.
Proof. intros H. unfold le, SFleb. rewrite SFcompare_refl; auto. Qed.

Lemma le_not_nan (x y : num) : le x y = true -> is_nan x = false /\ is_nan y = false.
Proof.
  unfold le, SFleb. destruct (SFcompare x y) eqn:E; try discriminate.
  intros _. eapply SFcompare_some_not_nan; eauto.
Qed.

Lemma Math_min_nan_r (b : num) : Math_min b NaN = NaN.
Proof. destruct b; reflexivity. Qed.

Lemma Math_max_nan_r (a : num) : Math_max a NaN = NaN.
Proof. destruct a; reflexivity. Qed.

Lemma clampN_nan (a b v : num) : is_nan v = true -> clampN a b v = NaN.
Proof.
  destruct v; try discriminate. intros _. unfold clampN.
  rewrite Math_min_nan_r. apply Math_max_nan_r.
Qed.

(** What [Math.min(b, v)] is, with the comparison that chose it. *)
Lemma Math_min_cases (b v : num) :
  is_nan b = false -> is_nan v = false ->
  (Math_min b v = b /\ le b v = true) \/ (Math_min b v = v /\ le v b = true).
Proof.
  intros Hb Hv. unfold Math_min, le, SFleb.
  rewrite (SFcompare_antisym b v).
  destruct (SFcompare b v) as [[]|] eqn:E; simpl.
  - destruct b as [[]| | |]; simpl; auto.
  - auto.
  - auto.
  - apply SFcompare_none in E. destruct E; congruence.
Qed.

Lemma Math_max_cases (a v : num) :
  is_nan a = false -> is_nan v = false ->
  (Math_max a v = a /\ le v a = true) \/ (Math_max a v = v /\ le a v = true).
Proof.
  intros Ha Hv. unfold Math_max, le, SFleb.
  rewrite (SFcompare_antisym a v).
  destruct (SFcompare a v) as [[]|] eqn:E; simpl.
  - destruct a as [[]| | |]; simpl; auto.
  - auto.
  - auto.
  - apply SFcompare_none in E. destruct E; congruence.
Qed.

(** [Math.max(a, x)] is at least [a], unless it is NaN. *)
Lemma Math_max_floor (a x : num) :
  is_nan a = false -> is_nan x = false -> le a (Math_max a x) = true.
Proof.
  intros Ha Hx. destruct (Math_max_cases a x Ha Hx) as [[-> _]|[-> H]]; auto.
  apply num_le_refl; auto.
Qed.

Lemma Math_max_nan (a x : num) :
  is_nan (Math_max a x) = is_nan a || is_nan x.
Proof.
  unfold Math_max. destruct (SFcompare a x) as [c|] eqn:E.
  - destruct (SFcompare_some_not_nan _ _ _ E) as [Ha Hx]. rewrite Ha, Hx.
    destruct c; auto. destruct a as [[]| | |]; auto.
  - apply SFcompare_none in E. destruct E as [E|E]; rewrite E; simpl; auto.
    rewrite orb_true_r. reflexivity.
Qed.

Lemma clampN_range (a b v : num) :
  le a b = true -> is_nan v = false -> within a b (clampN a b v) = true.
Proof.
  intros Hab Hv. destruct (le_not_nan _ _ Hab) as [Ha Hb].
  unfold clampN, within.
  destruct (Math_min_cases b v Hb Hv) as [[-> _]|[-> Hvb]].
  - destruct (Math_max_cases a b Ha Hb) as [[-> _]|[-> _]].
    + rewrite num_le_refl, Hab; auto.
    + rewrite Hab, num_le_refl; auto.
  - destruct (Math_max_cases a v Ha Hv) as [[-> _]|[-> Hav]].
    + rewrite num_le_refl, Hab; auto.
    + rewrite Hav, Hvb; auto.
Qed.

Lemma Math_min_idem (b v : num) :
  is_nan b = false -> Math_min b (Math_min b v) = Math_min b v.
Proof.
  intros Hb. unfold Math_min at 2 3.
  destruct (SFcompare b v) as [[]|] eqn:E.
  - destruct b as [[]| | |] eqn:Eb; try discriminate;
      try (unfold Math_min; rewrite SFcompare_refl by auto; reflexivity).
    unfold Math_min. rewrite E. reflexivity.
  - unfold Math_min. rewrite SFcompare_refl by auto. destruct b as [[]| | |]; auto.
  - unfold Math_min. rewrite E. reflexivity.
  - apply Math_min_nan_r.
Qed.

Lemma clampN_idem (a b v : num) :
  SFcompare a b = Some Lt -> clampN a b (clampN a b v) = clampN a b v.
Proof.
  intros Hab. destruct (SFcompare_some_not_nan _ _ _ Hab) as [Ha Hb].
  unfold clampN. set (m := Math_min b v).
  assert (Hm : Math_min b m = m) by (apply Math_min_idem; auto).
  assert (Hba : Math_min b a = a).
  { unfold Math_min. rewrite (SFcompare_antisym a b), Hab. reflexivity. }
  assert (Haa : Math_max a a = a).
  { unfold Math_max. rewrite SFcompare_refl by auto.
    destruct a as [[]| | |]; reflexivity. }
  unfold Math_max at 2 3.
  destruct (SFcompare a m) as [c|] eqn:E.
  - assert (Hmax : Math_max a m = match c with
                                  | Eq => match a with S754_zero true => m | _ => a end
                                  | Lt => m | Gt => a end).
    { unfold Math_max. rewrite E. reflexivity. }
    destruct c.
    + destruct a as [[]| | |]; first [ rewrite Hm; exact Hmax | rewrite Hba; exact Haa ].
    + rewrite Hm. exact Hmax.
    + rewrite Hba. exact Haa.
  - rewrite Math_min_nan_r. apply Math_max_nan_r.
Qed.

(** ** Checks over a range of integers *)

Lemma all_below_spec (f : Z -> bool) (n : N) :
  all_below f n = true -> forall z, 0 <= z < Z.of_N n -> f z = true.
Proof.
  unfold all_below.
  set (step := fun bi : bool * Z => (fst bi && f (snd bi), snd bi + 1)).
  assert (H : snd (N.iter n step (true, 0)) = Z.of_N n
              /\ (fst (N.iter n step (true, 0)) = true ->
                  forall z, 0 <= z < Z.of_N n -> f z = true)).
  { induction n as [|n [IHi IHb]] using N.peano_ind.
    - simpl. split; [reflexivity | intros _ z Hz; lia].
    - rewrite N.iter_succ. unfold step at 1. cbn [fst snd].
      rewrite IHi. split; [lia|].
      intros Hb z Hz. apply andb_true_iff in Hb as [Hb Hf].
      rewrite IHi in Hf.
      destruct (Z.eq_dec z (Z.of_N n)) as [->|Hne]; [exact Hf|].
      apply IHb; [exact Hb | lia]. }
  intros Hb. apply H. exact Hb.
Qed.

(* ===================================================================== *)
(** * The language at work *)
(* ===================================================================== *)

(** What the conversions give on the inputs that matter below. *)

Example StringToNumber_samples :
  map StringToNumber [ ""; " 12 "; "0x1F"; "1e3"; "-0"; ".5"; "7." ]
  = [ of_Z 0; of_Z 12; of_Z 31; of_Z 1000; S754_zero true;
      S754_finite false 4503599627370496 (-53); of_Z 7 ]
  /\ map StringToNumber [ "abc"; "12px"; "."; "1e"; "0x"; "[object Object]"; "1,2" ]
     = [ NaN; NaN; NaN; NaN; NaN; NaN; NaN ]
  /\ StringToNumber "1e999" = Infinity
  /\ StringToNumber "0.1" = S754_finite false 7205759403792794 (-56).
Proof. vm_compute. repeat split; reflexivity. Qed.

Example NumberToString_samples :
  map NumberToString
      [ of_Z 0; of_Z 42; of_Z (-1); of_Z 10000; StringToNumber "0.1";
        StringToNumber "1.5"; StringToNumber "1e21"; StringToNumber "1e-7";
        StringToNumber "123456789012345680000"; StringToNumber "5e-324";
        add (StringToNumber "0.1") (StringToNumber "0.2");
        NaN; Infinity; S754_zero true ]
  = [ "0"; "42"; "-1"; "10000"; "0.1"; "1.5"; "1e+21"; "1e-7";
      "123456789012345680000"; "5e-324"; "0.30000000000000004";
      "NaN"; "Infinity"; "0" ].
Proof. vm_compute. reflexivity. Qed.

Example Math_samples :
  Math_max (of_Z 0) (S754_zero true) = of_Z 0
  /\ Math_min (of_Z 0) (S754_zero true) = S754_zero true
  /\ Math_max (of_Z 0) NaN = NaN
  /\ Math_min (of_Z 10000) Infinity = of_Z 10000
  /\ add (of_Z 9007199254740992) (of_Z 1) = of_Z 9007199254740992.
Proof. vm_compute. repeat split; reflexivity. Qed.

Example ToString_samples :
  ToString (Arr [lit 1; Null; Arr [Str "a"; lit 2]; Undefined]) = Ok "1,,a,2,"
  /\ ToString (Obj [("x", lit 1)]) = Ok "[object Object]"
  /\ ToString (Obj [("toString", lit 1)]) = Throw TypeError
  /\ ToNumber (Arr []) = Ok (of_Z 0)
  /\ ToNumber (Arr [Str "5"]) = Ok (of_Z 5)
  /\ ToNumber (Arr [lit 1; lit 2]) = Ok NaN
  /\ ToNumber (Obj []) = Ok NaN
  /\ ToNumber (Bool true) = Ok (of_Z 1).
Proof. vm_compute. repeat split; reflexivity. Qed.

Example plus_samples :
  plus (lit 1) (lit 2) = Ok (lit 3)
  /\ plus (Str "5") (lit 1) = Ok (Str "51")
  /\ plus Null (lit 1) = Ok (lit 1)
  /\ plus Undefined (lit 1) = Ok (Num NaN)
  /\ minus (Str "5") (lit 1) = Ok (lit 4).
Proof. vm_compute. repeat split; reflexivity. Qed.

Example key_in_samples :
  map (fun k => key_in k LAYOUT_keys)
      [ Str "4"; Str "2h"; lit 1; Arr [Str "2v"]; Str "3"; Undefined;
        Str "toString"; Str "constructor"; Obj [] ]
  = [ Ok true; Ok true; Ok true; Ok true; Ok false; Ok false;
      Ok true; Ok true; Ok false ].
Proof. vm_compute. reflexivity. Qed.

Example uid_sample :
  result_of uid (fun _ => "0.4fzyo82mvyr") = Some (Str "4fzyo82")
  /\ result_of uid (fun _ => "0") = Some (Str "").
Proof. split; reflexivity. Qed.

Example json_roundtrip_sample :
  json_roundtrip (Obj [ ("a", Num NaN); ("b", Undefined);
                        ("c", Arr [Undefined; Num (S754_zero true); lit 3]) ])
  = Obj [ ("a", Null); ("c", Arr [Null; lit 0; lit 3]) ].
Proof. reflexivity. Qed.

(* ===================================================================== *)
(** * Integers in binary64 *)
(* ===================================================================== *)

(** Sums and differences of integers below 2^53 are exact: the mantissas
    are aligned and added as integers, and rounding a value that fits in 53
    bits returns it. *)

Lemma Zpos_iter_xO (m k : positive) :
  Zpos (Pos.iter xO m k) = Zpos m * 2 ^ Zpos k.
Proof.
  induction k as [|k IH] using Pos.peano_ind.
  - simpl. lia.
  - rewrite Pos.iter_succ, Pos2Z.inj_xO, IH, Pos2Z.inj_succ, Z.pow_succ_r by lia.
    ring.
Qed.

Lemma digits2_iter_xO (m k : positive) :
  digits2_pos (Pos.iter xO m k) = (digits2_pos m + k)%positive.
Proof.
  induction k as [|k IH] using Pos.peano_ind.
  - simpl. lia.
  - rewrite Pos.iter_succ. simpl. rewrite IH. lia.
Qed.

Lemma shr_iter_xO (k m : positive) :
  SpecFloat.iter_pos shr_1 k
    {| shr_m := Zpos (Pos.iter xO m k); shr_r := false; shr_s := false |}
  = {| shr_m := Zpos m; shr_r := false; shr_s := false |}.
Proof.
  revert m. induction k as [k IH|k IH|]; intros m; simpl.
  - rewrite IH, IH. reflexivity.
  - rewrite IH, IH. reflexivity.
  - reflexivity.
Qed.

Lemma round_canonical (s : bool) (m : positive) (e : Z) :
  digits2_pos m = 53%positive -> -1074 <= e <= 971 ->
  binary_round_aux prec emax s (Zpos m) e loc_Exact = S754_finite s m e.
Proof.
  intros Hd He.
  unfold binary_round_aux, shr_fexp, fexp, emin, prec, emax. simpl Zdigits2.
  rewrite Hd.
  replace (Z.max (53 + e - 53) (3 - 1024 - 53) - e) with 0 by lia.
  simpl. rewrite Hd.
  replace (Z.max (53 + e - 53) (3 - 1024 - 53) - e) with 0 by lia.
  simpl. 
  change (1024 - 53) with 971.
  destruct (e <=? 971) eqn:E; [reflexivity | lia].
Qed.

(** [binary_round] gives the canonical mantissa and exponent of the value
    it is given. *)
Lemma binary_round_value (s : bool) (M m0 : positive) (e e0 : Z) :
  digits2_pos m0 = 53%positive -> -1074 <= e0 <= 971 -> -1074 <= e ->
  Zpos M * 2 ^ (e + 1074) = Zpos m0 * 2 ^ (e0 + 1074) ->
  binary_round prec emax s M e = S754_finite s m0 e0.
Proof.
  intros Hd He0 He Hv.
  assert (Hpow : forall x, 0 <= x -> 0 < 2 ^ x) by (intros; apply Z.pow_pos_nonneg; lia).
  unfold binary_round.
  destruct (Z.compare_spec e e0) as [Heq|Hlt|Hgt].
  - subst e0. apply Z.mul_reg_r in Hv; [|specialize (Hpow (e + 1074)); lia].
    injection Hv as ->.
    unfold fexp, emin, prec, emax. rewrite Hd.
    replace (Z.max (53 + e - 53) (3 - 1024 - 53)) with e by lia.
    unfold shl_align. rewrite Z.sub_diag.
    apply round_canonical; assumption.
  - (* the mantissa has too many bits: they are shifted out, all zero *)
    assert (Hk : exists k, e0 - e = Zpos k) by (destruct (e0 - e) eqn:E; try lia; eauto).
    destruct Hk as [k Hk].
    assert (HM : M = Pos.iter xO m0 k).
    { apply Pos2Z.inj. rewrite Zpos_iter_xO, <- Hk.
      replace (e0 + 1074) with ((e0 - e) + (e + 1074)) in Hv by lia.
      rewrite (Z.pow_add_r 2 (e0 - e) (e + 1074)), Z.mul_assoc in Hv by lia.
      apply Z.mul_reg_r in Hv; [exact Hv|].
      specialize (Hpow (e + 1074)); lia. }
    subst M. rewrite digits2_iter_xO, Hd.
    unfold fexp, emin, prec, emax.
    replace (Z.max (Zpos (53 + k) + e - 53) (3 - 1024 - 53)) with e0 by lia.
    unfold shl_align. rewrite Hk.
    unfold binary_round_aux, shr_fexp, fexp, emin, prec, emax. simpl Zdigits2.
    rewrite digits2_iter_xO, Hd.
    replace (Z.max (Zpos (53 + k) + e - 53) (3 - 1024 - 53) - e) with (Zpos k) by lia.
    unfold shr. cbn [shr_record_of_loc]. rewrite shr_iter_xO.
    cbn [loc_of_shr_record shr_m round_nearest_even Zdigits2].
    rewrite Hd.
    replace (Z.max (53 + (e + Zpos k) - 53) (3 - 1024 - 53) - (e + Zpos k)) with 0 by lia.
    cbn [shr_record_of_loc shr_m].
    replace (e + Zpos k) with e0 by lia.
    change (1024 - 53) with 971.
    destruct (e0 <=? 971) eqn:E; [reflexivity | lia].
  - (* the mantissa has too few bits: it is shifted left *)
    assert (Hk : exists k, e0 - e = Zneg k) by (destruct (e0 - e) eqn:E; try lia; eauto).
    destruct Hk as [k Hk].
    assert (Hm0 : m0 = Pos.iter xO M k).
    { apply Pos2Z.inj. rewrite Zpos_iter_xO.
      replace (Zpos k) with (e - e0) by lia.
      replace (e + 1074) with ((e - e0) + (e0 + 1074)) in Hv by lia.
      rewrite (Z.pow_add_r 2 (e - e0) (e0 + 1074)), Z.mul_assoc in Hv by lia.
      apply Z.mul_reg_r in Hv; [symmetry; exact Hv|].
      specialize (Hpow (e0 + 1074)); lia. }
    assert (HdM : (digits2_pos M + k = 53)%positive)
      by (rewrite <- digits2_iter_xO, <- Hm0; exact Hd).
    unfold fexp, emin, prec, emax.
    replace (Z.max (Zpos (digits2_pos M) + e - 53) (3 - 1024 - 53)) with e0 by lia.
    unfold shl_align. rewrite Hk, <- Hm0.
    apply round_canonical; assumption.
Qed.

Lemma digits2_pos_size (p : positive) : digits2_pos p = Pos.size p.
Proof. induction p; simpl; congruence. Qed.

Lemma digits2_pos_bound (p : positive) :
  Zpos p < 2 ^ 53 -> (digits2_pos p <= 53)%positive.
Proof.
  intros Hp. rewrite digits2_pos_size.
  destruct (Pos.leb_spec (Pos.size p) 53) as [H|H]; [exact H|exfalso].
  pose proof (Pos.size_le p) as Hs.
  apply Pos2Z.pos_le_pos in Hs. rewrite Pos2Z.inj_pow in Hs.
  assert (H54 : 2 ^ 54 <= 2 ^ Zpos (Pos.size p))
    by (apply Z.pow_le_mono_r; lia).
  change (2 ^ 53) with 9007199254740992 in Hp.
  change (2 ^ 54) with 18014398509481984 in H54. lia.
Qed.

(** A mantissa of 53 bits and an exponent for the positive integer [p]. *)
Lemma canonical_exists (p : positive) :
  Zpos p < 2 ^ 53 ->
  exists m0 e0,
    digits2_pos m0 = 53%positive /\ -52 <= e0 <= 0
    /\ Zpos m0 * 2 ^ (e0 + 1074) = Zpos p * 2 ^ 1074.
Proof.
  intros Hp. pose proof (digits2_pos_bound p Hp) as Hd.
  destruct (Pos.eq_dec (digits2_pos p) 53%positive) as [E|E].
  - exists p, 0. split; [exact E|]. split; [lia|]. reflexivity.
  - assert (Hk : exists k, (digits2_pos p + k = 53)%positive)
      by (exists (53 - digits2_pos p)%positive; lia).
    destruct Hk as [k Hk].
    exists (Pos.iter xO p k), (- Zpos k).
    split; [rewrite digits2_iter_xO; exact Hk|]. split; [lia|].
    rewrite Zpos_iter_xO, <- Z.mul_assoc.
    rewrite <- (Z.pow_add_r 2 (Zpos k) (- Zpos k + 1074)) by lia.
    f_equal. f_equal. lia.
Qed.

Lemma of_Z_canonical (p m0 : positive) (e0 : Z) :
  digits2_pos m0 = 53%positive -> -52 <= e0 <= 0 ->
  Zpos m0 * 2 ^ (e0 + 1074) = Zpos p * 2 ^ 1074 ->
  of_Z (Zpos p) = S754_finite false m0 e0.
Proof.
  intros Hd He Hv. unfold of_Z, binary_normalize.
  apply binary_round_value;
    first [ assumption | lia | (symmetry; exact Hv) ].
Qed.

Lemma shl_align_value (m : positive) (e e' : Z) :
  e' <= e -> Zpos (fst (shl_align m e e')) = Zpos m * 2 ^ (e - e').
Proof.
  intros H. unfold shl_align. destruct (e' - e) as [|d|d] eqn:E; try lia.
  - replace (e - e') with 0 by lia. simpl. lia.
  - simpl. rewrite Zpos_iter_xO. f_equal. f_equal. lia.
Qed.

(** The sum of two positive integers is exact as long as it stays below
    2^53. *)
Lemma add_exact (a b : positive) :
  Zpos a + Zpos b < 2 ^ 53 ->
  add (of_Z (Zpos a)) (of_Z (Zpos b)) = of_Z (Zpos a + Zpos b).
Proof.
  intros Hc.
  destruct (canonical_exists a) as (ma & ea & Hda & Hea & Hva); [lia|].
  destruct (canonical_exists b) as (mb & eb & Hdb & Heb & Hvb); [lia|].
  destruct (canonical_exists (a + b)) as (mc & ec & Hdc & Hec & Hvc); [lia|].
  rewrite (of_Z_canonical a ma ea), (of_Z_canonical b mb eb) by assumption.
  change (Zpos a + Zpos b) with (Zpos (a + b)).
  rewrite (of_Z_canonical (a + b) mc ec) by assumption.
  unfold add, SFadd. cbn [cond_Zopp].
  set (ez := Z.min ea eb).
  change (Zpos (fst (shl_align ma ea ez)) + Zpos (fst (shl_align mb eb ez)))
    with (Zpos (fst (shl_align ma ea ez) + fst (shl_align mb eb ez))).
  unfold binary_normalize.
  apply binary_round_value; try assumption; try lia.
  rewrite Pos2Z.inj_add, !shl_align_value by lia.
  rewrite Z.mul_add_distr_r, <- !Z.mul_assoc.
  rewrite <- !Z.pow_add_r by lia.
  replace (ea - ez + (ez + 1074)) with (ea + 1074) by lia.
  replace (eb - ez + (ez + 1074)) with (eb + 1074) by lia.
  rewrite Hva, Hvb, Hvc. rewrite Pos2Z.inj_add. ring.
Qed.

(** The difference of two positive integers below 2^53 is exact. *)
Lemma sub_exact (a b : positive) :
  Zpos a < 2 ^ 53 -> Zpos b < Zpos a ->
  sub (of_Z (Zpos a)) (of_Z (Zpos b)) = of_Z (Zpos a - Zpos b).
Proof.
  intros Ha Hb.
  destruct (canonical_exists a) as (ma & ea & Hda & Hea & Hva); [lia|].
  destruct (canonical_exists b) as (mb & eb & Hdb & Heb & Hvb); [lia|].
  destruct (canonical_exists (a - b)) as (mc & ec & Hdc & Hec & Hvc); [lia|].
  rewrite (of_Z_canonical a ma ea), (of_Z_canonical b mb eb) by assumption.
  replace (Zpos a - Zpos b) with (Zpos (a - b)) by lia.
  rewrite (of_Z_canonical (a - b) mc ec) by assumption.
  unfold sub, SFsub. cbn [cond_Zopp].
  set (ez := Z.min ea eb).
  set (Ma := fst (shl_align ma ea ez)). set (Mb := fst (shl_align mb eb ez)).
  assert (HMa : Zpos Ma * 2 ^ (ez + 1074) = Zpos a * 2 ^ 1074).
  { subst Ma. rewrite shl_align_value, <- Z.mul_assoc, <- Z.pow_add_r by lia.
    replace (ea - ez + (ez + 1074)) with (ea + 1074) by lia. exact Hva. }
  assert (HMb : Zpos Mb * 2 ^ (ez + 1074) = Zpos b * 2 ^ 1074).
  { subst Mb. rewrite shl_align_value, <- Z.mul_assoc, <- Z.pow_add_r by lia.
    replace (eb - ez + (ez + 1074)) with (eb + 1074) by lia. exact Hvb. }
  assert (Hpow : 0 < 2 ^ (ez + 1074)) by (apply Z.pow_pos_nonneg; lia).
  assert (Hpow' : 0 < 2 ^ 1074) by (apply Z.pow_pos_nonneg; lia).
  assert (Hlt : Zpos Mb < Zpos Ma) by nia.
  replace (Zpos Ma - Zpos Mb) with (Zpos (Ma - Mb)) by lia.
  unfold binary_normalize.
  apply binary_round_value; try assumption; try lia.
  rewrite Hvc.
  replace (Zpos (Ma - Mb)) with (Zpos Ma - Zpos Mb) by lia.
  replace (Zpos (a - b)) with (Zpos a - Zpos b) by lia.
  rewrite !Z.mul_sub_distr_r, HMa, HMb. reflexivity.
Qed.

Lemma add_one_exact (z : Z) :
  0 <= z -> z + 1 < 2 ^ 53 -> add (of_Z z) (of_Z 1) = of_Z (z + 1).
Proof.
  intros Hz Hlt. destruct z as [|a|a]; try lia.
  - reflexivity.
  - apply (add_exact a 1). exact Hlt.
Qed.

Lemma sub_one_floor (z : Z) :
  0 <= z < 2 ^ 53 ->
  Math_max (of_Z 0) (sub (of_Z z) (of_Z 1)) = of_Z (Z.max 0 (z - 1)).
Proof.
  intros [Hz Hlt]. destruct z as [|a|a]; try lia.
  - reflexivity.
  - destruct (Pos.eq_dec a 1%positive) as [->|Hne]; [reflexivity|].
    rewrite (sub_exact a 1) by lia.
    replace (Z.max 0 (Zpos a - 1)) with (Zpos a - 1) by lia.
    destruct (canonical_exists (a - 1)) as (mc & ec & Hdc & Hec & Hvc); [lia|].
    replace (Zpos a - 1) with (Zpos (a - 1)) by lia.
    rewrite (of_Z_canonical (a - 1) mc ec) by assumption.
    reflexivity.
Qed.

(** ** Signed integers *)

(** The sign, mantissa and exponent of a nonzero integer below 2^53. *)
Lemma of_Z_finite (z : Z) :
  z <> 0 -> Z.abs z < 2 ^ 53 ->
  exists m0 e0,
    of_Z z = S754_finite (z <? 0) m0 e0
    /\ digits2_pos m0 = 53%positive /\ -52 <= e0 <= 0
    /\ Zpos m0 * 2 ^ (e0 + 1074) = Z.abs z * 2 ^ 1074.
Proof.
  intros Hz Hlt. destruct z as [|p|p]; [congruence| |].
  - destruct (canonical_exists p Hlt) as (m0 & e0 & Hd & He & Hv).
    exists m0, e0. split; [apply of_Z_canonical; assumption | auto].
  - destruct (canonical_exists p Hlt) as (m0 & e0 & Hd & He & Hv).
    exists m0, e0. split; [|auto].
    unfold of_Z, binary_normalize.
    apply binary_round_value;
      first [ assumption | lia | (symmetry; exact Hv) ].
Qed.

(** Rounding a mantissa and an exponent that stand for the integer [c]. *)
Lemma binary_normalize_integer (S c e : Z) :
  -1074 <= e -> Z.abs c < 2 ^ 53 ->
  S * 2 ^ (e + 1074) = c * 2 ^ 1074 ->
  binary_normalize prec emax S e false = of_Z c.
Proof.
  intros He Hc Hv.
  assert (Hpow : 0 < 2 ^ (e + 1074)) by (apply Z.pow_pos_nonneg; lia).
  assert (Hpow' : 0 < 2 ^ 1074) by (apply Z.pow_pos_nonneg; lia).
  destruct S as [|q|q].
  - assert (c = 0) by nia. subst c. reflexivity.
  - assert (Hcpos : 0 < c) by nia.
    destruct (of_Z_finite c) as (m0 & e0 & -> & Hd & He0 & Hv0); [lia|lia|].
    replace (c <? 0) with false by (symmetry; apply Z.ltb_ge; lia).
    unfold binary_normalize.
    apply binary_round_value; [assumption | lia | lia |].
    rewrite Hv0, Hv. f_equal. lia.
  - assert (Hcneg : c < 0) by nia.
    destruct (of_Z_finite c) as (m0 & e0 & -> & Hd & He0 & Hv0); [lia|lia|].
    replace (c <? 0) with true by (symmetry; apply Z.ltb_lt; lia).
    unfold binary_normalize.
    apply binary_round_value; [assumption | lia | lia |].
    rewrite Hv0. replace (Z.abs c) with (- c) by lia.
    rewrite Z.mul_opp_l, <- Hv. lia.
Qed.

Lemma of_Z_opp (z : Z) :
  z <> 0 -> Z.abs z < 2 ^ 53 -> of_Z (- z) = SFopp (of_Z z).
Proof.
  intros Hz0 Hz. destruct z as [|p|p]; [congruence| |];
    destruct (canonical_exists p Hz) as (m0 & e0 & Hd & He & Hv);
    [ change (- Zpos p) with (Zneg p) | change (- Zneg p) with (Zpos p) ];
    unfold of_Z, binary_normalize;
    rewrite !(binary_round_value _ p m0 0 e0)
      by first [ assumption | lia | (symmetry; exact Hv) ];
    reflexivity.
Qed.

Lemma aligned_value (z : Z) (m0 : positive) (e0 ez : Z) :
  z <> 0 -> -52 <= e0 <= 0 -> -52 <= ez <= e0 ->
  Zpos m0 * 2 ^ (e0 + 1074) = Z.abs z * 2 ^ 1074 ->
  cond_Zopp (z <? 0) (Zpos (fst (shl_align m0 e0 ez))) * 2 ^ (ez + 1074)
  = z * 2 ^ 1074.
Proof.
  intros Hz He0 Hez Hv.
  assert (H : Zpos (fst (shl_align m0 e0 ez)) * 2 ^ (ez + 1074)
              = Z.abs z * 2 ^ 1074).
  { rewrite shl_align_value, <- Z.mul_assoc, <- Z.pow_add_r by lia.
    replace (e0 - ez + (ez + 1074)) with (e0 + 1074) by lia. exact Hv. }
  destruct (z <? 0) eqn:E; unfold cond_Zopp.
  - apply Z.ltb_lt in E. rewrite Z.mul_opp_l, H. lia.
  - apply Z.ltb_ge in E. rewrite H. f_equal. lia.
Qed.

(** Sums and differences of integers are exact while everything stays
    below 2^53. *)
Lemma add_int_exact (a b : Z) :
  Z.abs a < 2 ^ 53 -> Z.abs b < 2 ^ 53 -> Z.abs (a + b) < 2 ^ 53 ->
  add (of_Z a) (of_Z b) = of_Z (a + b).
Proof.
  intros Ha Hb Hc.
  destruct (Z.eq_dec b 0) as [->|Hb0].
  { rewrite Z.add_0_r. destruct (Z.eq_dec a 0) as [->|Ha0]; [reflexivity|].
    destruct (of_Z_finite a Ha0 Ha) as (m & e & -> & _). reflexivity. }
  destruct (Z.eq_dec a 0) as [->|Ha0].
  { change (0 + b) with b.
    destruct (of_Z_finite b Hb0 Hb) as (m & e & -> & _). reflexivity. }
  destruct (of_Z_finite a Ha0 Ha) as (ma & ea & -> & Hda & Hea & Hva).
  destruct (of_Z_finite b Hb0 Hb) as (mb & eb & -> & Hdb & Heb & Hvb).
  unfold add, SFadd. set (ez := Z.min ea eb).
  apply binary_normalize_integer; [lia | exact Hc |].
  rewrite Z.mul_add_distr_r.
  rewrite (aligned_value a), (aligned_value b) by (assumption || lia).
  ring.
Qed.

Lemma sub_int_exact (a b : Z) :
  Z.abs a < 2 ^ 53 -> Z.abs b < 2 ^ 53 -> Z.abs (a - b) < 2 ^ 53 ->
  sub (of_Z a) (of_Z b) = of_Z (a - b).
Proof.
  intros Ha Hb Hc.
  destruct (Z.eq_dec b 0) as [->|Hb0].
  { rewrite Z.sub_0_r. destruct (Z.eq_dec a 0) as [->|Ha0]; [reflexivity|].
    destruct (of_Z_finite a Ha0 Ha) as (m & e & -> & _). reflexivity. }
  destruct (Z.eq_dec a 0) as [->|Ha0].
  { change (0 - b) with (- b). rewrite of_Z_opp by assumption.
    destruct (of_Z_finite b Hb0 Hb) as (mb & eb & -> & _). reflexivity. }
  destruct (of_Z_finite a Ha0 Ha) as (ma & ea & -> & Hda & Hea & Hva).
  destruct (of_Z_finite b Hb0 Hb) as (mb & eb & -> & Hdb & Heb & Hvb).
  unfold sub, SFsub. set (ez := Z.min ea eb).
  apply binary_normalize_integer; [lia | exact Hc |].
  rewrite Z.mul_sub_distr_r.
  rewrite (aligned_value a), (aligned_value b) by (assumption || lia).
  ring.
Qed.

(** ** Order *)

Lemma mantissa_bounds (m : positive) :
  digits2_pos m = 53%positive -> 2 ^ 52 <= Zpos m < 2 ^ 53.
Proof.
  rewrite digits2_pos_size. intros Hs.
  pose proof (Pos.size_gt m) as Hgt. pose proof (Pos.size_le m) as Hle.
  rewrite Hs in Hgt, Hle.
  apply Pos2Z.pos_lt_pos in Hgt. apply Pos2Z.pos_le_pos in Hle.
  rewrite Pos2Z.inj_pow in Hgt, Hle.
  change (Z.pos 2 ^ Z.pos 53) with (2 ^ 53) in *.
  change (2 ^ 53) with 9007199254740992 in *.
  change (2 ^ 52) with 4503599627370496. lia.
Qed.

(** Canonical mantissas and exponents are ordered as the values are. *)
Lemma canonical_compare (A B : Z) (ma mb : positive) (ea eb : Z) :
  digits2_pos ma = 53%positive -> digits2_pos mb = 53%positive ->
  -52 <= ea <= 0 -> -52 <= eb <= 0 ->
  Zpos ma * 2 ^ (ea + 1074) = A * 2 ^ 1074 ->
  Zpos mb * 2 ^ (eb + 1074) = B * 2 ^ 1074 ->
  match ea ?= eb with
  | Lt => Lt
  | Gt => Gt
  | Eq => Pos.compare_cont Eq ma mb
  end = (A ?= B).
Proof.
  intros Hda Hdb Hea Heb Hva Hvb.
  pose proof (mantissa_bounds ma Hda) as Hma.
  pose proof (mantissa_bounds mb Hdb) as Hmb.
  assert (HP : 0 < 2 ^ 1074) by (apply Z.pow_pos_nonneg; lia).
  change (2 ^ 52) with 4503599627370496 in *.
  change (2 ^ 53) with 9007199254740992 in *.
  symmetry.
  destruct (Z.compare_spec ea eb) as [Heq|Hlt|Hgt].
  - subst eb.
    assert (HX : 0 < 2 ^ (ea + 1074)) by (apply Z.pow_pos_nonneg; lia).
    change (Pos.compare_cont Eq ma mb) with (Zpos ma ?= Zpos mb).
    destruct (Z.compare_spec (Zpos ma) (Zpos mb)) as [H|H|H].
    + apply Z.compare_eq_iff. rewrite H in Hva. nia.
    + apply Z.compare_lt_iff. nia.
    + apply Z.compare_gt_iff. nia.
  - apply Z.compare_lt_iff.
    assert (HX : 0 < 2 ^ (ea + 1074)) by (apply Z.pow_pos_nonneg; lia).
    assert (HY : 2 ^ (eb + 1074) = 2 ^ (eb - ea - 1) * (2 * 2 ^ (ea + 1074))).
    { rewrite <- Z.pow_succ_r, <- Z.pow_add_r by lia. f_equal. lia. }
    assert (HZ : 0 < 2 ^ (eb - ea - 1)) by (apply Z.pow_pos_nonneg; lia).
    rewrite HY in Hvb. nia.
  - apply Z.compare_gt_iff.
    assert (HX : 0 < 2 ^ (eb + 1074)) by (apply Z.pow_pos_nonneg; lia).
    assert (HY : 2 ^ (ea + 1074) = 2 ^ (ea - eb - 1) * (2 * 2 ^ (eb + 1074))).
    { rewrite <- Z.pow_succ_r, <- Z.pow_add_r by lia. f_equal. lia. }
    assert (HZ : 0 < 2 ^ (ea - eb - 1)) by (apply Z.pow_pos_nonneg; lia).
    rewrite HY in Hva. nia.
Qed.

Lemma compare_of_Z (a b : Z) :
  Z.abs a < 2 ^ 53 -> Z.abs b < 2 ^ 53 ->
  SFcompare (of_Z a) (of_Z b) = Some (a ?= b).
Proof.
  intros Ha Hb.
  destruct (Z.eq_dec a 0) as [->|Ha0]; destruct (Z.eq_dec b 0) as [->|Hb0].
  - reflexivity.
  - destruct (of_Z_finite b Hb0 Hb) as (mb & eb & -> & _).
    cbn [of_Z binary_normalize SFcompare].
    destruct (Z.ltb_spec b 0); f_equal; symmetry;
      [apply Z.compare_gt_iff | apply Z.compare_lt_iff]; lia.
  - destruct (of_Z_finite a Ha0 Ha) as (ma & ea & -> & _).
    cbn [of_Z binary_normalize SFcompare].
    destruct (Z.ltb_spec a 0); f_equal; symmetry;
      [apply Z.compare_lt_iff | apply Z.compare_gt_iff]; lia.
  - destruct (of_Z_finite a Ha0 Ha) as (ma & ea & -> & Hda & Hea & Hva).
    destruct (of_Z_finite b Hb0 Hb) as (mb & eb & -> & Hdb & Heb & Hvb).
    cbn [SFcompare].
    destruct (Z.ltb_spec a 0) as [Han|Hap]; destruct (Z.ltb_spec b 0) as [Hbn|Hbp];
      f_equal.
    + (* both negative: the order of the absolute values, reversed *)
      pose proof (canonical_compare _ _ _ _ _ _ Hda Hdb Hea Heb Hva Hvb) as Hc.
      clear Hva Hvb Ha Hb.
      destruct (ea ?= eb) eqn:Ee; cbv beta iota in Hc; rewrite ?Hc; cbn [CompOpp].
      * destruct (Z.compare_spec (Z.abs a) (Z.abs b)); cbn [CompOpp]; symmetry;
          [apply Z.compare_eq_iff | apply Z.compare_gt_iff | apply Z.compare_lt_iff]; lia.
      * symmetry in Hc. rewrite Z.compare_lt_iff in Hc.
        symmetry. apply Z.compare_gt_iff. lia.
      * symmetry in Hc. rewrite Z.compare_gt_iff in Hc.
        symmetry. apply Z.compare_lt_iff. lia.
    + symmetry. apply Z.compare_lt_iff. lia.
    + symmetry. apply Z.compare_gt_iff. lia.
    + pose proof (canonical_compare _ _ _ _ _ _ Hda Hdb Hea Heb Hva Hvb) as Hc.
      rewrite Hc. rewrite !Z.abs_eq by lia. reflexivity.
Qed.

Lemma of_Z_not_nan (z : Z) : Z.abs z < 2 ^ 53 -> is_nan (of_Z z) = false.
Proof.
  intros Hz. destruct (Z.eq_dec z 0) as [->|Hz0]; [reflexivity|].
  destruct (of_Z_finite z Hz0 Hz) as (m & e & -> & _). reflexivity.
Qed.

Lemma Math_max_of_Z (a b : Z) :
  Z.abs a < 2 ^ 53 -> Z.abs b < 2 ^ 53 ->
  Math_max (of_Z a) (of_Z b) = of_Z (Z.max a b).
Proof.
  intros Ha Hb. unfold Math_max, Z.max. rewrite compare_of_Z by assumption.
  destruct (Z.compare_spec a b) as [->|H|H]; try reflexivity.
  destruct (Z.eq_dec b 0) as [->|Hb0]; [reflexivity|].
  destruct (of_Z_finite b Hb0 Hb) as (m & e & -> & _). reflexivity.
Qed.

Lemma Math_min_of_Z (a b : Z) :
  Z.abs a < 2 ^ 53 -> Z.abs b < 2 ^ 53 ->
  Math_min (of_Z a) (of_Z b) = of_Z (Z.min a b).
Proof.
  intros Ha Hb. unfold Math_min, Z.min. rewrite compare_of_Z by assumption.
  destruct (Z.compare_spec a b) as [->|H|H]; try reflexivity.
  destruct (Z.eq_dec b 0) as [->|Hb0]; [reflexivity|].
  destruct (of_Z_finite b Hb0 Hb) as (m & e & -> & _). reflexivity.
Qed.

(** [clamp] on integers is the clamp of the integers. *)
Lemma clampN_of_Z (a b v : Z) :
  Z.abs a < 2 ^ 53 -> Z.abs b < 2 ^ 53 -> Z.abs v < 2 ^ 53 ->
  clampN (of_Z a) (of_Z b) (of_Z v) = of_Z (Z.max a (Z.min b v)).
Proof.
  intros Ha Hb Hv. unfold clampN.
  rewrite Math_min_of_Z, Math_max_of_Z by lia. reflexivity.
Qed.

(** ** Where NaN can come from

    Rounding a nonnegative mantissa never gives NaN, so a sum or a
    difference is NaN only when an operand is, or when two infinities
    cancel. *)

Lemma shr_1_nonneg (mrs : shr_record) :
  0 <= shr_m mrs -> 0 <= shr_m (shr_1 mrs).
Proof. destruct mrs as [[|[p|p|]|p] r s]; simpl; lia. Qed.

Lemma iter_shr_1_nonneg (p : positive) (mrs : shr_record) :
  0 <= shr_m mrs -> 0 <= shr_m (SpecFloat.iter_pos shr_1 p mrs).
Proof.
  revert mrs. induction p as [p IH|p IH|]; intros mrs H; simpl.
  - apply IH, IH, shr_1_nonneg, H.
  - apply IH, IH, H.
  - apply shr_1_nonneg, H.
Qed.

Lemma shr_fexp_nonneg (m e : Z) (l : location) :
  0 <= m -> 0 <= shr_m (fst (shr_fexp prec emax m e l)).
Proof.
  intros H. unfold shr_fexp, shr.
  assert (H0 : 0 <= shr_m (shr_record_of_loc m l)).
  { destruct l as [|[]]; exact H. }
  destruct (fexp prec emax (Zdigits2 m + e) - e); simpl;
    [exact H0 | apply iter_shr_1_nonneg, H0 | exact H0].
Qed.

Lemma round_nearest_even_nonneg (m : Z) (l : location) :
  0 <= m -> 0 <= round_nearest_even m l.
Proof.
  intros H. unfold round_nearest_even.
  destruct l as [|[]]; try destruct (Z.even m); lia.
Qed.

Lemma binary_round_aux_not_nan (sx : bool) (mx ex : Z) (lx : location) :
  0 <= mx -> is_nan (binary_round_aux prec emax sx mx ex lx) = false.
Proof.
  intros H. unfold binary_round_aux.
  pose proof (shr_fexp_nonneg mx ex lx H) as H1.
  destruct (shr_fexp prec emax mx ex lx) as [mrs1 e1]. simpl in H1.
  pose proof (shr_fexp_nonneg _ e1 loc_Exact
                (round_nearest_even_nonneg _ (loc_of_shr_record mrs1) H1)) as H2.
  destruct (shr_fexp prec emax _ e1 loc_Exact) as [mrs2 e2]. simpl in H2.
  destruct (shr_m mrs2); [reflexivity | | lia].
  destruct (e2 <=? emax - prec); reflexivity.
Qed.

Lemma binary_normalize_not_nan (m e : Z) (sz : bool) :
  is_nan (binary_normalize prec emax m e sz) = false.
Proof.
  destruct m as [|p|p]; [reflexivity| |]; simpl; unfold binary_round;
    destruct (shl_align p e _) as [mz ez];
    apply binary_round_aux_not_nan; lia.
Qed.

Lemma add_finite (x y : num) :
  finite x = true -> is_nan y = false -> is_nan (add x y) = false.
Proof.
  destruct x as [sx| | |sx mx ex]; try discriminate; intros _;
    destruct y as [sy|sy| |sy my ey]; try discriminate; intros _;
    try reflexivity.
  - destruct sx, sy; reflexivity.
  - apply binary_normalize_not_nan.
Qed.

Lemma sub_finite (x y : num) :
  finite x = true -> is_nan y = false -> is_nan (sub x y) = false.
Proof.
  destruct x as [sx| | |sx mx ex]; try discriminate; intros _;
    destruct y as [sy|sy| |sy my ey]; try discriminate; intros _;
    try reflexivity.
  - destruct sx, sy; reflexivity.
  - apply binary_normalize_not_nan.
Qed.

Lemma sub_of_finite (x y : num) :
  is_nan x = false -> finite y = true -> is_nan (sub x y) = false.
Proof.
  destruct y as [sy| | |sy my ey]; try discriminate; intros Hx _;
    destruct x as [sx|sx| |sx mx ex]; try discriminate;
    try reflexivity.
  - destruct sx, sy; reflexivity.
  - apply binary_normalize_not_nan.
Qed.

Lemma add_of_finite (x y : num) :
  is_nan x = false -> finite y = true -> is_nan (add x y) = false.
Proof.
  destruct y as [sy| | |sy my ey]; try discriminate; intros Hx _;
    destruct x as [sx|sx| |sx mx ex]; try discriminate;
    try reflexivity.
  - destruct sx, sy; reflexivity.
  - apply binary_normalize_not_nan.
Qed.

(* ===================================================================== *)
(** * Integers in decimal *)
(* ===================================================================== *)

(** [String(n)] of an integer below 2^53 is its decimal writing, and
    [Number] of that writing is the integer.  The first is through the
    search for the shortest decimal that reads back: for an integer it
    stops at the integer stripped of its trailing zeros. *)

(** ** The magnitude *)

Lemma magnitude_test (P d lo : Z) :
  0 < P -> 0 < d ->
  (let '(n, d') := scale10 (P * d, d) (- lo) in n <? d') = (P <? 10 ^ lo).
Proof.
  intros HP Hd. destruct lo as [|k|k]; unfold scale10.
  - change (- 0) with 0. cbv beta iota. rewrite !Z.pow_0_r.
    destruct (Z.ltb_spec (P * d * 1) d), (Z.ltb_spec P 1); try reflexivity; nia.
  - change (- Zpos k) with (Zneg k). cbv beta iota. rewrite Pos2Z.inj_pow.
    assert (H10 : 0 < 10 ^ Zpos k) by (apply Z.pow_pos_nonneg; lia).
    destruct (Z.ltb_spec (P * d) (d * 10 ^ Zpos k)),
             (Z.ltb_spec P (10 ^ Zpos k)); try reflexivity; nia.
  - change (- Zneg k) with (Zpos k). cbv beta iota.
    assert (H10 : 0 < 10 ^ Zpos k) by (apply Z.pow_pos_nonneg; lia).
    rewrite (Z.pow_neg_r 10 (Zneg k)) by lia.
    assert (H1 : 1 <= P * 10 ^ Zpos k) by nia.
    replace (P * d * 10 ^ Zpos k) with (d * (P * 10 ^ Zpos k)) by ring.
    destruct (Z.ltb_spec (d * (P * 10 ^ Zpos k)) d), (Z.ltb_spec P 0);
      try reflexivity; nia.
Qed.

(** Started at or below the number of digits, and with fuel to reach it,
    the search returns the number of digits. *)
Lemma magnitude10_spec (P d : Z) (fuel : nat) (lo : Z) :
  0 < P -> 0 < d ->
  P < 10 ^ (lo + Z.of_nat fuel - 1) -> 10 ^ (lo - 1) <= P ->
  10 ^ (magnitude10 fuel (P * d, d) lo - 1) <= P
  < 10 ^ magnitude10 fuel (P * d, d) lo.
Proof.
  intros HP Hd. revert lo. induction fuel as [|fuel IH]; intros lo Hhi Hlo.
  - exfalso. replace (lo + Z.of_nat 0 - 1) with (lo - 1) in Hhi by lia. lia.
  - cbn [magnitude10].
    pose proof (magnitude_test P d lo HP Hd) as Ht.
    destruct (scale10 (P * d, d) (- lo)) as [n d']. rewrite Ht.
    destruct (Z.ltb_spec P (10 ^ lo)) as [Hlt|Hge].
    + split; assumption.
    + apply IH.
      * replace (lo + 1 + Z.of_nat fuel - 1) with (lo + Z.of_nat (S fuel) - 1)
          by lia. exact Hhi.
      * replace (lo + 1 - 1) with lo by lia. exact Hge.
Qed.

(** The estimate [bits * 30103 / 100000 - 1] is at most the number of
    digits, and less than 8 below it, for every number of bits up to 53. *)
Lemma estimate_checked :
  all_below (fun b => (10 ^ (b * 30103 / 100000 - 2) <=? 2 ^ b)
                      && (2 ^ (b + 1) <=? 10 ^ (b * 30103 / 100000 + 6)))
            53 = true.
Proof. vm_compute. reflexivity. Qed.

Lemma estimate_spec (P b : Z) :
  0 <= b <= 52 -> 2 ^ b <= P < 2 ^ (b + 1) ->
  10 ^ (b * 30103 / 100000 - 1 - 1) <= P
  /\ P < 10 ^ (b * 30103 / 100000 - 1 + Z.of_nat 8 - 1).
Proof.
  intros Hb HP.
  pose proof (all_below_spec _ _ estimate_checked b ltac:(lia)) as H.
  cbv beta in H. apply andb_true_iff in H as [H1 H2].
  apply Z.leb_le in H1, H2.
  replace (b * 30103 / 100000 - 1 - 1) with (b * 30103 / 100000 - 2) by lia.
  replace (b * 30103 / 100000 - 1 + Z.of_nat 8 - 1)
    with (b * 30103 / 100000 + 6) by lia.
  lia.
Qed.

(** ** Reading an integer back *)

Lemma dec_to_num_integer (s j : Z) :
  0 <= s -> 0 <= j -> dec_to_num false (Z.to_N s) j = of_Z (s * 10 ^ j).
Proof.
  intros Hs Hj. destruct s as [|q|q]; try lia.
  - reflexivity.
  - cbn [Z.to_N dec_to_num]. destruct j as [|k|k]; try lia.
    + rewrite Z.pow_0_r, Z.mul_1_r. reflexivity.
    + rewrite <- Pos2Z.inj_pow, <- Pos2Z.inj_mul. reflexivity.
Qed.

(** An integer from 2^53 on is rounded to a number with a positive
    exponent, or to infinity. *)
Lemma of_Z_large (q : positive) :
  2 ^ 53 <= Zpos q ->
  match of_Z (Zpos q) with
  | S754_finite s _ e => s = false /\ 1 <= e
  | S754_infinity s => s = false
  | S754_zero _ => True
  | S754_nan => False
  end.
Proof.
  intros Hq.
  assert (Hd : 54 <= Zpos (digits2_pos q)).
  { rewrite digits2_pos_size.
    destruct (Z.le_gt_cases 54 (Zpos (Pos.size q))) as [H|H]; [exact H|exfalso].
    pose proof (Pos.size_gt q) as Hs. apply Pos2Z.pos_lt_pos in Hs.
    rewrite Pos2Z.inj_pow in Hs.
    assert (H53 : 2 ^ Zpos (Pos.size q) <= 2 ^ 53)
      by (apply Z.pow_le_mono_r; lia).
    change (Z.pos 2) with 2 in Hs. lia. }
  unfold of_Z, binary_normalize, binary_round.
  unfold fexp at 1. unfold emin, prec, emax.
  replace (Z.max (Zpos (digits2_pos q) + 0 - 53) (3 - 1024 - 53))
    with (Zpos (digits2_pos q) - 53) by lia.
  unfold shl_align.
  destruct (Zpos (digits2_pos q) - 53 - 0) as [|fe|fe] eqn:Efe; try lia.
  unfold binary_round_aux.
  pose proof (shr_fexp_nonneg (Zpos q) 0 loc_Exact ltac:(lia)) as H1.
  assert (He1 : 1 <= snd (shr_fexp JSNum.prec JSNum.emax (Zpos q) 0 loc_Exact)).
  { unfold shr_fexp, shr, fexp, emin, JSNum.prec, JSNum.emax.
    cbn [Zdigits2].
    replace (Z.max (Zpos (digits2_pos q) + 0 - 53) (3 - 1024 - 53) - 0)
      with (Zpos fe) by lia.
    cbn [snd]. lia. }
  change 53 with JSNum.prec. change 1024 with JSNum.emax.
  destruct (shr_fexp JSNum.prec JSNum.emax (Zpos q) 0 loc_Exact) as [mrs1 e1].
  cbn [fst snd] in H1, He1.
  pose proof (shr_fexp_nonneg _ e1 loc_Exact
                (round_nearest_even_nonneg _ (loc_of_shr_record mrs1) H1)) as H2.
  assert (He2 : e1 <= snd (shr_fexp JSNum.prec JSNum.emax
                             (round_nearest_even (shr_m mrs1)
                                (loc_of_shr_record mrs1)) e1 loc_Exact)).
  { unfold shr_fexp, shr.
    destruct (fexp _ _ _ - e1); cbn [snd]; lia. }
  destruct (shr_fexp JSNum.prec JSNum.emax _ e1 loc_Exact) as [mrs2 e2].
  cbn [fst snd] in H2, He2.
  destruct (shr_m mrs2); [exact I | | lia].
  destruct (e2 <=? JSNum.emax - JSNum.prec); [split; [reflexivity | lia] | reflexivity].
Qed.

(** A nonnegative integer reads back as [P] exactly when it is [P]. *)
Lemma reads_integer (v : Z) (p : positive) :
  0 <= v -> Zpos p < 2 ^ 53 ->
  match SFcompare (of_Z v) (of_Z (Zpos p)) with
  | Some Eq => true
  | _ => false
  end = (v =? Zpos p).
Proof.
  intros Hv Hp. destruct (Z.lt_ge_cases v (2 ^ 53)) as [Hlt|Hge].
  - rewrite compare_of_Z by lia.
    destruct (Z.compare_spec v (Zpos p)) as [H|H|H];
      destruct (Z.eqb_spec v (Zpos p)); try reflexivity; lia.
  - destruct v as [|q|q]; try lia.
    pose proof (of_Z_large q Hge) as Hl.
    destruct (of_Z_finite (Zpos p)) as (m0 & e0 & -> & _ & He0 & _); [lia|lia|].
    replace (Zpos p <? 0) with false by reflexivity.
    destruct (Z.eqb_spec (Zpos q) (Zpos p)) as [E|_]; [lia|].
    destruct (of_Z (Zpos q)) as [s|s| |s m e]; cbn [SFcompare].
    + reflexivity.
    + subst s. reflexivity.
    + reflexivity.
    + destruct Hl as [-> He].
      destruct (Z.compare_spec e e0) as [H|H|H]; try reflexivity; lia.
Qed.

(** ** The shortest decimal of an integer *)

Section Shortest.

Variables (p : positive) (d N : Z).
Hypothesis Hp : Zpos p < 2 ^ 53.
Hypothesis Hd : 0 < d.
Hypothesis HN : 10 ^ (N - 1) <= Zpos p < 10 ^ N.

Lemma digits_positive : 1 <= N.
Proof.
  destruct (Z.lt_ge_cases N 1) as [H|H]; [exfalso | exact H].
  destruct (Z.eq_dec N 0) as [->|Hne]; [simpl in HN; lia|].
  rewrite (Z.pow_neg_r 10 N) in HN by lia. lia.
Qed.

(** With [k] digits the candidate is the integer without its last [N - k]
    digits, when these are all zero, and there is none otherwise. *)
Lemma candidate_integer (k : Z) :
  1 <= k <= N ->
  candidate (of_Z (Zpos p)) (Zpos p * d, d) N k
  = if Zpos p mod 10 ^ (N - k) =? 0
    then Some (Zpos p / 10 ^ (N - k), N) else None.
Proof.
  intros Hk. set (T := 10 ^ (N - k)).
  assert (HT : 0 < T) by (apply Z.pow_pos_nonneg; lia).
  assert (Hg : fst (scale10 (Zpos p * d, d) (k - N)) = Zpos p * d
               /\ snd (scale10 (Zpos p * d, d) (k - N)) = d * T).
  { unfold scale10, T. destruct (k - N) as [|j|j] eqn:E; try lia; cbn [fst snd].
    - replace (N - k) with 0 by lia. rewrite Z.pow_0_r. lia.
    - replace (N - k) with (Zpos j) by lia. rewrite Pos2Z.inj_pow. auto. }
  destruct Hg as [Hg1 Hg2].
  assert (Hlo : fst (scale10 (Zpos p * d, d) (k - N))
                / snd (scale10 (Zpos p * d, d) (k - N)) = Zpos p / T).
  { rewrite Hg1, Hg2, (Z.mul_comm d T). apply Z.div_mul_cancel_r; lia. }
  assert (HPT : Zpos p = T * (Zpos p / T) + Zpos p mod T)
    by (apply Z.div_mod; lia).
  assert (Hmod : 0 <= Zpos p mod T < T) by (apply Z.mod_pos_bound; lia).
  assert (Hq : 0 <= Zpos p / T) by (apply Z.div_pos; lia).
  assert (Hlt : Zpos p / T < 10 ^ k).
  { apply Z.div_lt_upper_bound; [lia|].
    unfold T. rewrite <- Z.pow_add_r by lia.
    replace (N - k + k) with N by lia. lia. }
  unfold candidate. cbv zeta. rewrite Hlo.
  rewrite !dec_to_num_integer by lia.
  rewrite !reads_integer by (try exact Hp; nia).
  fold T.
  destruct (Z.eqb_spec (Zpos p mod T) 0) as [E0|E0].
  - assert (E1 : Zpos p / T * T = Zpos p) by lia.
    destruct (Z.eqb_spec (Zpos p / T * T) (Zpos p)) as [_|]; [|contradiction].
    destruct (Z.eqb_spec ((Zpos p / T + 1) * T) (Zpos p)) as [E2|_]; [nia|].
    destruct (Z.eqb_spec (Zpos p / T) (10 ^ k)) as [E3|_]; [lia | reflexivity].
  - destruct (Z.eqb_spec (Zpos p / T * T) (Zpos p)) as [E1|_]; [lia|].
    destruct (Z.eqb_spec ((Zpos p / T + 1) * T) (Zpos p)) as [E2|_];
      [nia | reflexivity].
Qed.

Lemma shortest_integer (fuel : nat) (k : Z) :
  1 <= k <= N -> N - k < Z.of_nat fuel ->
  exists s k',
    shortest fuel (of_Z (Zpos p)) (Zpos p * d, d) N k = (s, N, k')
    /\ k <= k' <= N /\ 0 < s /\ s * 10 ^ (N - k') = Zpos p.
Proof.
  revert k. induction fuel as [|fuel IH]; intros k Hk Hf; [lia|].
  cbn [shortest]. rewrite candidate_integer by exact Hk.
  assert (HT : 0 < 10 ^ (N - k)) by (apply Z.pow_pos_nonneg; lia).
  destruct (Z.eqb_spec (Zpos p mod 10 ^ (N - k)) 0) as [E0|E0].
  - exists (Zpos p / 10 ^ (N - k)), k. split; [reflexivity|].
    pose proof (Z.div_mod (Zpos p) (10 ^ (N - k)) ltac:(lia)) as HPT.
    split; [lia|]. split; [nia | nia].
  - assert (Hlt : k < N).
    { destruct (Z.eq_dec k N) as [->|]; [|lia].
      rewrite Z.sub_diag, Z.pow_0_r, Z.mod_1_r in E0. contradiction. }
    destruct (IH (k + 1)) as (s & k' & Hs & Hk' & Hpos & Hval); [lia|lia|].
    exists s, k'. split; [exact Hs|]. split; [lia|]. auto.
Qed.

End Shortest.

(** ** The digits *)

Lemma append_cons (x : ascii) (a b : string) :
  String x a +:+ b = String x (a +:+ b).
Proof. reflexivity. Qed.

Lemma append_assoc (a b c : string) : (a +:+ b) +:+ c = a +:+ (b +:+ c).
Proof.
  induction a as [|x a IH]; [reflexivity|]. rewrite !append_cons, IH.
  reflexivity.
Qed.

Lemma append_empty (a : string) : a +:+ "" = a.
Proof.
  induction a as [|x a IH]; [reflexivity|]. rewrite append_cons, IH.
  reflexivity.
Qed.

Lemma string_of_uint_revapp (l acc : Decimal.uint) :
  NilEmpty.string_of_uint (Decimal.revapp l acc)
  = NilEmpty.string_of_uint (Decimal.rev l) +:+ NilEmpty.string_of_uint acc.
Proof.
  unfold Decimal.rev. revert acc.
  induction l as [|l IH|l IH|l IH|l IH|l IH|l IH|l IH|l IH|l IH|l IH];
    intros acc; cbn [Decimal.revapp]; [reflexivity|..];
    rewrite IH, (IH (_ Decimal.Nil)); cbn [NilEmpty.string_of_uint];
    rewrite append_assoc; reflexivity.
Qed.

Lemma digits_tenfold (s : Z) : 0 < s -> digits (s * 10) = digits s +:+ "0".
Proof.
  intros Hs. destruct s as [|q|q]; try lia.
  unfold digits. change (Zpos q * 10) with (Zpos (q * 10)).
  cbn [Z.to_N N.to_uint]. unfold Pos.to_uint.
  assert (H : Pos.to_little_uint (10 * q)
              = Decimal.D0 (Pos.to_little_uint q))
    by exact (Unsigned.to_ldec_tenfold q).
  replace (q * 10)%positive with (10 * q)%positive by lia.
  rewrite H. unfold Decimal.rev at 1. cbn [Decimal.revapp].
  apply string_of_uint_revapp.
Qed.

Lemma digits_zeros (s : Z) (j : nat) :
  0 < s -> digits (s * 10 ^ Z.of_nat j) = digits s +:+ zeros j.
Proof.
  intros Hs. revert s Hs. induction j as [|j IH]; intros s Hs.
  - rewrite Z.pow_0_r, Z.mul_1_r. cbn [zeros]. rewrite append_empty.
    reflexivity.
  - rewrite Nat2Z.inj_succ, Z.pow_succ_r by lia.
    replace (s * (10 * 10 ^ Z.of_nat j)) with (s * 10 * 10 ^ Z.of_nat j) by ring.
    rewrite IH by lia. rewrite digits_tenfold by exact Hs.
    rewrite append_assoc. reflexivity.
Qed.

(** [String(n)] is the decimal writing of [n], for every integer from 0 to
    2^53. *)
Lemma NumberToString_integer (n : Z) :
  0 <= n < 2 ^ 53 -> NumberToString (of_Z n) = digits n.
Proof.
  intros [Hn0 Hn]. destruct n as [|p|p]; try lia; [reflexivity|].
  destruct (canonical_exists p Hn) as (m0 & e0 & Hd & He & Hv).
  rewrite (of_Z_canonical p m0 e0 Hd He Hv).
  pose proof (mantissa_bounds m0 Hd) as Hm.
  (* the fraction is the integer over a power of two *)
  assert (Hf : exists d, 0 < d /\ fraction_of m0 e0 = (Zpos p * d, d)
                         /\ Zpos m0 = Zpos p * d /\ d = 2 ^ (- e0)).
  { assert (HP : 0 < 2 ^ (e0 + 1074)) by (apply Z.pow_pos_nonneg; lia).
    assert (Hm0 : Zpos m0 = Zpos p * 2 ^ (- e0)).
    { assert (E : 2 ^ 1074 = 2 ^ (- e0) * 2 ^ (e0 + 1074)).
      { rewrite <- Z.pow_add_r by lia. f_equal. lia. }
      rewrite E, Z.mul_assoc in Hv.
      apply Z.mul_reg_r in Hv; [exact Hv | lia]. }
    exists (2 ^ (- e0)). split; [apply Z.pow_pos_nonneg; lia|].
    split; [|split; [exact Hm0 | reflexivity]].
    unfold fraction_of. destruct e0 as [|k|k]; try lia.
    - cbn [Z.opp]. rewrite Z.pow_0_r, !Z.mul_1_r.
      simpl in Hm0. rewrite Z.mul_1_r in Hm0. rewrite Hm0. reflexivity.
    - cbn [Z.opp] in *. rewrite Pos2Z.inj_pow. rewrite Hm0. reflexivity. }
  destruct Hf as (d & Hd0 & Hf & Hm0 & Hdv).
  (* the number of bits *)
  assert (Hbits : Z.log2 (Zpos m0) + e0 = 52 + e0).
  { f_equal. apply Z.log2_unique; [lia|].
    change (Z.succ 52) with 53. exact Hm. }
  assert (Hb : 2 ^ (52 + e0) <= Zpos p < 2 ^ (52 + e0 + 1)).
  { assert (H1 : 2 ^ 52 = 2 ^ (52 + e0) * d).
    { rewrite Hdv, <- Z.pow_add_r by lia. f_equal. lia. }
    assert (H2 : 2 ^ 53 = 2 ^ (52 + e0 + 1) * d).
    { rewrite Hdv, <- Z.pow_add_r by lia. f_equal. lia. }
    rewrite H1, H2, Hm0 in Hm. nia. }
  destruct (estimate_spec (Zpos p) (52 + e0) ltac:(lia) Hb) as (Hlo & Hhi).
  unfold NumberToString. cbv zeta. rewrite Hf, Hbits.
  pose proof (magnitude10_spec (Zpos p) d 8 _ ltac:(lia) Hd0 Hhi Hlo) as HN.
  set (N := magnitude10 8 (Zpos p * d, d) ((52 + e0) * 30103 / 100000 - 1)) in *.
  pose proof (digits_positive p N HN) as HN1.
  assert (HN16 : N <= 16).
  { destruct (Z.le_gt_cases N 16) as [H|H]; [exact H|exfalso].
    assert (H16 : 10 ^ 16 <= 10 ^ (N - 1)) by (apply Z.pow_le_mono_r; lia).
    change (2 ^ 53) with 9007199254740992 in Hn.
    change (10 ^ 16) with 10000000000000000 in H16. lia. }
  rewrite <- (of_Z_canonical p m0 e0 Hd He Hv).
  destruct (shortest_integer p d N Hn Hd0 HN 20 1 ltac:(lia) ltac:(lia))
    as (s & k' & -> & Hk' & Hs & Hval).
  cbn [append]. unfold layout_digits.
  replace ((k' <=? N) && (N <=? 21)) with true
    by (symmetry; apply andb_true_iff; split; apply Z.leb_le; lia).
  rewrite <- Hval, <- (digits_zeros s (Z.to_nat (N - k')) Hs).
  rewrite Z2Nat.id by lia. reflexivity.
Qed.

(** ** Reading the digits *)

Lemma read_digits_acc (d : Decimal.uint) (acc : positive) (cnt : nat) :
  read_digits 10 (NilEmpty.string_of_uint d) (Npos acc) cnt
  = (Npos (Pos.of_uint_acc d acc), (cnt + Decimal.nb_digits d)%nat, "").
Proof.
  revert acc cnt.
  induction d as [|l IH|l IH|l IH|l IH|l IH|l IH|l IH|l IH|l IH|l IH];
    intros acc cnt;
    cbn [NilEmpty.string_of_uint read_digits Pos.of_uint_acc Decimal.nb_digits];
    [ rewrite Nat.add_0_r; reflexivity | .. ];
    match goal with
    | |- context [digit_of 10 ?c] =>
        let v := eval vm_compute in (digit_of 10 c) in
        change (digit_of 10 c) with v
    end;
    cbv beta iota; rewrite <- Nat.add_succ_comm;
    match goal with
    | |- read_digits 10 _ ?a _ = (Npos (Pos.of_uint_acc _ ?b), _, _) =>
        replace a with (Npos b) by lia
    end;
    apply IH.
Qed.

Lemma read_digits_uint (d : Decimal.uint) (cnt : nat) :
  read_digits 10 (NilEmpty.string_of_uint d) 0%N cnt
  = (Pos.of_uint d, (cnt + Decimal.nb_digits d)%nat, "").
Proof.
  revert cnt.
  induction d as [|l IH|l IH|l IH|l IH|l IH|l IH|l IH|l IH|l IH|l IH];
    intros cnt;
    cbn [NilEmpty.string_of_uint read_digits Pos.of_uint Decimal.nb_digits];
    [ rewrite Nat.add_0_r; reflexivity | .. ];
    match goal with
    | |- context [digit_of 10 ?c] =>
        let v := eval vm_compute in (digit_of 10 c) in
        change (digit_of 10 c) with v
    end;
    cbv beta iota; rewrite <- Nat.add_succ_comm;
    [ apply IH | .. ];
    match goal with
    | |- read_digits 10 _ ?a _ = (Npos (Pos.of_uint_acc _ ?b), _, _) =>
        change a with (Npos b)
    end;
    apply read_digits_acc.
Qed.

(** The digits have no white space around them. *)
Lemma rev_string_of_uint (d acc : Decimal.uint) :
  String.rev_app (NilEmpty.string_of_uint d) (NilEmpty.string_of_uint acc)
  = NilEmpty.string_of_uint (Decimal.revapp d acc).
Proof.
  revert acc.
  induction d as [|l IH|l IH|l IH|l IH|l IH|l IH|l IH|l IH|l IH|l IH];
    intros acc; [reflexivity|..];
    cbn [NilEmpty.string_of_uint String.rev_app Decimal.revapp];
    rewrite <- IH; reflexivity.
Qed.

Lemma trim_start_uint (d : Decimal.uint) :
  trim_start (NilEmpty.string_of_uint d) = NilEmpty.string_of_uint d.
Proof. destruct d; reflexivity. Qed.

Lemma trim_uint (d : Decimal.uint) :
  trim (NilEmpty.string_of_uint d) = NilEmpty.string_of_uint d.
Proof.
  assert (Hrev : forall u, String.rev (NilEmpty.string_of_uint u)
                           = NilEmpty.string_of_uint (Decimal.rev u)).
  { intros u. exact (rev_string_of_uint u Decimal.Nil). }
  unfold trim. rewrite trim_start_uint, Hrev, trim_start_uint, Hrev.
  rewrite DecimalFacts.rev_rev. reflexivity.
Qed.

(** The decimal writing of a positive integer starts with a digit other
    than 0. *)
Lemma to_uint_head (p : positive) :
  match Pos.to_uint p with
  | Decimal.Nil | Decimal.D0 _ => False
  | _ => True
  end.
Proof.
  pose proof (Unsigned.to_uint_nonnil p) as Hnil.
  pose proof (Unsigned.to_uint_nonzero p) as Hnz.
  pose proof (Unsigned.to_of (N.to_uint (Npos p))) as Hto.
  rewrite Unsigned.of_to in Hto. cbn [N.to_uint] in Hto.
  destruct (Pos.to_uint p) as [|l|l|l|l|l|l|l|l|l|l] eqn:E; try exact I.
  - apply Hnil. reflexivity.
  - unfold Decimal.unorm in Hto. rewrite DecimalFacts.nzhead_D0 in Hto.
    destruct (Decimal.nzhead l) eqn:El; try discriminate Hto.
    + apply Hnz. exact Hto.
    + apply (DecimalFacts.nzhead_nonzero l l). rewrite El.
      symmetry. exact Hto.
Qed.

(** [Number(s)] of the decimal writing of [n] is [n] (rounded, from 2^53
    on). *)
Lemma StringToNumber_digits (n : Z) :
  0 <= n -> StringToNumber (digits n) = of_Z n.
Proof.
  intros Hn. destruct n as [|p|p]; try lia; [reflexivity|].
  unfold digits, StringToNumber. cbn [Z.to_N N.to_uint]. rewrite trim_uint.
  pose proof (to_uint_head p) as Hhead.
  pose proof (read_digits_uint (Pos.to_uint p) 0) as Hread.
  pose proof (DecimalPos.Unsigned.of_to p) as Hof.
  rewrite Hof in Hread.
  destruct (Pos.to_uint p) as [|l|l|l|l|l|l|l|l|l|l]; try contradiction;
    cbn [NilEmpty.string_of_uint]; cbv beta iota;
    unfold read_decimal; cbn [read_sign];
    cbn [NilEmpty.string_of_uint] in Hread; rewrite Hread;
    cbn [Decimal.nb_digits Nat.add]; reflexivity.
Qed.

Lemma digits_not_empty (n : Z) : (digits n =? "")%string = false.
Proof.
  unfold digits. destruct (Z.to_N n) as [|p]; [reflexivity|].
  cbn [N.to_uint]. pose proof (to_uint_head p) as H.
  destruct (Pos.to_uint p); try contradiction; reflexivity.
Qed.

(* ===================================================================== *)
(** * The sanitizer, step by step *)
(* ===================================================================== *)

Lemma clamp_eq (v : value) (a b : Z) :
  clamp v (lit a) (lit b)
  = (n <-! ToNumber v ;; Ok (Num (clampN (of_Z a) (of_Z b) n))).
Proof.
  unfold clamp, Math_min2, Math_max2, lit. simpl.
  destruct (ToNumber v); reflexivity.
Qed.

Lemma get_member (v : value) (k : string) :
  nullish v = false -> get v k = Ok (member v k).
Proof. destruct v; simpl; intros; try discriminate; reflexivity. Qed.

Lemma get_nullish (v : value) (k : string) :
  nullish v = true -> get v k = Throw TypeError.
Proof. destruct v; simpl; intros; try discriminate; reflexivity. Qed.

(** The scrutinee that decides a nest of [match]es on results. *)
Ltac head_of t :=
  lazymatch t with
  | match ?c with Ok _ => _ | Throw _ => _ end => head_of c
  | _ => t
  end.

Ltac split_head :=
  lazymatch goal with
  | |- _ = ?rhs =>
      let c := head_of rhs in
      lazymatch c with
      | Ok _ => fail
      | Throw _ => fail
      | _ => destruct c; cbv beta iota; [ | reflexivity ]
      end
  end.

(** [sanitizeElement] draws its id first and converts afterwards. *)
Lemma sanitizeElement_eq (el : value) (r : randomness) :
  sanitizeElement el r =
    if nullish el then Throw (TypeError, r)
    else match sanitized el (drawn r) with
         | Ok o => Ok (o, after_draw r)
         | Throw e => Throw (e, after_draw r)
         end.
Proof.
  destruct (nullish el) eqn:Hn.
  { destruct el; try discriminate; reflexivity. }
  unfold sanitizeElement, sanitized, rd.
  unfold bind at 1. unfold lift at 1. rewrite (get_member _ _ Hn).
  destruct (strict_eq (member el "type") (Str "image")).
  - unfold defaultImage, uid, random_string, sanitized_image.
    rewrite !(get_member _ _ Hn).
    cbv [bind lift ret optional_get nullish get field lookup_prop
         String.eqb Ascii.eqb Bool.eqb Math_min2].
    rewrite !clamp_eq.
    cbv [rbind ToNumber lit].
    repeat split_head. reflexivity.
  - unfold defaultText, uid, random_string, sanitized_text, subtype_of.
    rewrite !(get_member _ _ Hn).
    cbv [bind lift ret].
    rewrite !clamp_eq.
    cbv [rbind].
    repeat split_head. reflexivity.
Qed.

Lemma Ok_inj {E A} (a b : A) : @Ok E A a = Ok b -> a = b.
Proof. congruence. Qed.

(** Inversion of a successful chain of conversions. *)
Ltac inv_rbind H :=
  cbv beta iota delta [rbind] in H;
  repeat match type of H with
         | match ?c with Ok _ => _ | Throw _ => _ end = Ok _ =>
             let E := fresh "E" in
             destruct c eqn:E; [ cbv beta iota in H | discriminate H ]
         end.

Ltac inv_sanitized H :=
  unfold sanitized in H;
  match type of H with
  | (if ?b then _ else _) = _ =>
      let Ety := fresh "Ety" in
      destruct b eqn:Ety;
      [ unfold sanitized_image in H | unfold sanitized_text in H; cbv zeta in H ];
      inv_rbind H; apply Ok_inj in H; subst
  end.

(** ** Small facts on the operators *)

Lemma nullish_or_not_nullish (v d : value) :
  nullish d = false -> nullish (nullish_or v d) = false.
Proof. unfold nullish_or. destruct (nullish v) eqn:E; auto. Qed.

Lemma nullish_or_id (v d : value) : nullish v = false -> nullish_or v d = v.
Proof. unfold nullish_or. intros ->. reflexivity. Qed.

Lemma or_else_truthy (v d : value) :
  ToBoolean d = true -> ToBoolean (or_else v d) = true.
Proof. unfold or_else. destruct (ToBoolean v) eqn:E; auto. Qed.

Lemma or_else_id (v d : value) : ToBoolean v = true -> or_else v d = v.
Proof. unfold or_else. intros ->. reflexivity. Qed.

Lemma ToNumber_converts (v : value) :
  match ToNumber v with Ok _ => converts v = true | Throw _ => converts v = false end.
Proof.
  unfold converts. destruct v; simpl; try reflexivity.
  - match goal with |- context [rbind ?c _] => destruct c end; reflexivity.
  - destruct (lookup_prop "toString" props); reflexivity.
Qed.

Lemma converts_primitive (v : value) :
  ToBoolean v = false -> converts v = true.
Proof. destruct v; simpl; intros; try discriminate; reflexivity. Qed.

Lemma converts_nullish_or (v : value) (z : Z) :
  converts (nullish_or v (lit z)) = converts v.
Proof.
  unfold nullish_or. destruct (nullish v) eqn:E; auto.
  destruct v; try discriminate; reflexivity.
Qed.

Lemma converts_nullish_or_str (v : value) (s : string) :
  converts (nullish_or v (Str s)) = converts v.
Proof.
  unfold nullish_or. destruct (nullish v) eqn:E; auto.
  destruct v; try discriminate; reflexivity.
Qed.

Lemma converts_or_else (v : value) (z : Z) :
  converts (or_else v (lit z)) = converts v.
Proof.
  unfold or_else. destruct (ToBoolean v) eqn:E; auto.
  rewrite (converts_primitive v E). reflexivity.
Qed.

Create Rewrite HintDb converts.
#[local] Hint Rewrite converts_nullish_or converts_nullish_or_str
  converts_or_else : converts.

Lemma substring_length (n : nat) (s : string) :
  (String.length (substring 0 n s) <= n)%nat.
Proof.
  revert s. induction n as [|n IH]; intros [|c s]; simpl; try lia.
  specialize (IH s). lia.
Qed.

Lemma substring_short (n : nat) (s : string) :
  (String.length s <= n)%nat -> substring 0 n s = s.
Proof.
  revert s. induction n as [|n IH]; intros [|c s]; simpl; intros H;
    try reflexivity; try lia.
  rewrite IH by lia. reflexivity.
Qed.

Lemma includes_subtype_of (el : value) :
  includes ["speech"; "caption"; "sfx"] (subtype_of el) = true.
Proof.
  unfold subtype_of.
  destruct (includes _ (member el "subtype")) eqn:E; auto.
Qed.


(** ** What a sanitized element is *)

Lemma sanitized_id (el i : value) (o : obj) :
  sanitized el i = Ok o -> field o "id" = i.
Proof. intros H. inv_sanitized H; reflexivity. Qed.

Lemma sanitized_type (el i : value) (o : obj) :
  sanitized el i = Ok o ->
  is_image o = strict_eq (member el "type") (Str "image").
Proof. intros H. inv_sanitized H; reflexivity. Qed.

Lemma sanitized_valid (el i : value) (o : obj) :
  sanitized el i = Ok o -> is_str i = true -> valid_element o = true.
Proof.
  intros H Hi. unfold valid_element. inv_sanitized H.
  - apply orb_true_iff. right.
    cbv [valid_image keys map fst same_keys image_keys field lookup_prop
         String.eqb Ascii.eqb Bool.eqb andb forallb is_num strict_eq].
    rewrite Hi.
    rewrite !nullish_or_not_nullish by reflexivity.
    unfold or_else. destruct (ToBoolean (member el "src")) eqn:Es.
    + rewrite Es. reflexivity.
    + reflexivity.
  - apply orb_true_iff. left.
    cbv [valid_text keys map fst same_keys text_keys field lookup_prop
         String.eqb Ascii.eqb Bool.eqb andb forallb is_num strict_eq].
    rewrite Hi, includes_subtype_of.
    rewrite !nullish_or_not_nullish by reflexivity.
    rewrite (or_else_truthy _ (Str "#111827")) by reflexivity.
    rewrite or_else_truthy
      by (destruct (match subtype_of el with Str x => _ | _ => false end);
          reflexivity).
    pose proof (substring_length 2000 a) as Hlen.
    apply Nat.leb_le in Hlen. rewrite Hlen.
    destruct (includes ["left"; "center"; "right"] (member el "align")) eqn:Ea.
    + rewrite Ea. reflexivity.
    + reflexivity.
Qed.

Lemma clampN_range_or_nan (a b : Z) (v : num) :
  le (of_Z a) (of_Z b) = true ->
  is_nan (clampN (of_Z a) (of_Z b) v)
  || within (of_Z a) (of_Z b) (clampN (of_Z a) (of_Z b) v) = true.
Proof.
  intros Hab. destruct (is_nan v) eqn:Hv.
  - rewrite clampN_nan by assumption. reflexivity.
  - rewrite clampN_range by assumption. apply orb_true_r.
Qed.

(** Every measure of a sanitized element is a number that lies in its range
    or is NaN. *)
Lemma sanitized_ranges (el i : value) (o : obj) :
  sanitized el i = Ok o ->
  forallb (fun kr => in_range_or_nan o (fst kr) (fst (snd kr)) (snd (snd kr)))
          (ranges o) = true.
Proof.
  intros H. inv_sanitized H;
    cbv [ranges is_image forallb in_range_or_nan fst snd field lookup_prop
         String.eqb Ascii.eqb Bool.eqb andb strict_eq];
    rewrite !clampN_range_or_nan by reflexivity; reflexivity.
Qed.

(** The sanitizer passes [z] and [rotate] through. *)
Lemma sanitized_z_rotate (el i : value) (o : obj) :
  sanitized el i = Ok o ->
  field o "z" = nullish_or (member el "z")
                  (if strict_eq (member el "type") (Str "image")
                   then lit 0 else lit 1)
  /\ field o "rotate" = nullish_or (member el "rotate") (lit 0).
Proof. intros H. inv_sanitized H; split; reflexivity. Qed.

Lemma nullish_or_idem (v d : value) :
  nullish_or (nullish_or v d) d = nullish_or v d.
Proof.
  unfold nullish_or. destruct (nullish v) eqn:E.
  - destruct (nullish d); reflexivity.
  - rewrite E. reflexivity.
Qed.

Lemma or_else_idem (v d : value) : or_else (or_else v d) d = or_else v d.
Proof.
  unfold or_else. destruct (ToBoolean v) eqn:E.
  - rewrite E. reflexivity.
  - destruct (ToBoolean d); reflexivity.
Qed.

Lemma ToNumber_or_else_num (n : num) (z : Z) :
  exists m, ToNumber (or_else (Num n) (lit z)) = Ok m.
Proof. unfold or_else. destruct (ToBoolean (Num n)); simpl; eauto. Qed.

Lemma includes_pick (l : list string) (v : value) (d : string) :
  includes l (Str d) = true ->
  includes l (if includes l v then v else Str d) = true.
Proof. intros Hd. destruct (includes l v) eqn:E; auto. Qed.

(** Hides what was read from the first element, so that computing on the
    second one leaves it alone. *)
Ltac hide_members el :=
  repeat match goal with
         | |- context [member el ?k] =>
             let x := fresh "m" in set (x := member el k) in *; clearbody x
         end.

(** Sanitizing a sanitized element again changes its id and nothing else. *)
Lemma sanitized_again (el i j : value) (o : obj) :
  sanitized el i = Ok o -> sanitized (Obj o) j = Ok (set_prop "id" j o).
Proof.
  intros H. inv_sanitized H.
  - hide_members el.
    unfold sanitized.
    cbv [member field lookup_prop String.eqb Ascii.eqb Bool.eqb strict_eq].
    unfold sanitized_image.
    cbv [member field lookup_prop String.eqb Ascii.eqb Bool.eqb set_prop].
    destruct (ToNumber_or_else_num (clampN (of_Z 10) (of_Z 10000) a3) 300)
      as [n1 ->].
    destruct (ToNumber_or_else_num (clampN (of_Z 10) (of_Z 10000) a4) 220)
      as [n2 ->].
    cbn [rbind nullish_or nullish ToNumber].
    rewrite !clampN_idem by reflexivity.
    rewrite or_else_idem, !nullish_or_idem. reflexivity.
  - pose proof (includes_subtype_of el) as Hst.
    set (st := subtype_of el) in *. clearbody st.
    hide_members el.
    unfold sanitized.
    cbv [member field lookup_prop String.eqb Ascii.eqb Bool.eqb strict_eq].
    unfold sanitized_text, subtype_of.
    cbv [member field lookup_prop String.eqb Ascii.eqb Bool.eqb set_prop].
    rewrite Hst.
    cbn [rbind nullish_or nullish ToNumber ToString].
    rewrite !clampN_idem by reflexivity.
    rewrite (substring_short 2000 (substring 0 2000 a))
      by apply substring_length.
    rewrite !or_else_idem, !nullish_or_idem.
    rewrite includes_pick by reflexivity.
    reflexivity.
Qed.

Lemma ToString_converts (v : value) :
  match ToString v with Ok _ => converts v = true | Throw _ => converts v = false end.
Proof. unfold converts. destruct (ToString v); reflexivity. Qed.

Ltac conv_step :=
  lazymatch goal with
  | |- match ?t with Ok _ => _ | Throw _ => _ end =>
      let c := head_of t in
      let H := fresh "Hc" in
      lazymatch c with
      | ToNumber ?v => pose proof (ToNumber_converts v) as H
      | ToString ?v => pose proof (ToString_converts v) as H
      end;
      destruct c;
      autorewrite with converts in H;
      cbv beta iota;
      try congruence;
      rewrite ?H
  end.

(** The conversions of the sanitizer succeed exactly when every converted
    property converts. *)
Lemma sanitized_ok (el i : value) :
  match sanitized el i with
  | Ok _ => forallb (fun k => converts (member el k)) (converted_fields el) = true
  | Throw _ => forallb (fun k => converts (member el k)) (converted_fields el) = false
  end.
Proof.
  unfold sanitized, converted_fields.
  destruct (strict_eq (member el "type") (Str "image")).
  - unfold sanitized_image. cbv [rbind forallb].
    repeat conv_step; reflexivity.
  - unfold sanitized_text. cbv zeta.
    destruct (strict_eq (subtype_of el) (Str "speech")),
             (strict_eq (subtype_of el) (Str "sfx"));
      cbv [rbind forallb]; repeat conv_step; reflexivity.
Qed.

Lemma forallb_false_ex {A} (f : A -> bool) (l : list A) :
  forallb f l = false -> exists x, In x l /\ f x = false.
Proof.
  induction l as [|a l IH]; simpl; intros H; [discriminate|].
  destruct (f a) eqn:E; simpl in H; eauto.
  destruct (IH H) as (x & Hin & Hx). eauto.
Qed.

(** ** The sanitizer as it is called: one draw, then the conversions *)

Lemma sanitizeElement_ok (el : value) (r : randomness) :
  element_ok el = true ->
  exists o, sanitizeElement el r = Ok (o, after_draw r)
            /\ sanitized el (drawn r) = Ok o.
Proof.
  unfold element_ok. intros H. apply andb_true_iff in H as [Hn Hc].
  apply negb_true_iff in Hn. rewrite sanitizeElement_eq, Hn.
  pose proof (sanitized_ok el (drawn r)) as Hs.
  destruct (sanitized el (drawn r)) as [o|e]; [eauto | congruence].
Qed.

Lemma sanitizeElement_throws (el : value) (r : randomness) :
  element_ok el = false -> exists e, sanitizeElement el r = Throw e.
Proof.
  unfold element_ok. intros H. rewrite sanitizeElement_eq.
  destruct (nullish el); [eauto|]. simpl in H.
  pose proof (sanitized_ok el (drawn r)) as Hs.
  destruct (sanitized el (drawn r)) as [o|e]; [congruence | eauto].
Qed.

Lemma sanitizeElement_inv (el : value) (r r' : randomness) (o : obj) :
  sanitizeElement el r = Ok (o, r') ->
  nullish el = false /\ sanitized el (drawn r) = Ok o /\ r' = after_draw r.
Proof.
  rewrite sanitizeElement_eq. destruct (nullish el); [discriminate|].
  destruct (sanitized el (drawn r)); [|discriminate].
  intros H. injection H as -> ->. auto.
Qed.

(* ===================================================================== *)
(** * The loader *)
(* ===================================================================== *)

Section MapM.
Context {A B : Type} (f : A -> M B) (ok : A -> bool) (P : B -> Prop).

(** Whether [f] succeeds does not depend on the randomness: it does on the
    items that are [ok], with a result in [P], and throws on the others. *)
Hypothesis f_ok :
  forall x r, ok x = true -> exists y r', f x r = Ok (y, r') /\ P y.
Hypothesis f_throws :
  forall x r, ok x = false -> exists e, f x r = Throw e.

(** Then [xs.map(f)] succeeds when every item is [ok], and throws as soon as
    one is not. *)
Lemma mapM_all (xs : list A) (r : randomness) :
  if forallb ok xs
  then exists ys r', mapM f xs r = Ok (ys, r') /\ Forall P ys
  else exists e, mapM f xs r = Throw e.
Proof.
  revert r. induction xs as [|x xs IH]; intros r; simpl.
  - exists [], r. split; [reflexivity | constructor].
  - unfold bind. destruct (ok x) eqn:Ex; simpl.
    + destruct (f_ok x r Ex) as (y & r1 & -> & Hy).
      specialize (IH r1). destruct (forallb ok xs).
      * destruct IH as (ys & r2 & -> & Hys).
        exists (y :: ys), r2. split; [reflexivity | constructor; assumption].
      * destruct IH as (e & ->). eauto.
    + destruct (f_throws x r Ex) as (e & ->). eauto.
Qed.

End MapM.

Lemma forallb_Forall {A} (f : A -> bool) (l : list A) :
  Forall (fun x => f x = true) l -> forallb f l = true.
Proof. induction 1; simpl; [reflexivity|]. rewrite H, IHForall. reflexivity. Qed.

Lemma drawn_is_str (r : randomness) : is_str (drawn r) = true.
Proof. reflexivity. Qed.

Lemma sanitize_all (els : list value) (r : randomness) :
  if forallb element_ok els
  then exists os r', mapM sanitizeElement els r = Ok (os, r')
                     /\ Forall (fun o => valid_element o = true) os
  else exists e, mapM sanitizeElement els r = Throw e.
Proof.
  apply mapM_all.
  - intros x r0 Hx. destruct (sanitizeElement_ok x r0 Hx) as (o & Ho & Hs).
    exists o, (after_draw r0). split; [assumption|].
    eapply sanitized_valid; [eassumption | apply drawn_is_str].
  - intros x r0 Hx. apply sanitizeElement_throws. assumption.
Qed.

Lemma load_panel_ok (p : value) (r : randomness) :
  panel_ok p = true ->
  exists pan r', load_panel p r = Ok (pan, r') /\ valid_panel pan = true.
Proof.
  unfold panel_ok. intros H. apply andb_true_iff in H as [Hn He].
  apply negb_true_iff in Hn.
  unfold load_panel, rd, bind, lift. rewrite !(get_member _ _ Hn).
  set (r1 := (if ToBoolean (member p "id") then ret (member p "id") else uid) r).
  assert (Hid : exists i r', r1 = Ok (i, r')
                             /\ (ToBoolean i || is_str i) = true).
  { subst r1. destruct (ToBoolean (member p "id")) eqn:Ei.
    - exists (member p "id"), r. rewrite Ei. auto.
    - exists (drawn r), (after_draw r). split; [reflexivity|].
      apply orb_true_r. }
  destruct Hid as (i & r' & -> & Hi).
  unfold valid_panel.
  destruct (member p "elements") as [| | | | |els|] eqn:Eels;
    try (eexists _, _; split; [reflexivity|]; simpl; rewrite Hi;
         rewrite or_else_truthy by reflexivity; reflexivity).
  pose proof (sanitize_all els r') as Hall. rewrite He in Hall.
  destruct Hall as (os & r2 & -> & Hos).
  eexists _, _. split; [reflexivity|]. simpl. rewrite Hi.
  rewrite or_else_truthy by reflexivity.
  rewrite forallb_Forall by assumption. reflexivity.
Qed.

Lemma load_panel_throws (p : value) (r : randomness) :
  panel_ok p = false -> exists e, load_panel p r = Throw e.
Proof.
  unfold panel_ok, load_panel, rd, bind, lift. intros H.
  destruct (nullish p) eqn:Hn.
  { rewrite (get_nullish _ _ Hn). eauto. }
  simpl in H. rewrite !(get_member _ _ Hn).
  destruct ((if ToBoolean (member p "id") then ret (member p "id") else uid) r)
    as [[i r']|e] eqn:Ei; [|eauto].
  destruct (member p "elements") as [| | | | |els|]; try discriminate.
  pose proof (sanitize_all els r') as Hall. rewrite H in Hall.
  destruct Hall as (e & ->). eauto.
Qed.

Lemma load_panels (ps : list value) (r : randomness) :
  if forallb panel_ok ps
  then exists pans r', mapM load_panel ps r = Ok (pans, r')
                       /\ Forall (fun pan => valid_panel pan = true) pans
  else exists e, mapM load_panel ps r = Throw e.
Proof.
  apply mapM_all.
  - intros. apply load_panel_ok. assumption.
  - intros. apply load_panel_throws. assumption.
Qed.

Lemma key_in_converts (v : value) (own : list string) :
  match key_in v own with
  | Ok _ => converts v = true
  | Throw _ => converts v = false
  end.
Proof.
  unfold key_in, ToPropertyKey, converts, rbind.
  destruct (ToString v); reflexivity.
Qed.

(** [load_document] succeeds exactly on the loadable documents, and what it
    builds is well formed. *)
Lemma load_document_outcome (doc : value) (r : randomness) :
  if loadable doc
  then exists p r', load_document doc r = Ok (p, r') /\ valid_page p = true
  else exists e, load_document doc r = Throw e.
Proof.
  unfold loadable, shape_ok, load_document, rd, bind, lift.
  destruct (ToBoolean doc) eqn:Hd; simpl; [|eauto].
  assert (Hn : nullish doc = false) by (destruct doc; auto; discriminate).
  rewrite !(get_member _ _ Hn).
  destruct (member doc "panels") as [| | | | |ps|]; simpl; eauto.
  pose proof (key_in_converts (member doc "layout") LAYOUT_keys) as Hk.
  destruct (key_in (member doc "layout") LAYOUT_keys) as [known|e];
    rewrite Hk; simpl; [|eauto].
  pose proof (load_panels ps r) as Hps.
  destruct (forallb panel_ok ps).
  - destruct Hps as (pans & r' & -> & Hpans).
    eexists _, _. split; [reflexivity|].
    unfold valid_page. simpl. apply forallb_Forall. assumption.
  - destruct Hps as (e & ->). eauto.
Qed.

(* ===================================================================== *)
(** * Loading: properties C2, C3, C6, C10 and C1 *)
(* ===================================================================== *)

(** ** C2 *)

(** C2, on the inputs that break it.  A document whose [panels] array
    holds [null] passes the test that [loadJSON] makes itself ([doc] is
    truthy and [doc.panels] is an array), and yet it is answered by the
    alert and the page stays: [p.id] of the [null] entry throws inside the
    [try], before anything is drawn.  The same happens for a [null] among
    the entries of an [elements] array, where [el.type] throws once the id
    of the panel has been drawn.  Every other entry is repaired by the same
    callbacks: a number, a string and an empty object become three empty
    white panels with drawn ids, and a number where an element is expected
    becomes a speech text with the defaults.  Whatever else the file holds,
    a [null] among its panel entries is answered by the alert. *)
Theorem loadJSON_rejects_null_entries (w : World) (r : randomness) :
  let file panels := Ok (Obj [("layout", Str "4"); ("panels", Arr panels)]) in
  let white i := {| id := i; bg := Str "#ffffff"; elements := [] |} in
  shape_ok (Obj [("layout", Str "4"); ("panels", Arr [Null])]) = true
  /\ loadJSON (file [Null]) w r = (alert "Invalid JSON." w, r)
  /\ shape_ok (Obj [("layout", Str "4");
                    ("panels", Arr [Obj [("elements", Arr [Null])]])]) = true
  /\ loadJSON (file [Obj [("elements", Arr [Null])]]) w r
     = (alert "Invalid JSON." w, after_draw r)
  /\ loadJSON (file [lit 7; Str "x"; Obj []]) w r
     = (with_page w
          {| layout := Str "4";
             panels := [ white (drawn r);
                         white (drawn (advance 1 r));
                         white (drawn (advance 2 r)) ] |},
        advance 3 r)
  /\ (exists el,
        loadJSON (file [Obj [("id", Str "a"); ("elements", Arr [lit 7])]]) w r
        = (with_page w
             {| layout := Str "4";
                panels := [ {| id := Str "a"; bg := Str "#ffffff";
                               elements := [el] |} ] |},
           after_draw r)
        /\ valid_text el = true
        /\ field el "id" = drawn r
        /\ field el "text" = Str ""
        /\ field el "subtype" = Str "speech")
  /\ (forall l before after,
        shape_ok (Obj [("layout", l);
                       ("panels", Arr (before ++ Null :: after))]) = true
        /\ exists r',
             loadJSON (Ok (Obj [("layout", l);
                                ("panels", Arr (before ++ Null :: after))]))
                      w r
             = (alert "Invalid JSON." w, r')).
Proof.
  split; [reflexivity|]. split; [reflexivity|]. split; [reflexivity|].
  split; [reflexivity|]. split; [reflexivity|].
  split.
  { eexists. split; [reflexivity|]. repeat split. }
  intros l before after. split; [reflexivity|].
  unfold loadJSON, bind, lift.
  pose proof (load_document_outcome
                (Obj [("layout", l); ("panels", Arr (before ++ Null :: after))])
                r) as H.
  assert (Hl : loadable (Obj [("layout", l);
                              ("panels", Arr (before ++ Null :: after))])
               = false).
  { unfold loadable.
    cbn [member field lookup_prop String.eqb Ascii.eqb Bool.eqb].
    rewrite forallb_app. cbn [forallb panel_ok nullish negb andb].
    rewrite !andb_false_r. reflexivity. }
  rewrite Hl in H. destruct H as ([x r'] & ->). exists r'. reflexivity.
Qed.

(** ** C3 *)

(** What holds for every input: each measure of a sanitized element is a
    number that lies in its range or is NaN. *)
Lemma sanitizeElement_ranges (el : value) (r r' : randomness) (o : obj) :
  sanitizeElement el r = Ok (o, r') ->
  forallb (fun kr => in_range_or_nan o (fst kr) (fst (snd kr)) (snd (snd kr)))
          (ranges o) = true.
Proof.
  intros H. apply sanitizeElement_inv in H as (_ & H & _).
  eapply sanitized_ranges. eassumption.
Qed.

(** C3, on the input that breaks it.  The text element
    [{ "type": "text", "x": "abc" }] is sanitized to an element whose [x] is
    NaN, which is not in [[0, 10000]]: [Math.min(10000, "abc")] is NaN and
    [Math.max(0, NaN)] is NaN.  Its other measures, all absent, are the
    defaults 24, 200, 80, 20, 16 and 600. *)
Theorem sanitizeElement_NaN_escapes_clamp :
  match result_of (sanitizeElement (Obj [("type", Str "text"); ("x", Str "abc")]))
                  sample_random with
  | Some o =>
      field o "x" = Num NaN
      /\ in_range o "x" 0 10000 = false
      /\ element_in_range o = false
      /\ map (field o) ["y"; "w"; "h"; "fontSize"; "radius"; "weight"]
         = [lit 24; lit 200; lit 80; lit 20; lit 16; lit 600]
  | None => False
  end.
Proof. vm_compute. repeat split; reflexivity. Qed.

(** ** C6 *)

(** The layout that [loadJSON] installs for a [layout] that is a string. *)
Lemma load_document_layout (doc : value) (k : string) (r r' : randomness)
    (p : Page) :
  member doc "layout" = Str k ->
  load_document doc r = Ok (p, r') ->
  layout p = if is_key_of LAYOUT_keys k || is_key_of Object_prototype_keys k
             then Str k else Str "4".
Proof.
  intros Hk. unfold load_document, rd, bind, lift.
  destruct (ToBoolean doc) eqn:Hd; [|discriminate].
  assert (Hn : nullish doc = false) by (destruct doc; auto; discriminate).
  rewrite !(get_member _ _ Hn), Hk.
  destruct (member doc "panels") as [| | | | |ps|]; try discriminate.
  unfold key_in, ToPropertyKey, rbind. cbn [ToString].
  destruct (mapM load_panel ps r) as [[pans r1]|e]; [|discriminate].
  unfold ret. intros H. injection H as <- <-. reflexivity.
Qed.

(** C6, on the input that breaks it.  [ "toString" in LAYOUTS ] is true,
    because [in] also finds what an object inherits; so a file whose
    [layout] is ["toString"] keeps it, although it is none of ['1'], ['2h'],
    ['2v'], ['4'].  A [layout] that is neither a preset nor inherited, such
    as ["3"], is replaced by ['4'], and a preset is kept. *)
Theorem load_keeps_inherited_layout :
  let load l := layout <$> result_of
                  (load_document (Obj [("layout", Str l); ("panels", Arr [])]))
                  sample_random in
  is_key_of LAYOUT_keys "toString" = false
  /\ load "toString" = Some (Str "toString")
  /\ load "3" = Some (Str "4")
  /\ load "2v" = Some (Str "2v").
Proof. repeat split; reflexivity. Qed.

(** ** C10 *)

(** C10.  For every element that the sanitizer accepts, the sanitized
    element carries [z] and [rotate] exactly as given whenever they are
    present, whatever the value; when [z] is absent ([undefined] or [null])
    it is 0 for an image and 1 for a text, and an absent [rotate] is 0. *)
Theorem sanitizeElement_z_rotate (el : value) (r : randomness) :
  element_ok el = true ->
  exists o,
    sanitizeElement el r = Ok (o, after_draw r)
    /\ (nullish (member el "z") = false -> field o "z" = member el "z")
    /\ (nullish (member el "z") = true ->
        field o "z" = if is_image o then lit 0 else lit 1)
    /\ (nullish (member el "rotate") = false ->
        field o "rotate" = member el "rotate")
    /\ (nullish (member el "rotate") = true -> field o "rotate" = lit 0).
Proof.
  intros Hok. destruct (sanitizeElement_ok el r Hok) as (o & Ho & Hs).
  exists o. split; [assumption|].
  destruct (sanitized_z_rotate _ _ _ Hs) as [Hz Hr].
  rewrite (sanitized_type _ _ _ Hs), Hz, Hr. unfold nullish_or.
  repeat split; intros ->; reflexivity.
Qed.

(** A text with [z = -5] and [rotate = 1e21] keeps both. *)
Lemma sanitizeElement_z_rotate_witness :
  let el := Obj [ ("type", Str "text"); ("z", lit (-5));
                  ("rotate", Num (StringToNumber "1e21")) ] in
  element_ok el = true
  /\ exists o,
       sanitizeElement el sample_random = Ok (o, after_draw sample_random)
       /\ field o "z" = lit (-5)
       /\ field o "rotate" = Num (StringToNumber "1e21").
Proof.
  split; [reflexivity|].
  destruct (sanitizeElement_z_rotate
              (Obj [ ("type", Str "text"); ("z", lit (-5));
                     ("rotate", Num (StringToNumber "1e21")) ])
              sample_random eq_refl)
    as (o & Ho & Hz & _ & Hr & _).
  exists o. split; [exact Ho|]. split; [exact (Hz eq_refl) | exact (Hr eq_refl)].
Defined.

(** ** C1 *)

(** The id of a sanitized element is the one just drawn, whatever id the
    input carried. *)
Lemma sanitizeElement_id (el : value) (r r' : randomness) (o : obj) :
  sanitizeElement el r = Ok (o, r') -> field o "id" = drawn r.
Proof.
  intros H. apply sanitizeElement_inv in H as (_ & H & _).
  eapply sanitized_id. eassumption.
Qed.

(** Sanitizing a sanitized element again succeeds, and changes the id, to
    the one drawn then, and no other property. *)
Lemma sanitizeElement_twice (el : value) (r r' s : randomness) (o : obj) :
  sanitizeElement el r = Ok (o, r') ->
  sanitizeElement (Obj o) s = Ok (set_prop "id" (drawn s) o, after_draw s).
Proof.
  intros H. apply sanitizeElement_inv in H as (_ & H & _).
  rewrite sanitizeElement_eq. cbn [nullish].
  rewrite (sanitized_again _ _ (drawn s) _ H). reflexivity.
Qed.

(** C1, on the input that breaks it.  A new document to which one speech
    text is added is saved and loaded again: the element that comes back has
    another id than the one saved, because [sanitizeElement] spreads
    [defaultText(subtype)], whose [id] is [uid()], and never copies [el.id];
    every other property comes back as saved.  The panels keep their ids. *)
Theorem reload_redraws_element_id :
  match result_of (p <- DEFAULT_PAGE ;;
                   p0 <- addText 0 (Str "speech") p ;;
                   p1 <- reload p0 ;;
                   ret (p0, p1))%eff sample_random with
  | Some (p0, p1) =>
      match element_at p0 0 0, element_at p1 0 0 with
      | Some e0, Some e1 =>
          field e0 "id" = Str "eq7w2m9"
          /\ field e1 "id" = Str "fq7w2m9"
          /\ e1 = set_prop "id" (Str "fq7w2m9") e0
          /\ map id (panels p1) = map id (panels p0)
      | _, _ => False
      end
  | None => False
  end.
Proof. vm_compute. repeat split; reflexivity. Qed.

(* ===================================================================== *)
(** * Mutations *)
(* ===================================================================== *)

(** ** Objects *)

Lemma field_set_prop_eq (k : string) (v : value) (o : obj) :
  field (set_prop k v o) k = v.
Proof.
  unfold field. induction o as [|[k' v'] o IH]; simpl.
  - rewrite String.eqb_refl. reflexivity.
  - destruct (k =? k')%string eqn:E; simpl.
    + rewrite String.eqb_refl. reflexivity.
    + rewrite E. exact IH.
Qed.

Lemma field_set_prop_ne (k k' : string) (v : value) (o : obj) :
  (k' =? k)%string = false -> field (set_prop k v o) k' = field o k'.
Proof.
  intros Hne. unfold field. induction o as [|[k0 v0] o IH]; simpl.
  - rewrite Hne. reflexivity.
  - destruct (k =? k0)%string eqn:E; simpl.
    + apply String.eqb_eq in E. subst k0. rewrite Hne. reflexivity.
    + destruct (k' =? k0)%string; [reflexivity | exact IH].
Qed.

(** A patch leaves alone the properties that it does not name. *)
Lemma field_spread_other (o patch : obj) (k : string) :
  is_key_of (keys patch) k = false -> field (spread o patch) k = field o k.
Proof.
  unfold spread. revert o.
  induction patch as [|[k0 v0] patch IH]; intros o H; simpl in *.
  - reflexivity.
  - apply orb_false_iff in H as [Hk Hrest].
    rewrite IH by assumption. apply field_set_prop_ne. assumption.
Qed.

(** ** Lists *)

Lemma lookup_map {A B} (f : A -> B) (l : list A) (i : nat) :
  map f l !! i = f <$> (l !! i).
Proof.
  revert i. induction l as [|x l IH]; intros [|i]; simpl; auto.
Qed.

Lemma forallb_imap {A} (P : A -> bool) (f : nat -> A -> A) (l : list A) :
  (forall i x, P x = true -> P (f i x) = true) ->
  forallb P l = true -> forallb P (imap f l) = true.
Proof.
  revert f. induction l as [|x l IH]; intros f Hf H; simpl in *.
  - reflexivity.
  - apply andb_true_iff in H as [Hx Hl].
    rewrite Hf by assumption. simpl. apply IH; [|assumption].
    intros i y. apply Hf.
Qed.

Lemma forallb_map_keep {A} (P : A -> bool) (f : A -> A) (l : list A) :
  (forall x, P x = true -> P (f x) = true) ->
  forallb P l = true -> forallb P (map f l) = true.
Proof.
  intros Hf. induction l as [|x l IH]; simpl; intros H; [reflexivity|].
  apply andb_true_iff in H as [Hx Hl].
  rewrite Hf, IH by assumption. reflexivity.
Qed.

Lemma forallb_filter_keep {A} (P q : A -> bool) (l : list A) :
  forallb P l = true -> forallb P (List.filter q l) = true.
Proof.
  induction l as [|x l IH]; simpl; intros H; [reflexivity|].
  apply andb_true_iff in H as [Hx Hl].
  destruct (q x); simpl; rewrite ?Hx, IH by assumption; reflexivity.
Qed.

Lemma forallb_lookup {A} (P : A -> bool) (l : list A) (i : nat) (x : A) :
  forallb P l = true -> l !! i = Some x -> P x = true.
Proof.
  revert i. induction l as [|y l IH]; intros [|i] H Hi; simpl in *;
    try discriminate; apply andb_true_iff in H as [Hy Hl].
  - injection Hi as <-. assumption.
  - eapply IH; eassumption.
Qed.

(** ** Where a mutation acts *)

(** [mutateElement] patches the elements of panel [pIdx] whose id is [eId],
    and leaves every other element of the page as it is. *)
Lemma mutateElement_at (pIdx : nat) (eId : value) (patch : obj) (p : Page)
    (i j : nat) :
  element_at (mutateElement pIdx eId patch p) i j
  = (fun el => if (i =? pIdx)%nat && strict_eq (field el "id") eId
               then spread el patch else el) <$> element_at p i j.
Proof.
  unfold element_at, mutateElement. simpl.
  rewrite list_lookup_imap.
  destruct (panels p !! i) as [pan|]; simpl; [|reflexivity].
  destruct (i =? pIdx)%nat; simpl.
  - rewrite lookup_map. reflexivity.
  - destruct (elements pan !! j); reflexivity.
Qed.

Lemma mutateElement_lookup (pIdx : nat) (eId : value) (patch : obj) (p : Page)
    (i : nat) :
  panels (mutateElement pIdx eId patch p) !! i
  = (fun pan =>
       if (i =? pIdx)%nat
       then {| id := id pan; bg := bg pan;
               elements := map (fun el => if strict_eq (field el "id") eId
                                          then spread el patch else el)
                               (elements pan) |}
       else pan) <$> panels p !! i.
Proof.
  unfold mutateElement. simpl. rewrite list_lookup_imap.
  destruct (panels p !! i); [|reflexivity]. simpl.
  destruct (i =? pIdx)%nat; reflexivity.
Qed.

Lemma find_map_keep {A} (f : A -> bool) (g : A -> A) (l : list A) :
  (forall x, f (g x) = f x) ->
  List.find f (map g l) = g <$> List.find f l.
Proof.
  intros H. induction l as [|x l IH]; [reflexivity|]. simpl.
  rewrite H. destruct (f x); [reflexivity | exact IH].
Qed.

(** The element that [find] gives after a patch is the patched one. *)
Lemma find_element_mutate (pIdx : nat) (eId : value) (patch : obj) (p : Page) :
  is_key_of (keys patch) "id" = false ->
  find_element (mutateElement pIdx eId patch p) pIdx eId
  = (fun el => spread el patch) <$> find_element p pIdx eId.
Proof.
  intros Hid. unfold find_element. rewrite mutateElement_lookup.
  destruct (panels p !! pIdx) as [pan|]; [|reflexivity]. simpl.
  rewrite Nat.eqb_refl. simpl.
  rewrite (find_map_keep (fun x => strict_eq (field x "id") eId)).
  - destruct (List.find _ (elements pan)) as [el|] eqn:Hf; [|reflexivity].
    simpl. apply find_some in Hf as [_ Hf]. rewrite Hf. reflexivity.
  - intros el. destruct (strict_eq (field el "id") eId) eqn:E; [|exact E].
    rewrite field_spread_other by assumption. exact E.
Qed.

(** ** Ranges under mutation *)

Lemma in_range_spread (o patch : obj) (k : string) (lo hi : Z) :
  is_key_of (keys patch) k = false ->
  in_range (spread o patch) k lo hi = in_range o k lo hi.
Proof. intros H. unfold in_range. rewrite field_spread_other; auto. Qed.

Lemma is_key_of_leaves (patch : obj) (k : string) :
  leaves_ranges patch = true -> is_key_of ranged_keys k = true ->
  is_key_of (keys patch) k = false.
Proof.
  unfold leaves_ranges. intros Hl Hk.
  induction (keys patch) as [|k0 ks IH]; simpl in *; [reflexivity|].
  apply andb_true_iff in Hl as [H0 Hl].
  rewrite IH by assumption. rewrite orb_false_r.
  destruct (k =? k0)%string eqn:E; [|reflexivity].
  apply String.eqb_eq in E. subst k0. rewrite Hk in H0. discriminate.
Qed.

Lemma element_in_range_spread (o patch : obj) :
  leaves_ranges patch = true ->
  element_in_range (spread o patch) = element_in_range o.
Proof.
  intros Hl. unfold element_in_range, ranges, is_image.
  rewrite (field_spread_other o patch "type")
    by (apply is_key_of_leaves; auto).
  destruct (strict_eq (field o "type") (Str "image")); cbn [forallb fst snd];
    rewrite !in_range_spread by (apply is_key_of_leaves; auto);
    reflexivity.
Qed.

Lemma mutateElement_in_range (pIdx : nat) (eId : value) (patch : obj)
    (p : Page) :
  leaves_ranges patch = true ->
  page_in_range p = true ->
  page_in_range (mutateElement pIdx eId patch p) = true.
Proof.
  intros Hl. unfold page_in_range, mutateElement. simpl.
  apply forallb_imap. intros i pan Hpan.
  destruct (i =? pIdx)%nat; simpl; [|assumption].
  apply forallb_map_keep; [|assumption].
  intros el Hel. destruct (strict_eq (field el "id") eId); [|assumption].
  rewrite element_in_range_spread; assumption.
Qed.

Lemma remove_from_in_range (pIdx : nat) (eId : value) (p : Page) :
  page_in_range p = true -> page_in_range (remove_from pIdx eId p) = true.
Proof.
  unfold page_in_range, remove_from. simpl.
  apply forallb_imap. intros i pan Hpan.
  destruct (i =? pIdx)%nat; simpl; [|assumption].
  apply forallb_filter_keep. assumption.
Qed.

Lemma setPanel_bg_in_range (idx : nat) (v : value) (p : Page) :
  page_in_range p = true ->
  page_in_range (setPanel idx (patch_bg v) p) = true.
Proof.
  unfold page_in_range, setPanel. simpl.
  apply forallb_imap. intros i pan Hpan.
  destruct (i =? idx)%nat; simpl; assumption.
Qed.

(** A new text element is in range, whatever subtype it is given. *)
Lemma defaultText_in_range (st : value) (r r' : randomness) (o : obj) :
  defaultText st r = Ok (o, r') -> element_in_range o = true.
Proof.
  unfold defaultText, uid, random_string, bind, ret.
  intros H. injection H as <- _.
  unfold element_in_range, ranges, is_image.
  cbn [field lookup_prop String.eqb Ascii.eqb Bool.eqb strict_eq].
  destruct (strict_eq st (Str "sfx")), (strict_eq st (Str "speech"));
    reflexivity.
Qed.

Lemma addText_in_range (idx : nat) (st : value) (p p' : Page)
    (r r' : randomness) :
  page_in_range p = true ->
  addText idx st p r = Ok (p', r') -> page_in_range p' = true.
Proof.
  intros Hp. unfold addText, bind, lift, elements_at.
  destruct (panels p !! idx) as [pan|] eqn:Epan; [|discriminate].
  destruct (defaultText st r) as [[el r1]|e] eqn:Eel; [|discriminate].
  unfold ret. intros H. injection H as <- _.
  unfold page_in_range, setPanel. simpl.
  unfold page_in_range in Hp.
  pose proof (forallb_lookup _ _ _ _ Hp Epan) as Hpan. simpl in Hpan.
  apply forallb_imap; [|assumption].
  intros i pan' Hpan'. destruct (i =? idx)%nat; simpl; [|assumption].
  rewrite forallb_app, Hpan. simpl.
  rewrite (defaultText_in_range _ _ _ _ Eel). reflexivity.
Qed.

Lemma plus_numbers (a b : num) : plus (Num a) (Num b) = Ok (Num (add a b)).
Proof. reflexivity. Qed.

Lemma is_key_of_cases (l : list string) (k : string) :
  is_key_of l k = true -> In k l.
Proof.
  induction l as [|k0 l IH]; simpl; intros H; [discriminate|].
  apply orb_true_iff in H as [H|H]; [left | right; auto].
  apply String.eqb_eq in H. auto.
Qed.

(** The keys that delete or restack keep every measure. *)
Lemma onKey_in_range (tag : option string) (ev : KeyboardEvent) (w w' : World) :
  page_in_range (page w) = true ->
  is_key_of ["]"; "["; "Delete"; "Backspace"] (key ev) = true ->
  onKey tag ev w = Ok w' ->
  page_in_range (page w') = true.
Proof.
  intros Hp Hk. destruct ev as [k sh]. cbn [key] in Hk.
  apply is_key_of_cases in Hk.
  unfold onKey. destruct tag as [t|]; [|intros H; injection H as <-; exact Hp].
  destruct ((t =? "INPUT")%string || (t =? "TEXTAREA")%string);
    [intros H; injection H as <-; exact Hp|].
  destruct (nullish (elId (selection w)));
    [intros H; injection H as <-; exact Hp|].
  simpl in Hk. destruct Hk as [<-|[<-|[<-|[<-|[]]]]]; cbn [key shiftKey].
  - cbv [String.eqb Ascii.eqb Bool.eqb orb is_key_of existsb].
    destruct (find_element _ _ _) as [el|];
      [|intros H; injection H as <-; exact Hp].
    unfold rbind.
    destruct (plus _ _) as [nz|e]; [|discriminate].
    intros H. injection H as <-. simpl.
    apply mutateElement_in_range; [reflexivity | exact Hp].
  - cbv [String.eqb Ascii.eqb Bool.eqb orb is_key_of existsb].
    destruct (find_element _ _ _) as [el|];
      [|intros H; injection H as <-; exact Hp].
    unfold rbind.
    destruct (minus _ _) as [d|e]; [|discriminate].
    destruct (Math_max2 _ _) as [nz|e]; [|discriminate].
    intros H. injection H as <-. simpl.
    apply mutateElement_in_range; [reflexivity | exact Hp].
  - cbv [String.eqb Ascii.eqb Bool.eqb orb].
    intros H. injection H as <-. simpl.
    apply remove_from_in_range. exact Hp.
  - cbv [String.eqb Ascii.eqb Bool.eqb orb].
    intros H. injection H as <-. simpl.
    apply remove_from_in_range. exact Hp.
Qed.

(** ** C4 *)

(** A text element at [x = 0], as a loaded file gives it, is in range; one
    press of the left arrow puts it at [x = -1], and one resize gesture that
    shrinks it by 500 puts its width at 20, below the 40 of a text: neither
    the nudge nor the gesture clamps.  Nor does [addImage]: an image whose
    natural size is 4 by 4 is added (to the page shown, which no other
    update has changed meanwhile) with [w = 4] and [h = 4], below 10. *)
Lemma nudge_and_resize_leave_the_ranges :
  match result_of
          (load_document
             (Obj [ ("layout", Str "1");
                    ("panels",
                     Arr [Obj [("elements", Arr [Obj [("x", lit 0)]])]]) ]))
          sample_random with
  | Some p =>
      let w := with_selection (with_page sample_world p)
                 {| panelIdx := 0; elId := Str "bq7w2m9" |} in
      page_in_range p = true
      /\ match onKey (Some "BODY") {| key := "ArrowLeft"; shiftKey := false |} w
         with
         | Ok w' =>
             (fun el => field el "x") <$> element_at (page w') 0 0
             = Some (lit (-1))
             /\ page_in_range (page w') = false
         | Throw _ => False
         end
      /\ match move 0
                 (Some {| drag_id := Str "bq7w2m9"; kind := "resize";
                          startX := of_Z 300; startY := of_Z 300;
                          startRect := [ ("x", lit 0); ("y", lit 24);
                                         ("w", lit 200); ("h", lit 80) ] |})
                 {| clientX := of_Z (-200); clientY := of_Z 300 |} p
         with
         | Ok p' =>
             (fun el => field el "w") <$> element_at p' 0 0 = Some (lit 20)
             /\ page_in_range p' = false
         | Throw _ => False
         end
      /\ match result_of
                 (addImage 0 (Str "blob:4x4")
                           (Obj [("width", lit 4); ("height", lit 4)]) p p)
                 sample_random with
         | Some p' =>
             (fun el => field el "w") <$> element_at p' 0 1 = Some (lit 4)
             /\ page_in_range p' = false
         | None => False
         end
  | None => False
  end.
Proof. vm_compute. repeat split; reflexivity. Qed.

(** C4, as amended.  The ranges are enforced when a document is loaded, not
    at the mutations.  On a page whose measures are in range, these
    mutations keep them in range: removing an element, patching a panel's
    background, adding a new text element, patching an element with a patch
    that names no measure (nor [type]), and the keys [']'], ['['], [Delete]
    and [Backspace]. *)
Theorem mutations_that_keep_ranges (p : Page) :
  page_in_range p = true ->
  (forall i e, page_in_range (remove_from i e p) = true)
  /\ (forall i v, page_in_range (setPanel i (patch_bg v) p) = true)
  /\ (forall i st r p' r',
        addText i st p r = Ok (p', r') -> page_in_range p' = true)
  /\ (forall i e patch,
        leaves_ranges patch = true ->
        page_in_range (mutateElement i e patch p) = true)
  /\ (forall w tag ev w',
        page w = p ->
        is_key_of ["]"; "["; "Delete"; "Backspace"] (key ev) = true ->
        onKey tag ev w = Ok w' ->
        page_in_range (page w') = true).
Proof.
  intros Hp. repeat split.
  - intros. apply remove_from_in_range. assumption.
  - intros. apply setPanel_bg_in_range. assumption.
  - intros. eapply addText_in_range; eassumption.
  - intros. apply mutateElement_in_range; assumption.
  - intros w tag ev w' <- Hk H. eapply onKey_in_range; eassumption.
Qed.

(** On the sample page with a text added: the page is in range, and stays
    so when the text is removed, restacked or recoloured. *)
Lemma mutations_that_keep_ranges_witness :
  page_in_range sample_text_page = true
  /\ element_at sample_text_page 0 0 <> None
  /\ page_in_range (remove_from 0 (Str "aq7w2m9") sample_text_page) = true
  /\ page_in_range (mutateElement 0 (Str "aq7w2m9")
                      [("z", lit 5); ("color", Str "#ff0000")]
                      sample_text_page) = true.
Proof.
  split; [reflexivity|]. split; [discriminate|].
  pose proof (mutations_that_keep_ranges sample_text_page eq_refl) as H.
  split; [apply H | apply H; reflexivity].
Defined.

(** ** C5 *)

Lemma timesM_fresh (n : nat) (r : randomness) :
  exists pans r',
    timesM n fresh_panel r = Ok (pans, r')
    /\ length pans = n
    /\ Forall (fun pan => empty_panel pan = true) pans.
Proof.
  revert r. induction n as [|n IH]; intros r; simpl.
  - exists [], r. repeat split. constructor.
  - unfold bind at 1. unfold fresh_panel at 1, uid, random_string, bind, ret.
    destruct (IH (after_draw r)) as (pans & r' & Hpans & Hlen & Hall).
    unfold after_draw in Hpans. rewrite Hpans.
    eexists _, r'. split; [reflexivity|]. split; [simpl; lia|].
    constructor; [reflexivity | assumption].
Qed.

(** The layout effect on a page whose layout is a preset: the panels are
    cut or padded to the count of the preset. *)
Lemma sync_panels_preset (k : string) (pr : preset) (p : Page) (r : randomness) :
  own_preset k LAYOUTS = Some pr ->
  layout p = Str k ->
  exists pushed r',
    sync_panels p r
    = Ok ({| layout := Str k;
             panels := take (preset_panels pr) (panels p) ++ pushed |}, r')
    /\ length pushed = (preset_panels pr - length (panels p))%nat
    /\ Forall (fun pan => empty_panel pan = true) pushed.
Proof.
  intros Hk Hl. unfold sync_panels, bind, lift, LAYOUTS_panels, ToPropertyKey.
  rewrite Hl. cbn [ToString rbind]. rewrite Hk.
  destruct (timesM_fresh
              (preset_panels pr - length (take (preset_panels pr) (panels p))) r)
    as (pushed & r' & -> & Hlen & Hall).
  exists pushed, r'. split; [reflexivity|]. split; [|assumption].
  rewrite Hlen, length_take. lia.
Qed.

Lemma sync_panels_rule (k : string) (pr : preset) (p : Page) (r : randomness) :
  own_preset k LAYOUTS = Some pr ->
  exists p' r',
    sync_panels (setLayout (Str k) p) r = Ok (p', r')
    /\ layout p' = Str k
    /\ length (panels p') = preset_panels pr
    /\ (forall i, (i < length (panels p))%nat -> (i < preset_panels pr)%nat ->
                  panels p' !! i = panels p !! i)
    /\ (forall i pan, (length (panels p) <= i)%nat ->
                      panels p' !! i = Some pan -> empty_panel pan = true).
Proof.
  intros Hk.
  destruct (sync_panels_preset k pr (setLayout (Str k) p) r Hk eq_refl)
    as (pushed & r' & Hs & Hlen & Hall).
  simpl in Hs, Hlen.
  eexists _, r'. split; [exact Hs|]. simpl.
  split; [reflexivity|]. split; [|split].
  - rewrite length_app, length_take, Hlen. lia.
  - intros i Hi Hn. rewrite lookup_app_l by (rewrite length_take; lia).
    apply lookup_take_lt. assumption.
  - intros i pan Hi Hpan.
    rewrite lookup_app_r in Hpan by (rewrite length_take; lia).
    exact (Forall_lookup_1 (fun pan => empty_panel pan = true) _ _ _ Hall Hpan).
Qed.

(** C5.  Whenever the layout is set to a preset, the effect that follows
    leaves exactly as many panels as the preset counts; every panel at an
    index that both sequences have is the panel that was there; every panel
    past the old length is a new empty white panel.  In particular, going
    from four panels to layout ['1'] and back to ['4'] keeps panel 0 as it
    was and gives three new empty panels at 1, 2 and 3. *)
Theorem layout_sync_rule :
  (forall (k : string) (pr : preset) (p : Page) (r : randomness),
      own_preset k LAYOUTS = Some pr ->
      exists p' r',
        sync_panels (setLayout (Str k) p) r = Ok (p', r')
        /\ layout p' = Str k
        /\ length (panels p') = preset_panels pr
        /\ (forall i, (i < length (panels p))%nat -> (i < preset_panels pr)%nat ->
                      panels p' !! i = panels p !! i)
        /\ (forall i pan, (length (panels p) <= i)%nat ->
                          panels p' !! i = Some pan -> empty_panel pan = true))
  /\ (forall (p : Page) (r : randomness),
        length (panels p) = 4%nat ->
        exists p1 r1 p2 r2,
          sync_panels (setLayout (Str "1") p) r = Ok (p1, r1)
          /\ sync_panels (setLayout (Str "4") p1) r1 = Ok (p2, r2)
          /\ length (panels p1) = 1%nat
          /\ length (panels p2) = 4%nat
          /\ panels p2 !! 0%nat = panels p !! 0%nat
          /\ (forall i pan, (1 <= i)%nat -> panels p2 !! i = Some pan ->
                            empty_panel pan = true)).
Proof.
  split; [exact sync_panels_rule|].
  intros p r Hp.
  destruct (sync_panels_rule "1" _ p r eq_refl)
    as (p1 & r1 & Hs1 & _ & Hlen1 & Hkeep1 & _).
  destruct (sync_panels_rule "4" _ p1 r1 eq_refl)
    as (p2 & r2 & Hs2 & _ & Hlen2 & Hkeep2 & Hnew2).
  simpl in Hlen1, Hlen2, Hkeep1, Hkeep2.
  exists p1, r1, p2, r2. repeat split; try assumption.
  - rewrite Hkeep2 by lia. apply Hkeep1; lia.
  - intros i pan Hi. apply Hnew2. lia.
Qed.

(** On the sample page with a text in panel 0: a round through layout ['1']
    keeps that panel, text included. *)
Lemma layout_sync_rule_witness :
  length (panels sample_text_page) = 4%nat
  /\ exists p1 r1 p2 r2,
       sync_panels (setLayout (Str "1") sample_text_page) sample_random
       = Ok (p1, r1)
       /\ sync_panels (setLayout (Str "4") p1) r1 = Ok (p2, r2)
       /\ length (panels p1) = 1%nat
       /\ length (panels p2) = 4%nat
       /\ panels p2 !! 0%nat = panels sample_text_page !! 0%nat
       /\ (forall i pan, (1 <= i)%nat -> panels p2 !! i = Some pan ->
                         empty_panel pan = true).
Proof.
  split; [reflexivity|].
  exact (proj2 layout_sync_rule sample_text_page sample_random eq_refl).
Defined.

(** ** C8 *)

(** Above a finite, nonzero floor, [Math.max] returns its other argument. *)
Lemma Math_max_above (a x : num) :
  match a with S754_finite _ _ _ => true | _ => false end = true ->
  le a x = true -> Math_max a x = x.
Proof.
  destruct a as [| | |sa ma ea]; try discriminate. intros _.
  unfold le, SFleb, Math_max.
  destruct (SFcompare (S754_finite sa ma ea) x) as [[]|] eqn:E;
    try discriminate; intros _; [|reflexivity].
  destruct x as [sx|sx| |sx mx ex]; simpl in E.
  - destruct sa; discriminate.
  - destruct sa, sx; discriminate.
  - discriminate.
  - destruct sa, sx; try discriminate;
      destruct (ea ?= ex) eqn:Ee; try discriminate;
      apply Z.compare_eq in Ee; subst ex;
      injection E as E;
      [ apply (f_equal CompOpp) in E; rewrite CompOpp_involutive in E;
        simpl in E | ];
      apply Pos.compare_eq in E; subst mx; reflexivity.
Qed.

Lemma Math_max_floor_or_nan (a x : num) :
  is_nan a = false ->
  is_nan (Math_max a x) || le a (Math_max a x) = true.
Proof.
  intros Ha. destruct (is_nan x) eqn:Hx.
  - rewrite Math_max_nan, Hx, orb_true_r. reflexivity.
  - rewrite Math_max_floor by assumption. apply orb_true_r.
Qed.

(** Up to a finite, nonzero floor, [Math.max] returns the floor. *)
Lemma Math_max_below (a x : num) :
  match a with S754_finite _ _ _ => true | _ => false end = true ->
  le x a = true -> Math_max a x = a.
Proof.
  destruct a as [| | |sa ma ea]; try discriminate. intros _.
  unfold le, SFleb, Math_max. rewrite (SFcompare_antisym x).
  destruct (SFcompare x (S754_finite sa ma ea)) as [[]|]; simpl;
    try discriminate; reflexivity.
Qed.

(** The element that [find] gives once a patch that leaves [id] alone was
    committed: the one found before, patched. *)
Lemma find_element_committed (pIdx : nat) (eId : value) (patch : obj)
    (p : Page) (el : obj) :
  is_key_of (keys patch) "id" = false ->
  find_element p pIdx eId = Some el ->
  find_element (mutateElement pIdx eId patch p) pIdx eId
  = Some (spread el patch).
Proof.
  intros Hid Hel. rewrite find_element_mutate by assumption.
  rewrite Hel. reflexivity.
Qed.

(** A text whose [w] is ["abc"] in the file is loaded with [w = NaN]
    ([Math.min(10000, "abc")] is NaN); a resize gesture that starts on it
    anchors NaN, and a pointer move by [(10, 10)] commits [w = NaN], which
    is not at least 20, next to [h = 90]. *)
Lemma resize_from_NaN_is_not_floored :
  match result_of
          (load_document
             (Obj [ ("layout", Str "1");
                    ("panels",
                     Arr [Obj [("elements", Arr [Obj [("w", Str "abc")]])]]) ]))
          sample_random with
  | Some p =>
      match element_at p 0 0 with
      | Some el =>
          field el "w" = Num NaN
          /\ match move 0
                    (snd (startDrag 0 {| clientX := of_Z 300;
                                         clientY := of_Z 300 |}
                                    el "resize" (with_page sample_world p)))
                    {| clientX := of_Z 310; clientY := of_Z 310 |} p with
             | Ok p' =>
                 match find_element p' 0 (field el "id") with
                 | Some el' =>
                     field el' "w" = Num NaN
                     /\ in_range el' "w" 20 10000 = false
                     /\ le (of_Z 20) NaN = false
                     /\ field el' "h" = lit 90
                 | None => False
                 end
             | Throw _ => False
             end
      | None => False
      end
  | None => False
  end.
Proof. vm_compute. repeat split; reflexivity. Qed.

(** C8, as amended.  In a resize gesture anchored at a rectangle whose
    width and height are the numbers [w0] and [h0], a pointer move by
    [(dx, dy)] commits [w = Math.max(20, w0 + dx)] and
    [h = Math.max(20, h0 + dy)] and nothing else: the element found under
    the dragged id afterwards has exactly these two sizes, and every other
    property as before.  Each size is at least 20 whenever its sum is not
    NaN, which is so for every finite anchor and finite pointer
    coordinates; it is the sum whenever the sum is at least 20, so there is
    no cap, it is 20 whenever the sum is at most 20, and neither depends on
    the other.  From [w = 100, h = 50], a move by [(-200, -200)] commits
    [w = 20, h = 20].  On integers below 2^53 in absolute value the
    committed size is the integer [max 20 (s + (c - c0))], for a start size
    [s] and pointer coordinates [c0] at the start and [c] now. *)
Theorem resize_commit (idx : nat) (d : Drag) (e : PointerEvent) (p : Page)
    (w0 h0 : num) :
  kind d = "resize" ->
  field (startRect d) "w" = Num w0 ->
  field (startRect d) "h" = Num h0 ->
  let dx := sub (clientX e) (startX d) in
  let dy := sub (clientY e) (startY d) in
  let w1 := Math_max (of_Z 20) (add w0 dx) in
  let h1 := Math_max (of_Z 20) (add h0 dy) in
  let p' := mutateElement idx (drag_id d) [("w", Num w1); ("h", Num h1)] p in
  move idx (Some d) e p = Ok p'
  /\ (forall el,
        find_element p idx (drag_id d) = Some el ->
        exists el',
          find_element p' idx (drag_id d) = Some el'
          /\ field el' "w" = Num w1
          /\ field el' "h" = Num h1
          /\ (forall k, (k =? "w")%string = false ->
                        (k =? "h")%string = false ->
                        field el' k = field el k))
  /\ (is_nan (add w0 dx) = false -> le (of_Z 20) w1 = true)
  /\ (is_nan (add h0 dy) = false -> le (of_Z 20) h1 = true)
  /\ (finite w0 = true -> finite (clientX e) = true ->
      finite (startX d) = true -> le (of_Z 20) w1 = true)
  /\ (finite h0 = true -> finite (clientY e) = true ->
      finite (startY d) = true -> le (of_Z 20) h1 = true)
  /\ (le (of_Z 20) (add w0 dx) = true -> w1 = add w0 dx)
  /\ (le (of_Z 20) (add h0 dy) = true -> h1 = add h0 dy)
  /\ (le (add w0 dx) (of_Z 20) = true -> w1 = of_Z 20)
  /\ (le (add h0 dy) (of_Z 20) = true -> h1 = of_Z 20)
  /\ (forall i j,
        element_at p' i j
        = (fun el => if (i =? idx)%nat && strict_eq (field el "id") (drag_id d)
                     then set_prop "h" (Num h1) (set_prop "w" (Num w1) el)
                     else el) <$> element_at p i j)
  /\ Math_max (of_Z 20) (add (of_Z 100) (of_Z (-200))) = of_Z 20
  /\ Math_max (of_Z 20) (add (of_Z 50) (of_Z (-200))) = of_Z 20
  /\ (forall s c c0 : Z,
        Z.abs s < 2 ^ 53 -> Z.abs c < 2 ^ 53 -> Z.abs c0 < 2 ^ 53 ->
        Z.abs (c - c0) < 2 ^ 53 -> Z.abs (s + (c - c0)) < 2 ^ 53 ->
        Math_max (of_Z 20) (add (of_Z s) (sub (of_Z c) (of_Z c0)))
        = of_Z (Z.max 20 (s + (c - c0)))).
Proof.
  intros Hk Hw Hh dx dy w1 h1 p'.
  split.
  { unfold move. rewrite Hk, Hw, Hh. cbn [String.eqb Ascii.eqb Bool.eqb].
    rewrite !plus_numbers. reflexivity. }
  split.
  { intros el Hel. eexists. split.
    - apply find_element_committed; [reflexivity | exact Hel].
    - split; [|split].
      + unfold spread. simpl. rewrite field_set_prop_ne by reflexivity.
        apply field_set_prop_eq.
      + unfold spread. simpl. apply field_set_prop_eq.
      + intros k Hkw Hkh. apply field_spread_other. simpl.
        rewrite Hkw, Hkh. reflexivity. }
  split; [intros H; apply Math_max_floor; [reflexivity | exact H]|].
  split; [intros H; apply Math_max_floor; [reflexivity | exact H]|].
  split.
  { intros H0 Hc Hs. apply Math_max_floor; [reflexivity|].
    apply add_finite; [exact H0|]. apply sub_finite; [exact Hc|].
    destruct (startX d); try discriminate; reflexivity. }
  split.
  { intros H0 Hc Hs. apply Math_max_floor; [reflexivity|].
    apply add_finite; [exact H0|]. apply sub_finite; [exact Hc|].
    destruct (startY d); try discriminate; reflexivity. }
  split; [apply Math_max_above; reflexivity|].
  split; [apply Math_max_above; reflexivity|].
  split; [apply Math_max_below; reflexivity|].
  split; [apply Math_max_below; reflexivity|].
  split; [intros i j; apply mutateElement_at|].
  split; [reflexivity|]. split; [reflexivity|].
  intros s c c0 Hs Hc Hc0 Hd Hsum.
  rewrite sub_int_exact, add_int_exact by assumption.
  apply Math_max_of_Z; [reflexivity | assumption].
Qed.

(** The gesture of the example, on the text of the sample page: the text
    found afterwards is 20 wide and 20 high, and still at (24, 24). *)
Lemma resize_commit_witness :
  let d := {| drag_id := Str "aq7w2m9"; kind := "resize";
              startX := of_Z 400; startY := of_Z 300;
              startRect := [ ("x", lit 24); ("y", lit 24);
                             ("w", lit 100); ("h", lit 50) ] |} in
  let e := {| clientX := of_Z 200; clientY := of_Z 100 |} in
  exists p' el',
    move 0 (Some d) e sample_text_page = Ok p'
    /\ find_element p' 0 (Str "aq7w2m9") = Some el'
    /\ field el' "w" = lit 20 /\ field el' "h" = lit 20
    /\ field el' "x" = lit 24 /\ field el' "y" = lit 24.
Proof.
  destruct (resize_commit 0
              {| drag_id := Str "aq7w2m9"; kind := "resize";
                 startX := of_Z 400; startY := of_Z 300;
                 startRect := [ ("x", lit 24); ("y", lit 24);
                                ("w", lit 100); ("h", lit 50) ] |}
              {| clientX := of_Z 200; clientY := of_Z 100 |}
              sample_text_page (of_Z 100) (of_Z 50)
              eq_refl eq_refl eq_refl) as (Hmove & Hread & _).
  destruct (Hread (match element_at sample_text_page 0 0 with
                   | Some el => el | None => [] end) eq_refl)
    as (el' & Hf & Hw & Hh & Hkeep).
  eexists _, el'. split; [exact Hmove|]. split; [exact Hf|].
  split; [exact Hw|]. split; [exact Hh|].
  split; [exact (Hkeep "x" eq_refl eq_refl) | exact (Hkeep "y" eq_refl eq_refl)].
Defined.

(** ** C9 *)

Lemma minus_numbers (a b : num) : minus (Num a) (Num b) = Ok (Num (sub a b)).
Proof. reflexivity. Qed.

(** A text whose [z] is the string ["5"] in the file keeps it when loaded;
    with that text selected, [']'] commits [z = "51"]: [+] concatenates.
    And a text whose [z] is 2^53 keeps that [z] under [']'], since
    2^53 + 1 rounds back to 2^53. *)
Lemma bracket_on_a_string_z_concatenates :
  let loaded z :=
    result_of
      (load_document
         (Obj [ ("layout", Str "1");
                ("panels", Arr [Obj [("elements", Arr [Obj [("z", z)]])]]) ]))
      sample_random in
  let pressed p :=
    onKey (Some "BODY") {| key := "]"; shiftKey := false |}
          (with_selection (with_page sample_world p)
             {| panelIdx := 0; elId := Str "bq7w2m9" |}) in
  let z_of w := (fun el => field el "z")
                  <$> find_element (page w) 0 (Str "bq7w2m9") in
  match loaded (Str "5"), loaded (lit (2 ^ 53)) with
  | Some p, Some q =>
      (fun el => field el "z") <$> find_element p 0 (Str "bq7w2m9")
      = Some (Str "5")
      /\ match pressed p with
         | Ok w' => z_of w' = Some (Str "51")
         | Throw _ => False
         end
      /\ (fun el => field el "z") <$> find_element q 0 (Str "bq7w2m9")
         = Some (lit (2 ^ 53))
      /\ match pressed q with
         | Ok w' => z_of w' = Some (lit (2 ^ 53))
         | Throw _ => False
         end
  | _, _ => False
  end.
Proof. vm_compute. repeat split; reflexivity. Qed.

(** C9, as amended.  With an element selected whose [z] is a number [n] (or
    is absent, and then read as 0), [']'] commits [z = n + 1] and ['[']
    commits [z = Math.max(0, n - 1)]: the element found under the selected
    id afterwards has that [z], and every other property as before, and
    every other element stays as it was.  What ['['] commits is never
    negative, and is 0 when [n] is 0.  The sum and the difference are those
    of binary64: on every integer [z] below 2^53 - 1 in absolute value
    they are [z + 1] and [z - 1], so [']'] commits [z + 1] and ['[']
    commits [max 0 (z - 1)]. *)
Theorem z_keys (tag : string) (shift : bool) (w : World) (el : obj) (n : num) :
  (tag =? "INPUT")%string || (tag =? "TEXTAREA")%string = false ->
  nullish (elId (selection w)) = false ->
  find_element (page w) (panelIdx (selection w)) (elId (selection w)) = Some el ->
  nullish_or (field el "z") (lit 0) = Num n ->
  let pIdx := panelIdx (selection w) in
  let eId := elId (selection w) in
  let up := add n (of_Z 1) in
  let down := Math_max (of_Z 0) (sub n (of_Z 1)) in
  onKey (Some tag) {| key := "]"; shiftKey := shift |} w
  = Ok (with_page w (mutateElement pIdx eId [("z", Num up)] (page w)))
  /\ onKey (Some tag) {| key := "["; shiftKey := shift |} w
     = Ok (with_page w (mutateElement pIdx eId [("z", Num down)] (page w)))
  /\ (is_nan down || le (of_Z 0) down = true)
  /\ (n = of_Z 0 -> down = of_Z 0)
  /\ (forall v k, (k =? "z")%string = false ->
                  field (spread el [("z", v)]) k = field el k)
  /\ (forall v, field (spread el [("z", v)]) "z" = v)
  /\ (forall v i j,
        element_at (mutateElement pIdx eId [("z", v)] (page w)) i j
        = (fun x => if (i =? pIdx)%nat && strict_eq (field x "id") eId
                    then spread x [("z", v)] else x)
          <$> element_at (page w) i j)
  /\ (forall z, 0 <= z -> z + 1 < 2 ^ 53 ->
                add (of_Z z) (of_Z 1) = of_Z (z + 1)
                /\ Math_max (of_Z 0) (sub (of_Z z) (of_Z 1))
                   = of_Z (Z.max 0 (z - 1)))
  /\ (forall v,
        find_element (mutateElement pIdx eId [("z", v)] (page w)) pIdx eId
        = Some (spread el [("z", v)]))
  /\ (is_nan n = false -> le (of_Z 0) down = true)
  /\ (forall z, Z.abs z < 2 ^ 53 - 1 ->
                add (of_Z z) (of_Z 1) = of_Z (z + 1)
                /\ Math_max (of_Z 0) (sub (of_Z z) (of_Z 1))
                   = of_Z (Z.max 0 (z - 1))).
Proof.
  intros Htag Hsel Hel Hz pIdx eId up down.
  split.
  { unfold onKey. rewrite Htag, Hsel. cbn [key shiftKey].
    cbv [String.eqb Ascii.eqb Bool.eqb orb is_key_of existsb].
    rewrite Hel, Hz. unfold lit. rewrite plus_numbers. reflexivity. }
  split.
  { unfold onKey. rewrite Htag, Hsel. cbn [key shiftKey].
    cbv [String.eqb Ascii.eqb Bool.eqb orb is_key_of existsb].
    rewrite Hel, Hz. unfold lit. rewrite minus_numbers. reflexivity. }
  split; [apply Math_max_floor_or_nan; reflexivity|].
  split; [intros ->; reflexivity|].
  split.
  { intros v k Hk. apply field_spread_other. simpl. rewrite Hk. reflexivity. }
  split; [intros v; apply field_set_prop_eq|].
  split; [intros v i j; apply mutateElement_at|].
  split.
  { intros z Hz0 Hlt. split; [apply add_one_exact | apply sub_one_floor]; lia. }
  split.
  { intros v. apply find_element_committed; [reflexivity | exact Hel]. }
  split.
  { intros Hn. apply Math_max_floor; [reflexivity|].
    apply sub_of_finite; [exact Hn | reflexivity]. }
  intros z Hb. change (2 ^ 53) with 9007199254740992 in Hb.
  assert (H53 : 2 ^ 53 = 9007199254740992) by reflexivity.
  split.
  - apply add_int_exact; rewrite H53; lia.
  - rewrite sub_int_exact by (rewrite H53; lia).
    apply Math_max_of_Z; rewrite H53; lia.
Qed.

(** The text of the sample page has [z = 1]: [']'] commits 2 and ['[']
    commits 0, and the text found afterwards has that [z]. *)
Lemma z_keys_witness :
  let w := with_selection (with_page sample_world sample_text_page)
             {| panelIdx := 0; elId := Str "aq7w2m9" |} in
  exists w_up w_down,
    onKey (Some "BODY") {| key := "]"; shiftKey := false |} w = Ok w_up
    /\ onKey (Some "BODY") {| key := "["; shiftKey := false |} w = Ok w_down
    /\ (fun el => field el "z") <$> find_element (page w_up) 0 (Str "aq7w2m9")
       = Some (lit 2)
    /\ (fun el => field el "z") <$> find_element (page w_down) 0 (Str "aq7w2m9")
       = Some (lit 0).
Proof.
  destruct (z_keys "BODY" false
              (with_selection (with_page sample_world sample_text_page)
                 {| panelIdx := 0; elId := Str "aq7w2m9" |})
              (match element_at sample_text_page 0 0 with
               | Some el => el | None => [] end)
              (of_Z 1) eq_refl eq_refl eq_refl eq_refl)
    as (Hup & Hdown & _ & _ & _ & Hz & _ & _ & Hfind & _).
  eexists _, _. split; [exact Hup|]. split; [exact Hdown|].
  split.
  - etransitivity;
      [ exact (f_equal (fmap (fun el => field el "z")) (Hfind (lit 2)))
      | exact (f_equal Some (Hz (lit 2))) ].
  - etransitivity;
      [ exact (f_equal (fmap (fun el => field el "z")) (Hfind (lit 0)))
      | exact (f_equal Some (Hz (lit 0))) ].
Defined.

(* ===================================================================== *)
(** * Export *)
(* ===================================================================== *)

(** ** C7 *)

Lemma exportPNG_reads_counter (w : World) :
  ToNumber (or_else (getItem "comicsCount" w) (Str "0")) = Ok (counter w).
Proof.
  unfold getItem, counter, or_else.
  destruct (localStorage w !! "comicsCount") as [s|]; [|reflexivity].
  cbn [ToBoolean]. destruct (s =? "")%string; reflexivity.
Qed.

(** What a successful export stores and offers. *)
Lemma exportPNG_success (w : World) (now : num) (url : string) :
  let w' := exportPNG true (Some url) now w in
  localStorage w'
  = <["comicsCount" := NumberToString (add (counter w) (of_Z 1))]>
      (localStorage w)
  /\ downloads w'
     = downloads w ++ [("comic-" +:+ NumberToString now +:+ ".png",
                        DataUrl url)]
  /\ page w' = page w /\ selection w' = selection w.
Proof.
  unfold exportPNG. cbn [negb].
  pose proof (exportPNG_reads_counter
                (download ("comic-" +:+ NumberToString now +:+ ".png")
                          (DataUrl url) w)) as Hc.
  change (counter (download _ _ w)) with (counter w) in Hc.
  rewrite Hc. repeat split.
Qed.

(** A counter that reads as the integer [n] becomes the decimal writing of
    [n + 1], which reads as [n + 1]. *)
Lemma exportPNG_counts_up (w : World) (now : num) (url : string) (n : Z) :
  0 <= n -> n + 1 < 2 ^ 53 -> counter w = of_Z n ->
  localStorage (exportPNG true (Some url) now w) !! "comicsCount"
  = Some (digits (n + 1))
  /\ counter (exportPNG true (Some url) now w) = of_Z (n + 1).
Proof.
  intros Hn Hlt Hc.
  destruct (exportPNG_success w now url) as (Hst & _).
  assert (H : localStorage (exportPNG true (Some url) now w) !! "comicsCount"
              = Some (digits (n + 1))).
  { rewrite Hst, lookup_insert_eq, Hc, add_one_exact by assumption.
    rewrite NumberToString_integer by lia. reflexivity. }
  split; [exact H|].
  unfold counter. rewrite H, digits_not_empty.
  apply StringToNumber_digits. lia.
Qed.

Lemma exports_count_up (k : nat) (w : World) (now : num) (url : string)
    (n : Z) :
  0 <= n -> n + Z.of_nat k < 2 ^ 53 -> counter w = of_Z n ->
  counter (exports k url now w) = of_Z (n + Z.of_nat k).
Proof.
  revert w n. induction k as [|k IH]; intros w n Hn Hlt Hc.
  - cbn [exports]. rewrite Z.add_0_r. exact Hc.
  - cbn [exports].
    destruct (exportPNG_counts_up w now url n Hn ltac:(lia) Hc) as (_ & Hc1).
    rewrite (IH _ (n + 1)) by (exact Hc1 || lia). f_equal. lia.
Qed.

Lemma counter_of_digits (w : World) (n : Z) :
  0 <= n -> localStorage w !! "comicsCount" = Some (digits n) ->
  counter w = of_Z n.
Proof.
  intros Hn Hw. unfold counter. rewrite Hw, digits_not_empty.
  apply StringToNumber_digits. exact Hn.
Qed.

(** With 2^53 in the store, written in decimal, a successful export offers
    its file and stores the same text again, not that of 2^53 + 1: the sum
    is rounded back to 2^53. *)
Lemma export_at_2_to_53_stores_the_same :
  let w := world_counting (2 ^ 53) in
  let w' := exportPNG true (Some "data:image/png;base64,") (of_Z 0) w in
  localStorage w !! "comicsCount" = Some "9007199254740992"
  /\ counter w = of_Z (2 ^ 53)
  /\ localStorage w' !! "comicsCount" = Some "9007199254740992"
  /\ digits (2 ^ 53 + 1) = "9007199254740993"
  /\ downloads w' = [("comic-0.png", DataUrl "data:image/png;base64,")]
  /\ alerts w' = ["Exported PNG and updated dashboard count."].
Proof. vm_compute. repeat split; reflexivity. Qed.

(** C7, as amended.  When the renderer succeeds, [exportPNG] offers one
    file, [comic-<now>.png], and stores [String(c + 1)], where [c] is the
    number that the stored counter reads as (0 when there is none); when
    the renderer fails it offers no file and leaves the store as it was,
    and only alerts.  The page and the selection are left alone in both
    cases.  An absent counter is read as 0 and becomes ["1"].  The sum is
    that of binary64: for every integer [n] from 0 on with [n + 1] below
    2^53, a counter that reads as [n] (as the decimal writing of [n] does)
    is replaced by the decimal writing of [n + 1], which reads as [n + 1];
    so [k] successful exports in a row count from [n] to [n + k] as long as
    that is below 2^53. *)
Theorem exportPNG_counter (w : World) (now : num) :
  (forall url,
      let w' := exportPNG true (Some url) now w in
      localStorage w'
      = <["comicsCount" := NumberToString (add (counter w) (of_Z 1))]>
          (localStorage w)
      /\ downloads w'
         = downloads w ++ [("comic-" +:+ NumberToString now +:+ ".png",
                            DataUrl url)]
      /\ page w' = page w /\ selection w' = selection w)
  /\ (let w' := exportPNG true None now w in
      localStorage w' = localStorage w
      /\ downloads w' = downloads w
      /\ page w' = page w /\ selection w' = selection w
      /\ alerts w'
         = alerts w ++ ["Export failed. (CORS or memory). Try smaller images."])
  /\ (localStorage w !! "comicsCount" = None ->
      NumberToString (add (counter w) (of_Z 1)) = "1")
  /\ (forall n, 0 <= n -> n + 1 < 2 ^ 53 -> counter w = of_Z n ->
                add (counter w) (of_Z 1) = of_Z (n + 1))
  /\ (forall n, 0 <= n -> n + 1 < 2 ^ 53 ->
                localStorage w !! "comicsCount" = Some (digits n) ->
                NumberToString (add (counter w) (of_Z 1)) = digits (n + 1))
  /\ (forall n url, 0 <= n -> n + 1 < 2 ^ 53 -> counter w = of_Z n ->
                    localStorage (exportPNG true (Some url) now w)
                      !! "comicsCount"
                    = Some (digits (n + 1))
                    /\ counter (exportPNG true (Some url) now w)
                       = of_Z (n + 1))
  /\ (forall n, 0 <= n -> localStorage w !! "comicsCount" = Some (digits n) ->
                counter w = of_Z n)
  /\ (forall n k url, 0 <= n -> n + Z.of_nat k < 2 ^ 53 ->
                      counter w = of_Z n ->
                      counter (exports k url now w) = of_Z (n + Z.of_nat k)).
Proof.
  split; [intros url; apply exportPNG_success|].
  split; [repeat split|].
  split; [intros H; unfold counter; rewrite H; reflexivity|].
  split; [intros n Hn Hlt ->; apply add_one_exact; assumption|].
  split.
  { intros n Hn Hlt Hw. rewrite (counter_of_digits w n Hn Hw).
    rewrite add_one_exact by assumption.
    apply NumberToString_integer. lia. }
  split; [intros n url; apply exportPNG_counts_up|].
  split; [intros n; apply counter_of_digits|].
  intros n k url. apply exports_count_up.
Qed.

(** With ["41"] in the store, a successful export stores ["42"], and three
    in a row count to 44. *)
Lemma exportPNG_counter_witness :
  let w := world_counting 41 in
  localStorage w !! "comicsCount" = Some "41"
  /\ localStorage (exportPNG true (Some "data:image/png;base64,") (of_Z 0) w)
       !! "comicsCount" = Some "42"
  /\ counter (exports 3 "data:image/png;base64," (of_Z 0) w) = of_Z 44.
Proof.
  destruct (exportPNG_counter (world_counting 41) (of_Z 0))
    as (_ & _ & _ & _ & _ & Hone & Hread & Hmany).
  assert (Hc : counter (world_counting 41) = of_Z 41).
  { apply Hread; [lia | vm_compute; reflexivity]. }
  split; [vm_compute; reflexivity|]. split.
  - exact (proj1 (Hone 41 "data:image/png;base64," ltac:(lia) ltac:(lia) Hc)).
  - exact (Hmany 41 3%nat "data:image/png;base64," ltac:(lia) ltac:(lia) Hc).
Defined.
(* ===================================================================== *)
(** * Further properties of the program *)
(* ===================================================================== *)

(** ** [clamp] and [uid] *)

Lemma le_of_Z (a b : Z) :
  Z.abs a < 2 ^ 53 -> Z.abs b < 2 ^ 53 -> le (of_Z a) (of_Z b) = (a <=? b).
Proof.
  intros Ha Hb. unfold le, SFleb. rewrite compare_of_Z by assumption.
  unfold Z.leb. destruct (a ?= b); reflexivity.
Qed.

(** X1.  On integers below 2^53 in absolute value, [clamp(v, a, b)] is the
    integer [max(a, min(b, v))]: [v] itself when [a <= v <= b], [a] when [v]
    is below [a], [b] when [v] is above [b] (and [a] whenever [b < a]). *)
Theorem clamp_integers (v a b : Z) :
  Z.abs v < 2 ^ 53 -> Z.abs a < 2 ^ 53 -> Z.abs b < 2 ^ 53 ->
  clamp (lit v) (lit a) (lit b) = Ok (lit (Z.max a (Z.min b v)))
  /\ (a <= v <= b -> clamp (lit v) (lit a) (lit b) = Ok (lit v))
  /\ (v < a -> a <= b -> clamp (lit v) (lit a) (lit b) = Ok (lit a))
  /\ (b < v -> a <= b -> clamp (lit v) (lit a) (lit b) = Ok (lit b))
  /\ (b < a -> clamp (lit v) (lit a) (lit b) = Ok (lit a)).
Proof.
  intros Hv Ha Hb.
  assert (H : clamp (lit v) (lit a) (lit b) = Ok (lit (Z.max a (Z.min b v)))).
  { rewrite clamp_eq. cbn [lit ToNumber rbind].
    rewrite clampN_of_Z by assumption. reflexivity. }
  rewrite H. repeat split; intros; do 2 f_equal; lia.
Qed.

Lemma clamp_integers_witness :
  clamp (lit 12000) (lit 0) (lit 10000) = Ok (lit 10000)
  /\ clamp (lit (-3)) (lit 0) (lit 10000) = Ok (lit 0).
Proof.
  split.
  - rewrite (proj1 (clamp_integers 12000 0 10000 eq_refl eq_refl eq_refl)).
    reflexivity.
  - rewrite (proj1 (clamp_integers (-3) 0 10000 eq_refl eq_refl eq_refl)).
    reflexivity.
Defined.

(** X2.  For integer bounds [a < b] and any value that converts to a number
    other than NaN (a number, a numeric string, a boolean, [null], an
    infinity), [clamp] returns a number within [[a, b]], and clamping that
    number again returns it unchanged. *)
Theorem clamp_within (v : value) (a b : Z) (n : num) :
  a < b -> Z.abs a < 2 ^ 53 -> Z.abs b < 2 ^ 53 ->
  ToNumber v = Ok n -> is_nan n = false ->
  exists m,
    clamp v (lit a) (lit b) = Ok (Num m)
    /\ within (of_Z a) (of_Z b) m = true
    /\ clamp (Num m) (lit a) (lit b) = Ok (Num m).
Proof.
  intros Hab Ha Hb Hn Hnan.
  exists (clampN (of_Z a) (of_Z b) n).
  rewrite !clamp_eq, Hn. cbn [ToNumber rbind].
  split; [reflexivity|]. split.
  - apply clampN_range; [|assumption].
    rewrite le_of_Z by assumption. apply Z.leb_le. lia.
  - rewrite clampN_idem; [reflexivity|].
    rewrite compare_of_Z by assumption. f_equal. apply Z.compare_lt_iff.
    assumption.
Qed.

(** The text ["250"] as a font size, and an infinite width. *)
Lemma clamp_within_witness :
  (exists m, clamp (Str "250") (lit 8) (lit 160) = Ok (Num m)
             /\ within (of_Z 8) (of_Z 160) m = true
             /\ clamp (Num m) (lit 8) (lit 160) = Ok (Num m))
  /\ (exists m, clamp (Num Infinity) (lit 10) (lit 10000) = Ok (Num m)
                /\ within (of_Z 10) (of_Z 10000) m = true
                /\ clamp (Num m) (lit 10) (lit 10000) = Ok (Num m)).
Proof.
  split.
  - exact (clamp_within (Str "250") 8 160 (StringToNumber "250")
             eq_refl eq_refl eq_refl eq_refl eq_refl).
  - exact (clamp_within (Num Infinity) 10 10000 Infinity
             eq_refl eq_refl eq_refl eq_refl eq_refl).
Defined.

Lemma substring_length_from (n m : nat) (s : string) :
  String.length (substring n m s) = Nat.min m (String.length s - n).
Proof.
  revert n m. induction s as [|c s IH]; intros n m.
  - destruct n, m; reflexivity.
  - destruct n as [|n].
    + destruct m as [|m]; [reflexivity|]. simpl. rewrite IH.
      rewrite Nat.sub_0_r. reflexivity.
    + simpl. apply IH.
Qed.

(** X3.  [uid()] draws one random text and returns its characters 2 to 8: a
    string of at most 7 characters, of exactly 7 when the text has 9 or
    more, and the empty string when the text has no more than 2 (as ["0"],
    the text of the number 0). *)
Theorem uid_length (r : randomness) :
  exists s,
    uid r = Ok (Str s, after_draw r)
    /\ String.length s = Nat.min 7 (String.length (r O) - 2)
    /\ (String.length s <= 7)%nat
    /\ ((9 <= String.length (r O))%nat -> String.length s = 7%nat)
    /\ ((String.length (r O) <= 2)%nat -> s = "").
Proof.
  exists (substring 2 7 (r O)).
  split; [reflexivity|].
  pose proof (substring_length_from 2 7 (r O)) as Hlen.
  split; [exact Hlen|]. split; [lia|]. split; [lia|].
  intros Hshort.
  destruct (substring 2 7 (r O)) as [|c s]; [reflexivity|].
  cbn [String.length] in Hlen. lia.
Qed.

(** ** The layout effect and the board *)

Lemma is_key_of_own_preset (k : string) (l : list (string * preset)) :
  is_key_of (map fst l) k
  = match own_preset k l with Some _ => true | None => false end.
Proof.
  induction l as [|[k' pr] l IH]; [reflexivity|].
  unfold is_key_of in *. simpl.
  destruct (k =? k')%string; [reflexivity | exact IH].
Qed.

(** [LAYOUTS[layout]] is there exactly when [layout in LAYOUTS]. *)
Lemma LAYOUTS_get_key_in (l : value) :
  match key_in l LAYOUT_keys with
  | Ok true => exists e, LAYOUTS_get l = Ok e /\ e <> NoEntry
  | Ok false => LAYOUTS_get l = Ok NoEntry
  | Throw x => LAYOUTS_get l = Throw x
  end.
Proof.
  unfold key_in, LAYOUTS_get, LAYOUT_keys.
  destruct (ToPropertyKey l) as [k|x]; [|reflexivity]. cbn [rbind].
  rewrite is_key_of_own_preset.
  destruct (own_preset k LAYOUTS) as [pr|].
  - cbn [orb]. eexists. split; [reflexivity | discriminate].
  - cbn [orb]. destruct (is_key_of Object_prototype_keys k).
    + eexists. split; [reflexivity | discriminate].
    + reflexivity.
Qed.

Lemma LAYOUTS_panels_get (l : value) :
  LAYOUTS_panels l
  = (e <-! LAYOUTS_get l ;;
     match e with
     | OwnPreset pr => Ok (Some (preset_panels pr))
     | InheritedValue => Ok None
     | NoEntry => Throw TypeError
     end).
Proof.
  unfold LAYOUTS_panels, LAYOUTS_get.
  destruct (ToPropertyKey l) as [k|x]; [|reflexivity]. cbn [rbind].
  destruct (own_preset k LAYOUTS); [reflexivity|].
  destruct (is_key_of Object_prototype_keys k); reflexivity.
Qed.

Lemma sync_panels_total (p : Page) (r : randomness) (n : option nat) :
  LAYOUTS_panels (layout p) = Ok n ->
  exists p' r', sync_panels p r = Ok (p', r').
Proof.
  intros Hn. unfold sync_panels, bind, lift. rewrite Hn.
  destruct n as [n|]; [|unfold ret; eauto].
  destruct (timesM_fresh (n - length (take n (panels p))) r)
    as (pushed & r' & -> & _). unfold ret. eauto.
Qed.

(** The effect and the board need the same thing of the layout. *)
Lemma layout_known (p : Page) (r : randomness) :
  key_in (layout p) LAYOUT_keys = Ok true ->
  (exists p' r', sync_panels p r = Ok (p', r'))
  /\ (exists s, gridClasses p = Ok s).
Proof.
  intros Hk. pose proof (LAYOUTS_get_key_in (layout p)) as Hg.
  rewrite Hk in Hg. destruct Hg as (e & Hg & He). split.
  - assert (exists n, LAYOUTS_panels (layout p) = Ok n) as (n & Hn).
    { rewrite LAYOUTS_panels_get, Hg. cbn [rbind].
      destruct e; [eauto | eauto | congruence]. }
    eapply sync_panels_total. exact Hn.
  - unfold gridClasses. rewrite Hg. cbn [rbind].
    destruct e; [eauto | eauto | congruence].
Qed.

Lemma layout_unknown (p : Page) (r : randomness) :
  key_in (layout p) LAYOUT_keys <> Ok true ->
  (exists x, sync_panels p r = Throw x)
  /\ (exists x, gridClasses p = Throw x).
Proof.
  intros Hk. pose proof (LAYOUTS_get_key_in (layout p)) as Hg.
  destruct (key_in (layout p) LAYOUT_keys) as [[|]|x]; [congruence| |].
  - split.
    + unfold sync_panels, bind, lift. rewrite LAYOUTS_panels_get, Hg.
      cbn [rbind]. eauto.
    + unfold gridClasses. rewrite Hg. cbn [rbind]. eauto.
  - split.
    + unfold sync_panels, bind, lift. rewrite LAYOUTS_panels_get, Hg.
      cbn [rbind]. eauto.
    + unfold gridClasses. rewrite Hg. cbn [rbind]. eauto.
Qed.

(** X4.  The layout effect and the class list of the board read
    [LAYOUTS[page.layout]]: both succeed when [page.layout in LAYOUTS]
    holds (an own or an inherited key), and both throw otherwise. *)
Theorem layout_effect_and_board (p : Page) (r : randomness) :
  (key_in (layout p) LAYOUT_keys = Ok true ->
     (exists p' r', sync_panels p r = Ok (p', r'))
     /\ (exists s, gridClasses p = Ok s))
  /\ (key_in (layout p) LAYOUT_keys <> Ok true ->
     (exists x, sync_panels p r = Throw x)
     /\ (exists x, gridClasses p = Throw x)).
Proof. split; [apply layout_known | apply layout_unknown]. Qed.

(** X5.  Once the layout effect has run, running it again changes nothing
    and draws no id: its result already has the panels its layout asks
    for. *)
Theorem layout_effect_settles (p p' : Page) (r r' : randomness) :
  sync_panels p r = Ok (p', r') -> sync_panels p' r' = Ok (p', r').
Proof.
  unfold sync_panels, bind, lift.
  destruct (LAYOUTS_panels (layout p)) as [[n|]|x] eqn:Hn; [| |discriminate].
  - destruct (timesM_fresh (n - length (take n (panels p))) r)
      as (pushed & r1 & -> & Hlen & _).
    unfold ret. intros H. apply Ok_inj in H. injection H as <- <-.
    cbn [layout panels]. rewrite Hn.
    assert (Hl : length (take n (panels p) ++ pushed) = n).
    { rewrite length_app, Hlen. pose proof (length_take_le (panels p) n).
      rewrite length_take. lia. }
    rewrite take_ge by lia. rewrite Hl, Nat.sub_diag. cbn [timesM].
    unfold ret. rewrite app_nil_r. reflexivity.
  - unfold ret. intros H. apply Ok_inj in H. injection H as <- <-.
    cbn [layout panels]. rewrite Hn. reflexivity.
Qed.

(** From three panels to layout ['2h'] and once more. *)
Lemma layout_effect_settles_witness :
  let p := {| layout := Str "2h"; panels := take 3 (panels sample_page) |} in
  exists p' r',
    sync_panels p sample_random = Ok (p', r')
    /\ length (panels p') = 2%nat
    /\ sync_panels p' r' = Ok (p', r').
Proof.
  eexists _, _. split; [vm_compute; reflexivity|]. split; [reflexivity|].
  apply (layout_effect_settles
           {| layout := Str "2h"; panels := take 3 (panels sample_page) |}
           _ sample_random).
  reflexivity.
Defined.

(** X6.  The page the editor starts with has the layout ['4'] and four
    panels whose ids are the first four strings drawn, in order, each with
    a white background and no element; building it draws four ids and no
    more, and the layout effect that runs on it changes nothing and draws
    no id. *)
Theorem DEFAULT_PAGE_is_settled (r : randomness) :
  let white i := {| id := i; bg := Str "#ffffff"; elements := [] |} in
  let p := {| layout := Str "4";
              panels := [ white (drawn r);
                          white (drawn (advance 1 r));
                          white (drawn (advance 2 r));
                          white (drawn (advance 3 r)) ] |} in
  DEFAULT_PAGE r = Ok (p, advance 4 r)
  /\ sync_panels p (advance 4 r) = Ok (p, advance 4 r)
  /\ Forall (fun pan => empty_panel pan = true) (panels p)
  /\ page_in_range p = true.
Proof.
  repeat split. repeat (apply List.Forall_cons; [reflexivity|]).
  apply List.Forall_nil.
Qed.

(** On the sample randomness the four ids are ["aq7w2m9"], ["bq7w2m9"],
    ["cq7w2m9"] and ["dq7w2m9"]. *)
Lemma DEFAULT_PAGE_is_settled_witness :
  exists p r',
    DEFAULT_PAGE sample_random = Ok (p, r')
    /\ map id (panels p)
       = [Str "aq7w2m9"; Str "bq7w2m9"; Str "cq7w2m9"; Str "dq7w2m9"]
    /\ drawn r' = Str "eq7w2m9"
    /\ sync_panels p r' = Ok (p, r').
Proof.
  destruct (DEFAULT_PAGE_is_settled sample_random) as (Hp & Hs & _).
  eexists _, _. split; [exact Hp|]. split; [reflexivity|].
  split; [reflexivity | exact Hs].
Defined.
(** ** What loading keeps *)

Lemma mapM_inv {A B} (f : A -> M B) (xs : list A) (ys : list B)
    (r r' : randomness) :
  mapM f xs r = Ok (ys, r') ->
  Forall2 (fun x y => exists r1 r2, f x r1 = Ok (y, r2)) xs ys.
Proof.
  revert ys r. induction xs as [|x xs IH]; intros ys r; simpl.
  - unfold ret. intros H. apply Ok_inj in H. injection H as H1 H2. subst.
    constructor.
  - unfold bind at 1. destruct (f x r) as [[y r1]|e] eqn:Hf; [|discriminate].
    unfold bind at 1.
    destruct (mapM f xs r1) as [[ys' r2]|e] eqn:Hm; [|discriminate].
    unfold ret. intros H. apply Ok_inj in H. injection H as H1 H2. subst.
    constructor; [eauto | eapply IH; eassumption].
Qed.

Lemma load_panel_inv (p : value) (pan : Panel) (r r' : randomness) :
  load_panel p r = Ok (pan, r') ->
  nullish p = false
  /\ (ToBoolean (member p "id") = true -> id pan = member p "id")
  /\ (ToBoolean (member p "id") = false -> id pan = drawn r)
  /\ bg pan = or_else (member p "bg") (Str "#ffffff")
  /\ match member p "elements" with
     | Arr els =>
         Forall2 (fun el o => exists r1 r2, sanitizeElement el r1 = Ok (o, r2))
                 els (elements pan)
     | _ => elements pan = []
     end.
Proof.
  unfold load_panel, rd, bind, lift.
  destruct (nullish p) eqn:Hn.
  { rewrite (get_nullish _ _ Hn). discriminate. }
  rewrite !(get_member _ _ Hn).
  intros H. split; [reflexivity|].
  destruct (ToBoolean (member p "id")) eqn:Hid.
  - unfold ret in H.
    destruct (member p "elements") as [| | | | |els|] eqn:He;
      try (unfold ret in H; apply Ok_inj in H; injection H as H1 H2; subst pan;
           repeat split; intros; try discriminate; reflexivity).
    destruct (mapM sanitizeElement els r) as [[os r1]|e] eqn:Hm; [|discriminate].
    unfold ret in H. apply Ok_inj in H. injection H as H1 H2. subst pan.
    repeat split; intros; try discriminate; try reflexivity.
    simpl. eapply mapM_inv. eassumption.
  - unfold uid, random_string, bind, ret in H.
    destruct (member p "elements") as [| | | | |els|] eqn:He;
      try (unfold ret in H; apply Ok_inj in H; injection H as H1 H2; subst pan;
           repeat split; intros; try discriminate; reflexivity).
    destruct (mapM sanitizeElement els (fun n => r (S n)))
      as [[os r1]|e] eqn:Hm; [|discriminate].
    unfold ret in H. apply Ok_inj in H. injection H as H1 H2. subst pan.
    repeat split; intros; try discriminate; try reflexivity.
    simpl. eapply mapM_inv. eassumption.
Qed.

Lemma load_document_inv (doc : value) (p : Page) (r r' : randomness) :
  load_document doc r = Ok (p, r') ->
  exists items known,
    member doc "panels" = Arr items
    /\ key_in (member doc "layout") LAYOUT_keys = Ok known
    /\ layout p = (if known then member doc "layout" else Str "4")
    /\ mapM load_panel items r = Ok (panels p, r').
Proof.
  unfold load_document, rd, bind, lift.
  destruct (ToBoolean doc) eqn:Hd; [|discriminate].
  assert (Hn : nullish doc = false) by (destruct doc; auto; discriminate).
  rewrite !(get_member _ _ Hn).
  destruct (member doc "panels") as [| | | | |ps|]; try discriminate.
  destruct (key_in (member doc "layout") LAYOUT_keys) as [known|e];
    [|discriminate].
  destruct (mapM load_panel ps r) as [[pans r1]|e] eqn:Hm; [|discriminate].
  unfold ret. intros H. apply Ok_inj in H. injection H as <- <-.
  exists ps, known. auto.
Qed.

Lemma key_in_4 : key_in (Str "4") LAYOUT_keys = Ok true.
Proof. reflexivity. Qed.

Lemma loaded_layout_known (doc : value) (p : Page) (r r' : randomness) :
  load_document doc r = Ok (p, r') ->
  key_in (layout p) LAYOUT_keys = Ok true.
Proof.
  intros H. apply load_document_inv in H as (items & known & _ & Hk & -> & _).
  destruct known; [exact Hk | exact key_in_4].
Qed.

(** X7.  A document that [loadJSON] installs never makes the layout effect
    or the class list of the board throw: the layout it keeps has passed
    the [in] test, and any other is replaced by ['4']. *)
Theorem loaded_page_renders (doc : value) (p : Page) (r r' : randomness) :
  load_document doc r = Ok (p, r') ->
  (exists p2 r2, sync_panels p r' = Ok (p2, r2))
  /\ (exists s, gridClasses p = Ok s).
Proof.
  intros H. apply layout_known. eapply loaded_layout_known. eassumption.
Qed.

(** A file whose layout is the inherited key ["valueOf"]. *)
Lemma loaded_page_renders_witness :
  let doc := Obj [ ("layout", Str "valueOf");
                   ("panels", Arr [Obj [("bg", Str "#000000")]]) ] in
  exists p r',
    load_document doc sample_random = Ok (p, r')
    /\ layout p = Str "valueOf"
    /\ (exists p2 r2, sync_panels p r' = Ok (p2, r2))
    /\ (exists s, gridClasses p = Ok s).
Proof.
  eexists _, _. split; [vm_compute; reflexivity|]. split; [reflexivity|].
  eapply (loaded_page_renders
            (Obj [ ("layout", Str "valueOf");
                   ("panels", Arr [Obj [("bg", Str "#000000")]]) ])
            _ sample_random).
  vm_compute. reflexivity.
Defined.

Lemma load_document_panels (doc : value) (items : list value) (p : Page)
    (r r' : randomness) :
  member doc "panels" = Arr items ->
  load_document doc r = Ok (p, r') ->
  length (panels p) = length items
  /\ forall i item,
       items !! i = Some item ->
       exists pan,
         panels p !! i = Some pan
         /\ (ToBoolean (member item "id") = true -> id pan = member item "id")
         /\ (ToBoolean (member item "id") = false -> is_str (id pan) = true)
         /\ bg pan = or_else (member item "bg") (Str "#ffffff")
         /\ length (elements pan)
            = match member item "elements" with
              | Arr els => length els
              | _ => O
              end.
Proof.
  intros Hitems H.
  apply load_document_inv in H as (items' & known & Hi & _ & _ & Hm).
  rewrite Hitems in Hi. injection Hi as <-.
  apply mapM_inv in Hm.
  split; [symmetry; eapply Forall2_length; eassumption|].
  intros i item Hitem.
  destruct (Forall2_lookup_l _ _ _ _ _ Hm Hitem) as (pan & Hpan & r1 & r2 & Hl).
  exists pan. split; [assumption|].
  apply load_panel_inv in Hl as (_ & Hid & Hdraw & Hbg & Hels).
  split; [assumption|]. split.
  { intros Hf. rewrite (Hdraw Hf). reflexivity. }
  split; [assumption|].
  destruct (member item "elements"); try (rewrite Hels; reflexivity).
  symmetry. eapply Forall2_length. eassumption.
Qed.

Lemma advance_add (a b : nat) (r : randomness) :
  advance (a + b) r = advance b (advance a r).
Proof.
  revert r. induction a as [|a IH]; intros r; [reflexivity|]. apply IH.
Qed.

(** [xs.map(f)] when each call of [f] on [x] makes [cost x] draws: the call
    on the [i]-th item starts after the draws of the items before it. *)
Lemma mapM_draws {A B} (f : A -> M B) (cost : A -> nat) (xs : list A) :
  (forall x r y r', f x r = Ok (y, r') -> r' = advance (cost x) r) ->
  forall (ys : list B) (r r' : randomness),
    mapM f xs r = Ok (ys, r') ->
    r' = advance (list_sum (map cost xs)) r
    /\ forall i x,
         xs !! i = Some x ->
         exists y r2,
           ys !! i = Some y
           /\ f x (advance (list_sum (map cost (take i xs))) r) = Ok (y, r2).
Proof.
  intros Hcost. induction xs as [|x xs IH]; intros ys r r'; simpl.
  - unfold ret. intros H. apply Ok_inj in H. injection H as H1 H2. subst.
    split; [reflexivity|]. intros i x Hi. destruct i; discriminate.
  - unfold bind at 1. destruct (f x r) as [[y r1]|e] eqn:Hf; [|discriminate].
    unfold bind at 1.
    destruct (mapM f xs r1) as [[ys' r2]|e] eqn:Hm; [|discriminate].
    unfold ret. intros H. apply Ok_inj in H. injection H as H1 H2. subst.
    pose proof (Hcost _ _ _ _ Hf) as Hr1. subst r1.
    destruct (IH _ _ _ Hm) as (Hend & Hat).
    split; [rewrite advance_add; exact Hend|].
    intros [|i] x0 Hi; simpl in Hi.
    + injection Hi as <-. exists y. eexists. split; [reflexivity | exact Hf].
    + destruct (Hat i x0 Hi) as (y0 & r3 & Hy & Hfx).
      exists y0, r3. split; [exact Hy|].
      simpl. rewrite advance_add. exact Hfx.
Qed.

Lemma sanitizeElement_draws (el : value) (r : randomness) (o : obj)
    (r' : randomness) :
  sanitizeElement el r = Ok (o, r') -> r' = advance 1 r.
Proof. intros H. apply sanitizeElement_inv in H as (_ & _ & ->). reflexivity. Qed.

Lemma list_sum_ones {A} (l : list A) :
  list_sum (map (fun _ => 1%nat) l) = length l.
Proof. induction l as [|x l IH]; simpl; [reflexivity|]. rewrite IH. reflexivity. Qed.

(** The draws that [load_panel] makes: see [panel_draws]. *)
Lemma load_panel_draws (p : value) (r : randomness) (pan : Panel)
    (r' : randomness) :
  load_panel p r = Ok (pan, r') -> r' = advance (panel_draws p) r.
Proof.
  unfold load_panel, rd, bind, lift, panel_draws.
  destruct (nullish p) eqn:Hn.
  { rewrite (get_nullish _ _ Hn). discriminate. }
  rewrite !(get_member _ _ Hn).
  assert (Hels : forall els r0 os r1,
             mapM sanitizeElement els r0 = Ok (os, r1) ->
             r1 = advance (length els) r0).
  { intros els r0 os r1 H.
    destruct (mapM_draws sanitizeElement (fun _ => 1%nat) els
                sanitizeElement_draws os r0 r1 H) as (-> & _).
    rewrite list_sum_ones. reflexivity. }
  destruct (ToBoolean (member p "id")).
  - unfold ret at 1.
    destruct (member p "elements") as [| | | | |els|];
      try (unfold ret; intros H; apply Ok_inj in H; injection H as H1 H2;
           subst; reflexivity).
    destruct (mapM sanitizeElement els r) as [[os r1]|e] eqn:Hm; [|discriminate].
    unfold ret. intros H. apply Ok_inj in H. injection H as H1 H2. subst.
    apply (Hels _ _ _ _ Hm).
  - unfold uid, random_string, bind, ret at 1.
    destruct (member p "elements") as [| | | | |els|];
      try (unfold ret; intros H; apply Ok_inj in H; injection H as H1 H2;
           subst; reflexivity).
    destruct (mapM sanitizeElement els (fun n => r (S n)))
      as [[os r1]|e] eqn:Hm; [|discriminate].
    unfold ret. intros H. apply Ok_inj in H. injection H as H1 H2. subst.
    rewrite (Hels _ _ _ _ Hm). reflexivity.
Qed.

(** Where the id of a loaded panel is drawn. *)
Lemma load_document_draws (doc : value) (items : list value) (p : Page)
    (r r' : randomness) :
  member doc "panels" = Arr items ->
  load_document doc r = Ok (p, r') ->
  r' = advance (draws_before items (length items)) r
  /\ forall i item pan,
       items !! i = Some item -> panels p !! i = Some pan ->
       ToBoolean (member item "id") = false ->
       id pan = drawn (advance (draws_before items i) r).
Proof.
  intros Hitems H.
  apply load_document_inv in H as (items' & known & Hi & _ & _ & Hm).
  rewrite Hitems in Hi. injection Hi as <-.
  destruct (mapM_draws load_panel panel_draws items load_panel_draws _ _ _ Hm)
    as (Hend & Hat).
  split.
  { unfold draws_before. rewrite take_ge by lia. exact Hend. }
  intros i item pan Hitem Hpan Hid.
  destruct (Hat i item Hitem) as (pan' & r2 & Hpan' & Hl).
  rewrite Hpan in Hpan'. injection Hpan' as <-.
  apply load_panel_inv in Hl as (_ & _ & Hdraw & _).
  exact (Hdraw Hid).
Qed.

(** X8.  Loading keeps the panels of the file one for one and in order,
    whatever the layout asks for: panel [i] of the page comes from entry [i]
    of [doc.panels], with the entry's [id] when it is truthy and otherwise
    the id drawn at that point (after one draw for each falsy [id] and each
    element of the entries before it), the entry's [bg] when it is truthy
    and ['#ffffff'] otherwise, and one element for each entry of its
    [elements] array (none when that is not an array).  The load draws one
    id for each falsy panel [id] and each element, and no more. *)
Theorem load_keeps_panels (doc : value) (items : list value) (p : Page)
    (r r' : randomness) :
  member doc "panels" = Arr items ->
  load_document doc r = Ok (p, r') ->
  length (panels p) = length items
  /\ r' = advance (draws_before items (length items)) r
  /\ forall i item,
       items !! i = Some item ->
       exists pan,
         panels p !! i = Some pan
         /\ (ToBoolean (member item "id") = true -> id pan = member item "id")
         /\ (ToBoolean (member item "id") = false ->
             id pan = drawn (advance (draws_before items i) r))
         /\ bg pan = or_else (member item "bg") (Str "#ffffff")
         /\ length (elements pan)
            = match member item "elements" with
              | Arr els => length els
              | _ => O
              end.
Proof.
  intros Hitems Hload.
  destruct (load_document_panels _ _ _ _ _ Hitems Hload) as (Hlen & Hpans).
  destruct (load_document_draws _ _ _ _ _ Hitems Hload) as (Hend & Hdrawn).
  split; [exact Hlen|]. split; [exact Hend|].
  intros i item Hitem.
  destruct (Hpans i item Hitem) as (pan & Hpan & Hid & _ & Hbg & Hels).
  exists pan. split; [exact Hpan|]. split; [exact Hid|].
  split; [|split; [exact Hbg | exact Hels]].
  intros Hf. exact (Hdrawn i item pan Hitem Hpan Hf).
Qed.

(** A file with the layout ['1'] and two panels is installed with two
    panels; the second entry has no [id], and its panel gets the third id
    drawn, after those of the two elements of the first. *)
Lemma load_keeps_panels_witness :
  let items := [ Obj [("id", Str "a"); ("elements", Arr [Obj []; Obj []])];
                 Obj [("bg", Str "#000000")] ] in
  let doc := Obj [("layout", Str "1"); ("panels", Arr items)] in
  exists p r' pan,
    load_document doc sample_random = Ok (p, r')
    /\ length (panels p) = 2%nat
    /\ panels p !! 1%nat = Some pan
    /\ id pan = Str "cq7w2m9"
    /\ drawn r' = Str "dq7w2m9".
Proof.
  assert (Hload : exists p r',
             load_document
               (Obj [("layout", Str "1");
                     ("panels",
                      Arr [ Obj [("id", Str "a");
                                 ("elements", Arr [Obj []; Obj []])];
                            Obj [("bg", Str "#000000")] ])])
               sample_random = Ok (p, r')).
  { eexists _, _. vm_compute. reflexivity. }
  destruct Hload as (p & r' & Hload).
  destruct (load_keeps_panels
              (Obj [("layout", Str "1");
                    ("panels",
                     Arr [ Obj [("id", Str "a");
                                ("elements", Arr [Obj []; Obj []])];
                           Obj [("bg", Str "#000000")] ])])
              [ Obj [("id", Str "a"); ("elements", Arr [Obj []; Obj []])];
                Obj [("bg", Str "#000000")] ]
              p sample_random r' eq_refl Hload)
    as (Hlen & Hend & Hpans).
  destruct (Hpans 1%nat _ eq_refl) as (pan & Hpan & _ & Hid & _).
  exists p, r', pan. split; [exact Hload|]. split; [exact Hlen|].
  split; [exact Hpan|]. split; [exact (Hid eq_refl)|].
  rewrite Hend. reflexivity.
Defined.
(** ** The mutation callbacks *)

Lemma Panel_eta (pan : Panel) :
  {| id := id pan; bg := bg pan; elements := elements pan |} = pan.
Proof. destruct pan; reflexivity. Qed.

Lemma Page_eta (p : Page) : {| layout := layout p; panels := panels p |} = p.
Proof. destruct p; reflexivity. Qed.

Lemma imap_unchanged {A} (f : nat -> A -> A) (l : list A) :
  (forall i x, l !! i = Some x -> f i x = x) -> imap f l = l.
Proof.
  intros H. apply list_eq. intros i. rewrite list_lookup_imap.
  destruct (l !! i) as [x|] eqn:E; simpl; [|reflexivity].
  rewrite (H i x E). reflexivity.
Qed.

Lemma map_unchanged {A} (f : A -> A) (l : list A) :
  (forall x, In x l -> f x = x) -> map f l = l.
Proof.
  induction l as [|x l IH]; intros H; [reflexivity|]. simpl.
  rewrite (H x (or_introl eq_refl)), IH; [reflexivity|].
  intros y Hy. apply H. right. exact Hy.
Qed.

Lemma imap_imap {A} (f g : nat -> A -> A) (l : list A) :
  imap f (imap g l) = imap (fun i x => f i (g i x)) l.
Proof.
  apply list_eq. intros i. rewrite !list_lookup_imap.
  destruct (l !! i); reflexivity.
Qed.

Lemma imap_same {A} (f g : nat -> A -> A) (l : list A) :
  (forall i x, l !! i = Some x -> f i x = g i x) -> imap f l = imap g l.
Proof.
  intros H. apply list_eq. intros i. rewrite !list_lookup_imap.
  destruct (l !! i) as [x|] eqn:E; simpl; [|reflexivity].
  rewrite (H i x E). reflexivity.
Qed.

Lemma spread_app (o q1 q2 : obj) : spread (spread o q1) q2 = spread o (q1 ++ q2).
Proof. unfold spread. rewrite fold_left_app. reflexivity. Qed.

(** *** [setPanel] *)

Lemma setPanel_lookup (idx : nat) (patch : panel_patch) (p : Page) (i : nat) :
  panels (setPanel idx patch p) !! i
  = (fun pan => if (i =? idx)%nat then patch_panel pan patch else pan)
      <$> panels p !! i.
Proof. unfold setPanel. simpl. apply list_lookup_imap. Qed.

Lemma setPanel_out_of_range (idx : nat) (patch : panel_patch) (p : Page) :
  panels p !! idx = None -> setPanel idx patch p = p.
Proof.
  intros H. unfold setPanel. rewrite imap_unchanged; [apply Page_eta|].
  intros i pan Hi. destruct (Nat.eqb_spec i idx) as [->|]; [|reflexivity].
  congruence.
Qed.

(** X9.  [setPanel(idx, patch)] keeps the layout and the number of panels
    and touches panel [idx] only; without a panel [idx] it changes nothing;
    a second patch of the same property replaces the first, and patches of
    the two properties can be made in either order. *)
Theorem setPanel_rules (idx : nat) (a b : panel_patch) (p : Page) :
  layout (setPanel idx a p) = layout p
  /\ length (panels (setPanel idx a p)) = length (panels p)
  /\ (forall i, i <> idx -> panels (setPanel idx a p) !! i = panels p !! i)
  /\ (panels p !! idx = None -> setPanel idx a p = p)
  /\ (same_property a b = true ->
      setPanel idx b (setPanel idx a p) = setPanel idx b p)
  /\ (same_property a b = false ->
      setPanel idx b (setPanel idx a p) = setPanel idx a (setPanel idx b p)).
Proof.
  split; [reflexivity|].
  split; [apply length_imap|].
  split.
  { intros i Hi. rewrite setPanel_lookup.
    destruct (Nat.eqb_spec i idx); [contradiction|].
    destruct (panels p !! i); reflexivity. }
  split; [apply setPanel_out_of_range|].
  split; intros Hab; unfold setPanel; simpl; f_equal; rewrite !imap_imap;
    apply imap_same; intros i pan _; destruct (i =? idx)%nat;
    try reflexivity; destruct a, b; try discriminate; reflexivity.
Qed.

(** *** [mutateElement] *)

Lemma mutateElement_not_found (pIdx : nat) (eId : value) (patch : obj)
    (p : Page) :
  find_element p pIdx eId = None -> mutateElement pIdx eId patch p = p.
Proof.
  unfold find_element, mutateElement. intros Hf.
  rewrite imap_unchanged; [apply Page_eta|].
  intros i pan Hi. destruct (Nat.eqb_spec i pIdx) as [->|]; [|reflexivity].
  simpl. rewrite Hi in Hf. rewrite map_unchanged; [apply Panel_eta|].
  intros el Hel. rewrite (find_none _ _ Hf el Hel). reflexivity.
Qed.

Lemma mutateElement_empty (pIdx : nat) (eId : value) (p : Page) :
  mutateElement pIdx eId [] p = p.
Proof.
  unfold mutateElement. rewrite imap_unchanged; [apply Page_eta|].
  intros i pan Hi. destruct (i =? pIdx)%nat; [|reflexivity]. simpl.
  rewrite map_unchanged; [apply Panel_eta|].
  intros el _. destruct (strict_eq (field el "id") eId); reflexivity.
Qed.

(** X10.  [mutateElement] never adds, drops or reorders anything: the
    layout, the number of panels, each panel's id, background and number of
    elements stay, and so does every panel other than [panelIdx].  When the
    panel has no element with the id (or there is no such panel) the page is
    unchanged, and so it is under an empty patch. *)
Theorem mutateElement_frame (pIdx : nat) (eId : value) (patch : obj)
    (p : Page) :
  layout (mutateElement pIdx eId patch p) = layout p
  /\ length (panels (mutateElement pIdx eId patch p)) = length (panels p)
  /\ (forall i pan,
        panels p !! i = Some pan ->
        exists pan',
          panels (mutateElement pIdx eId patch p) !! i = Some pan'
          /\ id pan' = id pan
          /\ bg pan' = bg pan
          /\ length (elements pan') = length (elements pan)
          /\ (i <> pIdx -> pan' = pan))
  /\ (find_element p pIdx eId = None -> mutateElement pIdx eId patch p = p)
  /\ mutateElement pIdx eId [] p = p.
Proof.
  split; [reflexivity|].
  split; [apply length_imap|].
  split.
  { intros i pan Hi. rewrite mutateElement_lookup, Hi. simpl.
    destruct (Nat.eqb_spec i pIdx) as [->|Hne].
    - eexists. split; [reflexivity|]. simpl.
      rewrite length_map. repeat split. contradiction.
    - exists pan. repeat split. }
  split; [apply mutateElement_not_found | apply mutateElement_empty].
Qed.

Lemma mutateElement_merge (pIdx : nat) (eId : value) (q1 q2 : obj) (p : Page) :
  is_key_of (keys q1) "id" = false ->
  mutateElement pIdx eId q2 (mutateElement pIdx eId q1 p)
  = mutateElement pIdx eId (q1 ++ q2) p.
Proof.
  intros Hid. unfold mutateElement. simpl. f_equal. rewrite imap_imap.
  apply imap_same. intros i pan _.
  destruct (i =? pIdx)%nat; [|reflexivity]. simpl. f_equal.
  rewrite map_map. apply map_ext. intros el.
  destruct (strict_eq (field el "id") eId) eqn:E.
  - rewrite field_spread_other by assumption. rewrite E.
    apply spread_app.
  - rewrite E. reflexivity.
Qed.

(** X11.  Two patches of the same element in a row act as the one patch
    that lists the properties of the first and then those of the second (so
    the second wins where both write), provided the first does not write
    [id]. *)
Theorem mutateElement_twice (pIdx : nat) (eId : value) (q1 q2 : obj)
    (p : Page) :
  is_key_of (keys q1) "id" = false ->
  mutateElement pIdx eId q2 (mutateElement pIdx eId q1 p)
  = mutateElement pIdx eId (q1 ++ q2) p.
Proof. apply mutateElement_merge. Qed.

(** Moving the text of the sample page and then restacking it. *)
Lemma mutateElement_twice_witness :
  mutateElement 0 (Str "aq7w2m9") [("z", lit 3)]
    (mutateElement 0 (Str "aq7w2m9") [("x", lit 40); ("y", lit 60)]
                   sample_text_page)
  = mutateElement 0 (Str "aq7w2m9") [("x", lit 40); ("y", lit 60); ("z", lit 3)]
                  sample_text_page
  /\ (fun el => field el "z") <$> element_at
       (mutateElement 0 (Str "aq7w2m9") [("x", lit 40); ("y", lit 60); ("z", lit 3)]
                      sample_text_page) 0 0 = Some (lit 3).
Proof.
  split; [|reflexivity].
  exact (mutateElement_twice 0 (Str "aq7w2m9") [("x", lit 40); ("y", lit 60)]
           [("z", lit 3)] sample_text_page eq_refl).
Defined.

(** *** [addText], [addImage], [removeElement] *)

Lemma defaultText_drawn (st : value) (r : randomness) :
  exists el,
    defaultText st r = Ok (el, after_draw r)
    /\ field el "id" = drawn r
    /\ field el "type" = Str "text"
    /\ field el "subtype" = st.
Proof. eexists. split; [reflexivity|]. repeat split. Qed.

Lemma setPanel_elements_at (idx : nat) (els : list obj) (p : Page) (pan : Panel) :
  panels p !! idx = Some pan ->
  panels (setPanel idx (patch_elements els) p) !! idx
  = Some {| id := id pan; bg := bg pan; elements := els |}.
Proof.
  intros H. rewrite setPanel_lookup, H. simpl. rewrite Nat.eqb_refl.
  reflexivity.
Qed.

Lemma setPanel_elsewhere (idx : nat) (patch : panel_patch) (p : Page) (i : nat) :
  i <> idx -> panels (setPanel idx patch p) !! i = panels p !! i.
Proof.
  intros Hi. rewrite setPanel_lookup.
  destruct (Nat.eqb_spec i idx); [contradiction|].
  destruct (panels p !! i); reflexivity.
Qed.

(** X12.  [addText(panelIdx, subtype)] appends one element to the end of
    the panel, the default text of the subtype with a newly drawn id;
    the elements that were there, the other panels and the layout stay as
    they were.  Without a panel at [panelIdx] it throws a [TypeError] and
    nothing is added. *)
Theorem addText_appends (idx : nat) (st : value) (p : Page) (r : randomness) :
  (panels p !! idx = None -> addText idx st p r = Throw (TypeError, r))
  /\ (forall pan,
        panels p !! idx = Some pan ->
        exists el p',
          addText idx st p r = Ok (p', after_draw r)
          /\ defaultText st r = Ok (el, after_draw r)
          /\ field el "id" = drawn r
          /\ field el "type" = Str "text"
          /\ field el "subtype" = st
          /\ layout p' = layout p
          /\ length (panels p') = length (panels p)
          /\ panels p' !! idx
             = Some {| id := id pan; bg := bg pan;
                       elements := elements pan ++ [el] |}
          /\ (forall i, i <> idx -> panels p' !! i = panels p !! i)).
Proof.
  split.
  - intros H. unfold addText, elements_at, bind, lift. rewrite H. reflexivity.
  - intros pan H.
    destruct (defaultText_drawn st r) as (el & Hel & Hid & Hty & Hst).
    exists el, (setPanel idx (patch_elements (elements pan ++ [el])) p).
    split.
    { unfold addText, elements_at, bind, lift. rewrite H, Hel. reflexivity. }
    split; [assumption|]. split; [assumption|]. split; [assumption|].
    split; [assumption|]. split; [reflexivity|].
    split; [apply length_imap|].
    split; [apply setPanel_elements_at; assumption|].
    intros i Hi. apply setPanel_elsewhere. assumption.
Qed.

Lemma ToBoolean_lit (z : Z) :
  Z.abs z < 2 ^ 53 -> ToBoolean (lit z) = negb (z =? 0).
Proof.
  intros Hz. destruct (Z.eq_dec z 0) as [->|Hz0]; [reflexivity|].
  destruct (of_Z_finite z Hz0 Hz) as (m & e & H & _).
  unfold lit. rewrite H. simpl.
  destruct (Z.eqb_spec z 0); [contradiction | reflexivity].
Qed.

(** The size that [defaultImage] gives for a natural size [n] and the
    cap [c]: [Math.min(c, n || c)]. *)
Lemma capped_size (n c : Z) :
  0 <= n < 2 ^ 53 -> 0 < c < 2 ^ 53 ->
  Math_min2 (lit c) (or_else (lit n) (lit c))
  = Ok (of_Z (if n =? 0 then c else Z.min c n)).
Proof.
  intros Hn Hc. unfold or_else. rewrite ToBoolean_lit by lia.
  destruct (Z.eqb_spec n 0) as [->|Hn0]; simpl negb; cbv iota.
  - unfold Math_min2. cbn [lit ToNumber rbind].
    rewrite Math_min_of_Z by lia. rewrite Z.min_id. reflexivity.
  - unfold Math_min2. cbn [lit ToNumber rbind].
    rewrite Math_min_of_Z by lia. reflexivity.
Qed.

Lemma defaultImage_probed (src : value) (wd ht : Z) (r : randomness) :
  0 <= wd < 2 ^ 53 -> 0 <= ht < 2 ^ 53 ->
  defaultImage src (Obj [("width", lit wd); ("height", lit ht)]) r
  = Ok ([ ("id", drawn r); ("type", Str "image"); ("src", src);
          ("x", lit 24); ("y", lit 24);
          ("w", lit (if wd =? 0 then 300 else Z.min 300 wd));
          ("h", lit (if ht =? 0 then 220 else Z.min 220 ht));
          ("z", lit 0); ("rotate", lit 0) ], after_draw r).
Proof.
  intros Hw Hh. unfold defaultImage, uid, random_string, bind, lift, ret.
  unfold optional_get. cbn [nullish get field lookup_prop String.eqb Ascii.eqb Bool.eqb].
  rewrite (capped_size wd 300 Hw) by (split; reflexivity).
  rewrite (capped_size ht 220 Hh) by (split; reflexivity).
  reflexivity.
Qed.

Lemma defaultImage_unprobed (src : value) (r : randomness) :
  defaultImage src Null r
  = Ok ([ ("id", drawn r); ("type", Str "image"); ("src", src);
          ("x", lit 24); ("y", lit 24); ("w", lit 300); ("h", lit 220);
          ("z", lit 0); ("rotate", lit 0) ], after_draw r).
Proof. reflexivity. Qed.

(** X13.  [addImage] builds the new list of elements from the panel of the
    page that was shown when the file was chosen, with one image appended,
    and installs it in the panel of the current page: that panel keeps its
    current id and background, and elements added to it while the probe was
    pending are not in the list.  The other panels and the layout are those
    of the current page.  The image has a newly drawn id, sits at
    [(24, 24)], and its size is the natural size of the picture capped at
    300 by 220; a side that the probe reports as 0, and both sides when the
    probe failed, take the cap itself.  There is no lower bound: a picture
    of 4 by 4 is added at 4 by 4.  Without a panel at [panelIdx] in the
    page shown it throws a [TypeError] before anything is drawn. *)
Theorem addImage_size (idx : nat) (url : value) (wd ht : Z)
    (shown current : Page) (r : randomness) :
  0 <= wd < 2 ^ 53 -> 0 <= ht < 2 ^ 53 ->
  (panels shown !! idx = None ->
   forall probe, addImage idx url probe shown current r = Throw (TypeError, r))
  /\ (forall pan,
        panels shown !! idx = Some pan ->
        (exists el p',
           addImage idx url (Obj [("width", lit wd); ("height", lit ht)])
                    shown current r
           = Ok (p', after_draw r)
           /\ (forall cur,
                 panels current !! idx = Some cur ->
                 panels p' !! idx
                 = Some {| id := id cur; bg := bg cur;
                           elements := elements pan ++ [el] |})
           /\ (forall i, i <> idx -> panels p' !! i = panels current !! i)
           /\ length (panels p') = length (panels current)
           /\ layout p' = layout current
           /\ field el "id" = drawn r
           /\ field el "type" = Str "image"
           /\ field el "src" = url
           /\ field el "x" = lit 24 /\ field el "y" = lit 24
           /\ field el "w" = lit (if wd =? 0 then 300 else Z.min 300 wd)
           /\ field el "h" = lit (if ht =? 0 then 220 else Z.min 220 ht))
        /\ (exists el p',
              addImage idx url Null shown current r = Ok (p', after_draw r)
              /\ (forall cur,
                    panels current !! idx = Some cur ->
                    panels p' !! idx
                    = Some {| id := id cur; bg := bg cur;
                              elements := elements pan ++ [el] |})
              /\ (forall i, i <> idx -> panels p' !! i = panels current !! i)
              /\ length (panels p') = length (panels current)
              /\ layout p' = layout current
              /\ field el "id" = drawn r
              /\ field el "type" = Str "image"
              /\ field el "src" = url
              /\ field el "x" = lit 24 /\ field el "y" = lit 24
              /\ field el "w" = lit 300 /\ field el "h" = lit 220)).
Proof.
  intros Hw Hh. split.
  { intros Hnone probe. unfold addImage, elements_at, bind, lift.
    rewrite Hnone. reflexivity. }
  intros pan Hpan. split.
  - eexists _, _. split.
    { unfold addImage, elements_at, bind, lift. rewrite Hpan.
      rewrite (defaultImage_probed url wd ht r Hw Hh). reflexivity. }
    split; [intros cur Hcur; apply setPanel_elements_at; exact Hcur|].
    split; [intros i Hi; apply setPanel_elsewhere; exact Hi|].
    split; [apply length_imap|].
    repeat split.
  - eexists _, _. split.
    { unfold addImage, elements_at, bind, lift. rewrite Hpan.
      rewrite defaultImage_unprobed. reflexivity. }
    split; [intros cur Hcur; apply setPanel_elements_at; exact Hcur|].
    split; [intros i Hi; apply setPanel_elsewhere; exact Hi|].
    split; [apply length_imap|].
    repeat split.
Qed.

(** A picture of 1024 by 4 is chosen for the first panel of the sample
    page, and a text is added to that panel while the probe is pending:
    afterwards the panel holds the image alone, 300 by 4. *)
Lemma addImage_size_witness :
  exists el p',
    elements <$> panels sample_page !! 0%nat = Some []
    /\ length <$> (elements <$> panels sample_text_page !! 0%nat) = Some 1%nat
    /\ addImage 0 (Str "blob:a") (Obj [("width", lit 1024); ("height", lit 4)])
                sample_page sample_text_page sample_random
       = Ok (p', after_draw sample_random)
    /\ elements <$> panels p' !! 0%nat = Some [el]
    /\ field el "w" = lit 300 /\ field el "h" = lit 4.
Proof.
  destruct (proj1 (proj2 (addImage_size 0 (Str "blob:a") 1024 4 sample_page
                            sample_text_page sample_random
                            ltac:(lia) ltac:(lia))
                     {| id := Str "aq7w2m9"; bg := Str "#ffffff";
                        elements := [] |} eq_refl))
    as (el & p' & Hadd & Hpan & _ & _ & _ & _ & _ & _ & _ & _ & Hw & Hh).
  exists el, p'. split; [reflexivity|]. split; [reflexivity|].
  split; [exact Hadd|].
  split; [|split; [exact Hw | exact Hh]].
  destruct (panels sample_text_page !! 0%nat) as [cur|] eqn:Hcur;
    [|discriminate Hcur].
  rewrite (Hpan cur eq_refl). reflexivity.
Defined.

Lemma find_filter_none {A} (f : A -> bool) (l : list A) :
  List.find f (List.filter (fun x => negb (f x)) l) = None.
Proof.
  induction l as [|x l IH]; [reflexivity|]. simpl.
  destruct (f x) eqn:E; simpl; [exact IH|]. rewrite E. exact IH.
Qed.

Lemma filter_filter_same {A} (f : A -> bool) (l : list A) :
  List.filter f (List.filter f l) = List.filter f l.
Proof.
  induction l as [|x l IH]; [reflexivity|]. simpl.
  destruct (f x) eqn:E; simpl; [rewrite E, IH|]; auto.
Qed.

Lemma filter_unchanged {A} (f : A -> bool) (l : list A) :
  (forall x, In x l -> f x = true) -> List.filter f l = l.
Proof.
  induction l as [|x l IH]; intros H; [reflexivity|]. simpl.
  rewrite (H x (or_introl eq_refl)), IH; [reflexivity|].
  intros y Hy. apply H. right. exact Hy.
Qed.

Lemma remove_from_lookup (pIdx : nat) (eId : value) (p : Page) (i : nat) :
  panels (remove_from pIdx eId p) !! i
  = (fun pan =>
       if (i =? pIdx)%nat
       then {| id := id pan; bg := bg pan;
               elements := List.filter
                             (fun el => negb (strict_eq (field el "id") eId))
                             (elements pan) |}
       else pan) <$> panels p !! i.
Proof.
  unfold remove_from. simpl. rewrite list_lookup_imap.
  destruct (panels p !! i); [|reflexivity]. simpl.
  destruct (i =? pIdx)%nat; reflexivity.
Qed.

Lemma remove_from_gone (pIdx : nat) (eId : value) (p : Page) :
  find_element (remove_from pIdx eId p) pIdx eId = None.
Proof.
  unfold find_element. rewrite remove_from_lookup.
  destruct (panels p !! pIdx) as [pan|]; [|reflexivity]. simpl.
  rewrite Nat.eqb_refl. simpl.
  apply (find_filter_none (fun x => strict_eq (field x "id") eId)).
Qed.

Lemma remove_from_again (pIdx : nat) (eId : value) (p : Page) :
  remove_from pIdx eId (remove_from pIdx eId p) = remove_from pIdx eId p.
Proof.
  unfold remove_from. simpl. f_equal. rewrite imap_imap.
  apply imap_same. intros i pan _.
  destruct (i =? pIdx)%nat; [|reflexivity]. simpl. f_equal.
  apply filter_filter_same.
Qed.

Lemma remove_from_not_found (pIdx : nat) (eId : value) (p : Page) :
  find_element p pIdx eId = None -> remove_from pIdx eId p = p.
Proof.
  unfold find_element, remove_from. intros Hf.
  rewrite imap_unchanged; [apply Page_eta|].
  intros i pan Hi. destruct (Nat.eqb_spec i pIdx) as [->|]; [|reflexivity].
  simpl. rewrite Hi in Hf. rewrite filter_unchanged; [apply Panel_eta|].
  intros el Hel. rewrite (find_none _ _ Hf el Hel). reflexivity.
Qed.

(** X14.  [removeElement(panelIdx, elId)] takes every element with that id
    out of the panel and nothing else: the other elements keep their order,
    the other panels, the layout and the number of panels stay.  It clears
    the selected element and keeps the selected panel.  Afterwards no
    element of the panel has the id, so removing again changes nothing; and
    when no element had the id the page is unchanged. *)
Theorem removeElement_removes (pIdx : nat) (eId : value) (w : World) :
  let w' := removeElement pIdx eId w in
  find_element (page w') pIdx eId = None
  /\ selection w' = {| panelIdx := panelIdx (selection w); elId := Null |}
  /\ layout (page w') = layout (page w)
  /\ length (panels (page w')) = length (panels (page w))
  /\ (forall i pan,
        panels (page w) !! i = Some pan ->
        panels (page w') !! i
        = Some (if (i =? pIdx)%nat
                then {| id := id pan; bg := bg pan;
                        elements :=
                          List.filter
                            (fun el => negb (strict_eq (field el "id") eId))
                            (elements pan) |}
                else pan))
  /\ removeElement pIdx eId w' = w'
  /\ (find_element (page w) pIdx eId = None -> page w' = page w).
Proof.
  intros w'. subst w'. unfold removeElement. cbn [page selection with_page with_selection].
  split; [apply remove_from_gone|].
  split; [reflexivity|]. split; [reflexivity|].
  split; [apply length_imap|].
  split.
  { intros i pan Hi. rewrite remove_from_lookup, Hi. reflexivity. }
  split.
  { unfold with_selection, with_page. cbn. rewrite remove_from_again.
    reflexivity. }
  apply remove_from_not_found.
Qed.

(** ** The keyboard *)

Lemma onKey_cases (tag : option string) (e : KeyboardEvent) (w w' : World) :
  onKey tag e w = Ok w' ->
  w' = w
  \/ (nullish (elId (selection w)) = false
      /\ is_key_of ["Delete"; "Backspace"] (key e) = true
      /\ w' = removeElement (panelIdx (selection w)) (elId (selection w)) w)
  \/ (exists el patch,
        find_element (page w) (panelIdx (selection w)) (elId (selection w))
        = Some el
        /\ is_key_of (keys patch) "id" = false
        /\ w' = with_page w (mutateElement (panelIdx (selection w))
                                          (elId (selection w)) patch (page w))).
Proof.
  unfold onKey. destruct tag as [t|]; [|intros H; left; congruence].
  destruct ((t =? "INPUT")%string || (t =? "TEXTAREA")%string);
    [intros H; left; congruence|].
  destruct (nullish (elId (selection w))) eqn:Hsel;
    [intros H; left; congruence|].
  destruct ((key e =? "Delete")%string || (key e =? "Backspace")%string)
    eqn:Hd.
  { intros H. right. left. split; [reflexivity|]. split; [|congruence].
    unfold is_key_of, existsb. rewrite orb_false_r. exact Hd. }
  destruct (is_key_of _ (key e)).
  { destruct (find_element _ _ _) as [el|]; [|intros H; left; congruence].
    unfold rbind. destruct (plus _ _) as [nx|x]; [|discriminate].
    destruct (plus _ _) as [ny|x]; [|discriminate].
    intros H. right. right. exists el. eexists. split; [reflexivity|].
    split; [|apply Ok_inj in H; symmetry; exact H]. reflexivity. }
  destruct (key e =? "]")%string.
  { destruct (find_element _ _ _) as [el|]; [|intros H; left; congruence].
    unfold rbind. destruct (plus _ _) as [nz|x]; [|discriminate].
    intros H. right. right. exists el. eexists. split; [reflexivity|].
    split; [|apply Ok_inj in H; symmetry; exact H]. reflexivity. }
  destruct (key e =? "[")%string.
  { destruct (find_element _ _ _) as [el|]; [|intros H; left; congruence].
    unfold rbind. destruct (minus _ _) as [d|x]; [|discriminate].
    destruct (Math_max2 _ _) as [nz|x]; [|discriminate].
    intros H. right. right. exists el. eexists. split; [reflexivity|].
    split; [|apply Ok_inj in H; symmetry; exact H]. reflexivity. }
  intros H. left. congruence.
Qed.

(** X15.  What a key press never does: it leaves the store, the downloads
    and the alerts alone, and keeps the layout, the number of panels, every
    panel other than the selected one and the selected panel's index; the
    selected element is kept, or cleared by [Delete] and [Backspace]. *)
Theorem onKey_frame (tag : option string) (e : KeyboardEvent) (w w' : World) :
  onKey tag e w = Ok w' ->
  localStorage w' = localStorage w
  /\ downloads w' = downloads w
  /\ alerts w' = alerts w
  /\ layout (page w') = layout (page w)
  /\ length (panels (page w')) = length (panels (page w))
  /\ (forall i, i <> panelIdx (selection w) ->
                panels (page w') !! i = panels (page w) !! i)
  /\ panelIdx (selection w') = panelIdx (selection w)
  /\ (elId (selection w') = elId (selection w)
      \/ (elId (selection w') = Null
          /\ is_key_of ["Delete"; "Backspace"] (key e) = true)).
Proof.
  intros H. pose proof (onKey_cases _ _ _ _ H) as [->|[(Hs & Hk & ->)|Hm]].
  - repeat split; auto.
  - unfold removeElement. cbn [page selection with_page with_selection
                               localStorage downloads alerts panelIdx elId].
    repeat split; auto.
    + apply length_imap.
    + intros i Hi. rewrite remove_from_lookup.
      destruct (Nat.eqb_spec i (panelIdx (selection w))); [contradiction|].
      destruct (panels (page w) !! i); reflexivity.
  - destruct Hm as (el & patch & _ & _ & ->).
    cbn [page selection with_page localStorage downloads alerts].
    repeat split; auto.
    + apply length_imap.
    + intros i Hi. rewrite mutateElement_lookup.
      destruct (Nat.eqb_spec i (panelIdx (selection w))); [contradiction|].
      destruct (panels (page w) !! i); reflexivity.
Qed.

(** [Delete] on the text of the sample page. *)
Lemma onKey_frame_witness :
  let w := with_selection (with_page sample_world sample_text_page)
             {| panelIdx := 0; elId := Str "aq7w2m9" |} in
  exists w',
    onKey (Some "BODY") {| key := "Delete"; shiftKey := false |} w = Ok w'
    /\ element_at (page w') 0 0 = None
    /\ alerts w' = alerts w
    /\ length (panels (page w')) = 4%nat.
Proof.
  eexists. split; [reflexivity|]. split; [reflexivity|].
  pose proof (onKey_frame (Some "BODY") {| key := "Delete"; shiftKey := false |}
                (with_selection (with_page sample_world sample_text_page)
                                {| panelIdx := 0; elId := Str "aq7w2m9" |})
                _ eq_refl) as (_ & _ & Ha & _ & Hl & _).
  split; [exact Ha | exact Hl].
Defined.

(** X16.  With the focus outside a text field and an element selected,
    [Delete] and [Backspace] remove the selected element and clear the
    selection; after that no element of the panel has the id, and every key
    is ignored until something is selected again. *)
Theorem delete_key (tag k : string) (shift : bool) (w : World) :
  (tag =? "INPUT")%string || (tag =? "TEXTAREA")%string = false ->
  nullish (elId (selection w)) = false ->
  is_key_of ["Delete"; "Backspace"] k = true ->
  let w1 := removeElement (panelIdx (selection w)) (elId (selection w)) w in
  onKey (Some tag) {| key := k; shiftKey := shift |} w = Ok w1
  /\ find_element (page w1) (panelIdx (selection w)) (elId (selection w)) = None
  /\ elId (selection w1) = Null
  /\ forall tag2 e2, onKey tag2 e2 w1 = Ok w1.
Proof.
  intros Htag Hsel Hk w1. split; [|split; [|split]].
  - unfold onKey. rewrite Htag, Hsel. cbn [key].
    unfold is_key_of, existsb in Hk. rewrite orb_false_r in Hk. rewrite Hk.
    reflexivity.
  - apply remove_from_gone.
  - reflexivity.
  - intros tag2 e2. unfold onKey. destruct tag2 as [t|]; [|reflexivity].
    destruct ((t =? "INPUT")%string || (t =? "TEXTAREA")%string); reflexivity.
Qed.

Lemma delete_key_witness :
  let w := with_selection (with_page sample_world sample_text_page)
             {| panelIdx := 0; elId := Str "aq7w2m9" |} in
  let w1 := removeElement 0 (Str "aq7w2m9") w in
  element_at (page w) 0 0 <> None
  /\ onKey (Some "BODY") {| key := "Backspace"; shiftKey := true |} w = Ok w1
  /\ onKey (Some "BODY") {| key := "ArrowUp"; shiftKey := false |} w1 = Ok w1.
Proof.
  split; [discriminate|].
  destruct (delete_key "BODY" "Backspace" true
              (with_selection (with_page sample_world sample_text_page)
                              {| panelIdx := 0; elId := Str "aq7w2m9" |})
              eq_refl eq_refl eq_refl) as (H1 & _ & _ & H2).
  split; [exact H1 | apply H2].
Defined.

(** *** The arrow keys *)

Lemma field_lookup (o : obj) (k : string) (v : value) :
  field o k = v -> v <> Undefined -> lookup_prop k o = Some v.
Proof.
  unfold field. destruct (lookup_prop k o); intros; congruence.
Qed.

Lemma set_prop_same (k : string) (v : value) (o : obj) :
  lookup_prop k o = Some v -> set_prop k v o = o.
Proof.
  induction o as [|[k' v'] o IH]; simpl; [discriminate|].
  destruct (k =? k')%string eqn:E.
  - intros H. injection H as ->. apply String.eqb_eq in E. subst. reflexivity.
  - intros H. rewrite (IH H). reflexivity.
Qed.

Lemma set_prop_override (k : string) (v1 v2 : value) (o : obj) :
  set_prop k v2 (set_prop k v1 o) = set_prop k v2 o.
Proof.
  induction o as [|[k' v'] o IH]; simpl.
  - rewrite String.eqb_refl. reflexivity.
  - destruct (k =? k')%string eqn:E; simpl.
    + rewrite String.eqb_refl. reflexivity.
    + rewrite E, IH. reflexivity.
Qed.

Lemma lookup_set_prop_ne (k k' : string) (v : value) (o : obj) :
  (k' =? k)%string = false ->
  lookup_prop k' (set_prop k v o) = lookup_prop k' o.
Proof.
  intros Hne. induction o as [|[k0 v0] o IH]; simpl.
  - rewrite Hne. reflexivity.
  - destruct (k =? k0)%string eqn:E; simpl.
    + apply String.eqb_eq in E. subst k0. rewrite Hne. reflexivity.
    + destruct (k' =? k0)%string; [reflexivity | exact IH].
Qed.

Lemma lookup_set_prop_eq (k : string) (v : value) (o : obj) :
  lookup_prop k (set_prop k v o) = Some v.
Proof.
  induction o as [|[k0 v0] o IH]; simpl.
  - rewrite String.eqb_refl. reflexivity.
  - destruct (k =? k0)%string eqn:E; simpl.
    + rewrite String.eqb_refl. reflexivity.
    + rewrite E. exact IH.
Qed.

(** Two writes of different properties can be swapped when the object has
    the one written last (otherwise the order of the new properties would
    differ). *)
Lemma set_prop_swap (k1 k2 : string) (u v : value) (o : obj) :
  (k2 =? k1)%string = false ->
  lookup_prop k1 o <> None ->
  set_prop k1 u (set_prop k2 v o) = set_prop k2 v (set_prop k1 u o).
Proof.
  intros Hne.
  assert (Hne' : (k1 =? k2)%string = false).
  { rewrite String.eqb_sym. exact Hne. }
  induction o as [|[k0 v0] o IH]; cbn [lookup_prop set_prop]; [congruence|].
  destruct (k1 =? k0)%string eqn:E1; destruct (k2 =? k0)%string eqn:E2;
    intros H.
  - apply String.eqb_eq in E1, E2. subst. rewrite String.eqb_refl in Hne.
    discriminate.
  - cbn [set_prop]. rewrite E1, Hne. reflexivity.
  - cbn [set_prop]. rewrite Hne', E2. reflexivity.
  - cbn [set_prop]. rewrite E1, E2, (IH H). reflexivity.
Qed.

(** Writing [x] and [y], then writing back what they were. *)
Lemma spread_back (o : obj) (k1 k2 : string) (a b a' b' : value) :
  (k2 =? k1)%string = false ->
  lookup_prop k1 o = Some a -> lookup_prop k2 o = Some b ->
  spread (spread o [(k1, a'); (k2, b')]) [(k1, a); (k2, b)] = o.
Proof.
  intros Hne Ha Hb. unfold spread. simpl.
  rewrite (set_prop_swap k1 k2 a b' _ Hne)
    by (rewrite lookup_set_prop_eq; discriminate).
  rewrite !set_prop_override, (set_prop_same k1 a o Ha).
  apply set_prop_same. exact Hb.
Qed.

Lemma field_spread_xy (o : obj) (a b : value) :
  field (spread o [("x", a); ("y", b)]) "x" = a
  /\ field (spread o [("x", a); ("y", b)]) "y" = b.
Proof.
  unfold spread. simpl. split.
  - rewrite field_set_prop_ne by reflexivity. apply field_set_prop_eq.
  - apply field_set_prop_eq.
Qed.

(** The element found under [eId] once a position was committed: it is at
    that position, and otherwise as it was. *)
Lemma find_element_moved (pIdx : nat) (eId a b : value) (p : Page) (el : obj) :
  find_element p pIdx eId = Some el ->
  exists el',
    find_element (mutateElement pIdx eId [("x", a); ("y", b)] p) pIdx eId
    = Some el'
    /\ field el' "x" = a /\ field el' "y" = b
    /\ (forall k, (k =? "x")%string = false -> (k =? "y")%string = false ->
                  field el' k = field el k).
Proof.
  intros Hel. exists (spread el [("x", a); ("y", b)]).
  split; [apply find_element_committed; [reflexivity | exact Hel]|].
  destruct (field_spread_xy el a b) as (Hx & Hy).
  split; [exact Hx|]. split; [exact Hy|].
  intros k Hkx Hky. apply field_spread_other. simpl.
  rewrite Hkx, Hky. reflexivity.
Qed.

Lemma opp_one : opp (of_Z 1) = of_Z (-1).
Proof. reflexivity. Qed.

Lemma opp_ten : opp (of_Z 10) = of_Z (-10).
Proof. reflexivity. Qed.

(** One press of an arrow key on an element at an integer position. *)
Lemma arrow_commits (tag : string) (shift : bool) (w : World) (el : obj)
    (x y : Z) :
  (tag =? "INPUT")%string || (tag =? "TEXTAREA")%string = false ->
  nullish (elId (selection w)) = false ->
  find_element (page w) (panelIdx (selection w)) (elId (selection w)) = Some el ->
  field el "x" = lit x -> field el "y" = lit y ->
  Z.abs x + 10 < 2 ^ 53 -> Z.abs y + 10 < 2 ^ 53 ->
  let step := if shift then 10 else 1 in
  let nudged dx dy :=
    Ok (with_page w (mutateElement (panelIdx (selection w)) (elId (selection w))
                                   [("x", lit (x + dx)); ("y", lit (y + dy))]
                                   (page w))) in
  onKey (Some tag) {| key := "ArrowRight"; shiftKey := shift |} w
  = nudged step 0
  /\ onKey (Some tag) {| key := "ArrowLeft"; shiftKey := shift |} w
     = nudged (- step) 0
  /\ onKey (Some tag) {| key := "ArrowDown"; shiftKey := shift |} w
     = nudged 0 step
  /\ onKey (Some tag) {| key := "ArrowUp"; shiftKey := shift |} w
     = nudged 0 (- step).
Proof.
  intros Htag Hsel Hel Hx Hy Hbx Hby step nudged. subst step nudged.
  assert (Hadd : forall a b, Z.abs a + 10 < 2 ^ 53 -> Z.abs b <= 10 ->
                             add (of_Z a) (of_Z b) = of_Z (a + b)).
  { intros a b Ha Hb. apply add_int_exact; lia. }
  repeat split; unfold onKey; rewrite Htag, Hsel; cbn [key shiftKey];
    cbv [String.eqb Ascii.eqb Bool.eqb orb is_key_of existsb];
    rewrite Hel, Hx, Hy; unfold lit; rewrite !plus_numbers; cbn [rbind];
    destruct shift; rewrite ?opp_one, ?opp_ten, !Hadd by lia; reflexivity.
Qed.

(** X17.  With the focus outside a text field and the selected element at
    an integer position [(x, y)], an arrow key commits the position moved
    by 1, or by 10 with Shift, in the direction of the arrow, and writes no
    other property: the element found under the selected id afterwards is
    at the new position and has every other property as before.  The
    position is not clamped, and the selection stays. *)
Theorem arrow_keys (tag : string) (shift : bool) (w : World) (el : obj)
    (x y : Z) :
  (tag =? "INPUT")%string || (tag =? "TEXTAREA")%string = false ->
  nullish (elId (selection w)) = false ->
  find_element (page w) (panelIdx (selection w)) (elId (selection w)) = Some el ->
  field el "x" = lit x -> field el "y" = lit y ->
  Z.abs x + 10 < 2 ^ 53 -> Z.abs y + 10 < 2 ^ 53 ->
  let step := if shift then 10 else 1 in
  let lands k dx dy :=
    exists w' el',
      onKey (Some tag) {| key := k; shiftKey := shift |} w = Ok w'
      /\ w' = with_page w (mutateElement (panelIdx (selection w))
                             (elId (selection w))
                             [("x", lit (x + dx)); ("y", lit (y + dy))]
                             (page w))
      /\ selection w' = selection w
      /\ find_element (page w') (panelIdx (selection w)) (elId (selection w))
         = Some el'
      /\ field el' "x" = lit (x + dx)
      /\ field el' "y" = lit (y + dy)
      /\ (forall k', (k' =? "x")%string = false -> (k' =? "y")%string = false ->
                     field el' k' = field el k') in
  lands "ArrowRight" step 0
  /\ lands "ArrowLeft" (- step) 0
  /\ lands "ArrowDown" 0 step
  /\ lands "ArrowUp" 0 (- step).
Proof.
  intros Htag Hsel Hel Hx Hy Hbx Hby step lands.
  destruct (arrow_commits tag shift w el x y Htag Hsel Hel Hx Hy Hbx Hby)
    as (Hr & Hl & Hd & Hu).
  assert (Hland : forall k dx dy,
             onKey (Some tag) {| key := k; shiftKey := shift |} w
             = Ok (with_page w (mutateElement (panelIdx (selection w))
                                  (elId (selection w))
                                  [("x", lit (x + dx)); ("y", lit (y + dy))]
                                  (page w))) ->
             lands k dx dy).
  { intros k dx dy Hk.
    destruct (find_element_moved (panelIdx (selection w)) (elId (selection w))
                (lit (x + dx)) (lit (y + dy)) (page w) el Hel)
      as (el' & Hf & Hx' & Hy' & Hkeep).
    eexists _, el'. split; [exact Hk|]. split; [reflexivity|].
    split; [reflexivity|]. split; [exact Hf|]. auto. }
  split; [apply Hland; exact Hr|]. split; [apply Hland; exact Hl|].
  split; [apply Hland; exact Hd | apply Hland; exact Hu].
Qed.

(** The text of the sample page is at (24, 24): Shift and the left arrow
    put it at (14, 24), and it is still 200 wide. *)
Lemma arrow_keys_witness :
  let w := with_selection (with_page sample_world sample_text_page)
             {| panelIdx := 0; elId := Str "aq7w2m9" |} in
  exists w' el',
    onKey (Some "BODY") {| key := "ArrowLeft"; shiftKey := true |} w = Ok w'
    /\ find_element (page w') 0 (Str "aq7w2m9") = Some el'
    /\ field el' "x" = lit 14 /\ field el' "y" = lit 24
    /\ field el' "w" = lit 200.
Proof.
  destruct (arrow_keys "BODY" true
              (with_selection (with_page sample_world sample_text_page)
                 {| panelIdx := 0; elId := Str "aq7w2m9" |})
              (match element_at sample_text_page 0 0 with
               | Some el => el | None => [] end)
              24 24 eq_refl eq_refl eq_refl eq_refl eq_refl eq_refl eq_refl)
    as (_ & (w' & el' & Hkey & _ & _ & Hf & Hx & Hy & Hkeep) & _).
  exists w', el'. split; [exact Hkey|]. split; [exact Hf|].
  split; [exact Hx|]. split; [exact Hy|].
  exact (Hkeep "w" eq_refl eq_refl).
Defined.

(** A nudge by [(dx, dy)] and then by [(-dx, -dy)]. *)
Lemma nudge_back (w : World) (el : obj) (x y dx dy : Z) :
  find_element (page w) (panelIdx (selection w)) (elId (selection w)) = Some el ->
  field el "x" = lit x -> field el "y" = lit y ->
  let pIdx := panelIdx (selection w) in
  let eId := elId (selection w) in
  let w1 := with_page w (mutateElement pIdx eId
                           [("x", lit (x + dx)); ("y", lit (y + dy))] (page w)) in
  let w2 := with_page w1 (mutateElement pIdx eId
                            [("x", lit (x + dx + - dx));
                             ("y", lit (y + dy + - dy))] (page w1)) in
  find_element (page w1) pIdx eId
  = Some (spread el [("x", lit (x + dx)); ("y", lit (y + dy))])
  /\ find_element (page w2) pIdx eId = Some el.
Proof.
  intros Hel Hx Hy pIdx eId w1 w2. subst w1 w2 pIdx eId.
  cbn [page with_page selection].
  assert (H1 : find_element
                 (mutateElement (panelIdx (selection w)) (elId (selection w))
                    [("x", lit (x + dx)); ("y", lit (y + dy))] (page w))
                 (panelIdx (selection w)) (elId (selection w))
               = Some (spread el [("x", lit (x + dx)); ("y", lit (y + dy))])).
  { rewrite find_element_mutate by reflexivity. rewrite Hel. reflexivity. }
  split; [exact H1|].
  rewrite find_element_mutate by reflexivity. rewrite H1. simpl. f_equal.
  replace (x + dx + - dx) with x by lia.
  replace (y + dy + - dy) with y by lia.
  apply spread_back; [reflexivity | |];
    apply field_lookup; assumption || discriminate.
Qed.

(** X18.  On an element at an integer position, the right arrow followed by
    the left arrow, and the down arrow followed by the up arrow, put the
    selected element back exactly as it was, with Shift as without; the
    selection is the same throughout. *)
Theorem arrow_there_and_back (tag : string) (shift : bool) (w : World)
    (el : obj) (x y : Z) :
  (tag =? "INPUT")%string || (tag =? "TEXTAREA")%string = false ->
  nullish (elId (selection w)) = false ->
  find_element (page w) (panelIdx (selection w)) (elId (selection w)) = Some el ->
  field el "x" = lit x -> field el "y" = lit y ->
  Z.abs x + 20 < 2 ^ 53 -> Z.abs y + 20 < 2 ^ 53 ->
  (exists w1 w2,
     onKey (Some tag) {| key := "ArrowRight"; shiftKey := shift |} w = Ok w1
     /\ onKey (Some tag) {| key := "ArrowLeft"; shiftKey := shift |} w1 = Ok w2
     /\ selection w2 = selection w
     /\ find_element (page w2) (panelIdx (selection w)) (elId (selection w))
        = Some el)
  /\ (exists w1 w2,
        onKey (Some tag) {| key := "ArrowDown"; shiftKey := shift |} w = Ok w1
        /\ onKey (Some tag) {| key := "ArrowUp"; shiftKey := shift |} w1 = Ok w2
        /\ selection w2 = selection w
        /\ find_element (page w2) (panelIdx (selection w)) (elId (selection w))
           = Some el).
Proof.
  intros Htag Hsel Hel Hx Hy Hbx Hby.
  destruct (arrow_commits tag shift w el x y Htag Hsel Hel Hx Hy
              ltac:(lia) ltac:(lia)) as (Hr & _ & Hd & _).
  split.
  - destruct (nudge_back w el x y (if shift then 10 else 1) 0 Hel Hx Hy)
      as (Hf1 & Hf2).
    destruct (field_spread_xy el (lit (x + (if shift then 10 else 1)))
                (lit (y + 0))) as (Hx1 & Hy1).
    assert (Hbx1 : Z.abs (x + (if shift then 10 else 1)) + 10 < 2 ^ 53)
      by (destruct shift; lia).
    assert (Hby1 : Z.abs (y + 0) + 10 < 2 ^ 53) by lia.
    destruct (arrow_commits tag shift
                (with_page w (mutateElement (panelIdx (selection w))
                                (elId (selection w))
                                [("x", lit (x + (if shift then 10 else 1)));
                                 ("y", lit (y + 0))] (page w)))
                _ _ _ Htag Hsel Hf1 Hx1 Hy1 Hbx1 Hby1)
      as (_ & Hl & _).
    eexists _, _. split; [exact Hr|]. split; [exact Hl|].
    split; [reflexivity|].
    rewrite Z.opp_0 in Hf2. rewrite <- (Z.opp_0) at 2. exact Hf2.
  - destruct (nudge_back w el x y 0 (if shift then 10 else 1) Hel Hx Hy)
      as (Hf1 & Hf2).
    destruct (field_spread_xy el (lit (x + 0))
                (lit (y + (if shift then 10 else 1)))) as (Hx1 & Hy1).
    assert (Hbx1 : Z.abs (x + 0) + 10 < 2 ^ 53) by lia.
    assert (Hby1 : Z.abs (y + (if shift then 10 else 1)) + 10 < 2 ^ 53)
      by (destruct shift; lia).
    destruct (arrow_commits tag shift
                (with_page w (mutateElement (panelIdx (selection w))
                                (elId (selection w))
                                [("x", lit (x + 0));
                                 ("y", lit (y + (if shift then 10 else 1)))]
                                (page w)))
                _ _ _ Htag Hsel Hf1 Hx1 Hy1 Hbx1 Hby1)
      as (_ & _ & _ & Hu).
    eexists _, _. split; [exact Hd|]. split; [exact Hu|].
    split; [reflexivity|].
    rewrite Z.opp_0 in Hf2. rewrite <- (Z.opp_0) at 1. exact Hf2.
Qed.

Lemma arrow_there_and_back_witness :
  let w := with_selection (with_page sample_world sample_text_page)
             {| panelIdx := 0; elId := Str "aq7w2m9" |} in
  exists w1 w2,
    onKey (Some "BODY") {| key := "ArrowDown"; shiftKey := true |} w = Ok w1
    /\ onKey (Some "BODY") {| key := "ArrowUp"; shiftKey := true |} w1 = Ok w2
    /\ element_at (page w1) 0 0 <> element_at (page w) 0 0
    /\ find_element (page w2) 0 (Str "aq7w2m9") = element_at (page w) 0 0.
Proof.
  destruct (proj2 (arrow_there_and_back "BODY" true
              (with_selection (with_page sample_world sample_text_page)
                 {| panelIdx := 0; elId := Str "aq7w2m9" |})
              (match element_at sample_text_page 0 0 with
               | Some el => el | None => [] end)
              24 24 eq_refl eq_refl eq_refl eq_refl eq_refl eq_refl eq_refl))
    as (w1 & w2 & H1 & H2 & _ & Hf).
  exists w1, w2. split; [exact H1|]. split; [exact H2|].
  split; [|exact Hf].
  vm_compute in H1. apply Ok_inj in H1. subst w1. vm_compute. discriminate.
Defined.

(** ** Pointer gestures *)

Lemma spread_overwrite (o : obj) (k1 k2 : string) (a1 b1 a2 b2 : value) :
  (k2 =? k1)%string = false ->
  spread (spread o [(k1, a1); (k2, b1)]) [(k1, a2); (k2, b2)]
  = spread o [(k1, a2); (k2, b2)].
Proof.
  intros Hne. unfold spread. simpl.
  rewrite (set_prop_swap k1 k2 a2 b1 _ Hne)
    by (rewrite lookup_set_prop_eq; discriminate).
  rewrite !set_prop_override. reflexivity.
Qed.

Lemma mutateElement_overwrite (pIdx : nat) (eId : value) (k1 k2 : string)
    (a1 b1 a2 b2 : value) (p : Page) :
  (k2 =? k1)%string = false ->
  is_key_of [k1; k2] "id" = false ->
  mutateElement pIdx eId [(k1, a2); (k2, b2)]
    (mutateElement pIdx eId [(k1, a1); (k2, b1)] p)
  = mutateElement pIdx eId [(k1, a2); (k2, b2)] p.
Proof.
  intros Hne Hid. rewrite mutateElement_merge by exact Hid.
  unfold mutateElement. f_equal. apply imap_same. intros i pan _.
  destruct (i =? pIdx)%nat; [|reflexivity]. f_equal.
  apply map_ext. intros el.
  destruct (strict_eq (field el "id") eId); [|reflexivity].
  rewrite <- spread_app. apply spread_overwrite. exact Hne.
Qed.

(** Within one gesture only the last pointer position counts. *)
Lemma move_last_wins (idx : nat) (d : Drag) (e1 e2 : PointerEvent)
    (p p1 : Page) :
  move idx (Some d) e1 p = Ok p1 ->
  move idx (Some d) e2 p1 = move idx (Some d) e2 p.
Proof.
  unfold move. destruct (kind d =? "move")%string; unfold rbind.
  - destruct (plus _ (Num (sub (clientX e1) _))) as [x1|]; [|discriminate].
    destruct (plus _ (Num (sub (clientY e1) _))) as [y1|]; [|discriminate].
    intros H. apply Ok_inj in H. subst p1.
    destruct (plus _ _) as [x2|]; [|reflexivity].
    destruct (plus _ _) as [y2|]; [|reflexivity].
    f_equal. apply mutateElement_overwrite; reflexivity.
  - destruct (plus _ (Num (sub (clientX e1) _))) as [w1|]; [|discriminate].
    destruct (Math_max2 _ w1) as [nw1|]; [|discriminate].
    destruct (plus _ (Num (sub (clientY e1) _))) as [h1|]; [|discriminate].
    destruct (Math_max2 _ h1) as [nh1|]; [|discriminate].
    intros H. apply Ok_inj in H. subst p1.
    destruct (plus _ _) as [w2|]; [|reflexivity].
    destruct (Math_max2 _ w2) as [nw2|]; [|reflexivity].
    destruct (plus _ _) as [h2|]; [|reflexivity].
    destruct (Math_max2 _ h2) as [nh2|]; [|reflexivity].
    f_equal. apply mutateElement_overwrite; reflexivity.
Qed.

(** X19.  Within one gesture, of either kind, only the last pointer
    position counts: a pointer move commits the same page as if the earlier
    moves of the gesture had not happened, because every move is computed
    from the rectangle and the pointer position recorded at the start. *)
Theorem gesture_is_anchored (idx : nat) (d : Drag) (e1 e2 : PointerEvent)
    (p p1 : Page) :
  move idx (Some d) e1 p = Ok p1 ->
  move idx (Some d) e2 p1 = move idx (Some d) e2 p.
Proof. apply move_last_wins. Qed.

(** Dragging the text of the sample page by (10, 0) and on to (30, 40). *)
Lemma gesture_is_anchored_witness :
  let d := {| drag_id := Str "aq7w2m9"; kind := "move";
              startX := of_Z 100; startY := of_Z 100;
              startRect := [ ("x", lit 24); ("y", lit 24);
                             ("w", lit 200); ("h", lit 80) ] |} in
  let e1 := {| clientX := of_Z 110; clientY := of_Z 100 |} in
  let e2 := {| clientX := of_Z 130; clientY := of_Z 140 |} in
  exists p1,
    move 0 (Some d) e1 sample_text_page = Ok p1
    /\ p1 <> sample_text_page
    /\ move 0 (Some d) e2 p1 = move 0 (Some d) e2 sample_text_page.
Proof.
  eexists. split; [reflexivity|]. split; [discriminate|].
  apply (gesture_is_anchored 0
           {| drag_id := Str "aq7w2m9"; kind := "move";
              startX := of_Z 100; startY := of_Z 100;
              startRect := [ ("x", lit 24); ("y", lit 24);
                             ("w", lit 200); ("h", lit 80) ] |}
           {| clientX := of_Z 110; clientY := of_Z 100 |}
           {| clientX := of_Z 130; clientY := of_Z 140 |}
           sample_text_page).
  reflexivity.
Defined.

Lemma move_integers (idx : nat) (d : Drag) (x y sx sy cx cy : Z) (p : Page) :
  kind d = "move" ->
  startX d = of_Z sx -> startY d = of_Z sy ->
  field (startRect d) "x" = lit x -> field (startRect d) "y" = lit y ->
  Z.abs x < 2 ^ 51 -> Z.abs y < 2 ^ 51 ->
  Z.abs sx < 2 ^ 51 -> Z.abs sy < 2 ^ 51 ->
  Z.abs cx < 2 ^ 51 -> Z.abs cy < 2 ^ 51 ->
  move idx (Some d) {| clientX := of_Z cx; clientY := of_Z cy |} p
  = Ok (mutateElement idx (drag_id d)
          [("x", lit (x + (cx - sx))); ("y", lit (y + (cy - sy)))] p).
Proof.
  intros Hk Hsx Hsy Hx Hy Bx By Bsx Bsy Bcx Bcy.
  assert (H51 : 2 ^ 53 = 4 * 2 ^ 51) by reflexivity.
  assert (P51 : 0 < 2 ^ 51) by reflexivity.
  unfold move. rewrite Hk, Hsx, Hsy, Hx, Hy. cbn [String.eqb Ascii.eqb Bool.eqb].
  cbn [clientX clientY]. unfold lit. rewrite !plus_numbers. cbn [rbind].
  rewrite !sub_int_exact by lia. rewrite !add_int_exact by lia.
  reflexivity.
Qed.

(** X20.  A move gesture that starts on an element at the integer position
    [(x, y)] with the pointer at [(sx, sy)] selects the element and, for a
    pointer at [(cx, cy)], commits the position
    [(x + (cx - sx), y + (cy - sy))], without clamping and whatever the
    page has become in between: the element found under the dragged id
    afterwards is at that position and has every other property as before.
    With the pointer back at the start the element is exactly as it was;
    after [pointerup] a pointer move changes nothing. *)
Theorem move_gesture (idx : nat) (el : obj) (w : World) (x y sx sy : Z) :
  find_element (page w) idx (field el "id") = Some el ->
  field el "x" = lit x -> field el "y" = lit y ->
  Z.abs x < 2 ^ 51 -> Z.abs y < 2 ^ 51 ->
  Z.abs sx < 2 ^ 51 -> Z.abs sy < 2 ^ 51 ->
  let start := startDrag idx {| clientX := of_Z sx; clientY := of_Z sy |}
                         el "move" w in
  selection (fst start) = {| panelIdx := idx; elId := field el "id" |}
  /\ page (fst start) = page w
  /\ (forall cx cy p,
        Z.abs cx < 2 ^ 51 -> Z.abs cy < 2 ^ 51 ->
        move idx (snd start) {| clientX := of_Z cx; clientY := of_Z cy |} p
        = Ok (mutateElement idx (field el "id")
                [("x", lit (x + (cx - sx))); ("y", lit (y + (cy - sy)))] p))
  /\ (forall cx cy p el0,
        Z.abs cx < 2 ^ 51 -> Z.abs cy < 2 ^ 51 ->
        find_element p idx (field el "id") = Some el0 ->
        exists p1 el1,
          move idx (snd start) {| clientX := of_Z cx; clientY := of_Z cy |} p
          = Ok p1
          /\ find_element p1 idx (field el "id") = Some el1
          /\ field el1 "x" = lit (x + (cx - sx))
          /\ field el1 "y" = lit (y + (cy - sy))
          /\ (forall k, (k =? "x")%string = false -> (k =? "y")%string = false ->
                        field el1 k = field el0 k))
  /\ (forall e1 p1,
        move idx (snd start) e1 (page w) = Ok p1 ->
        exists p2,
          move idx (snd start) {| clientX := of_Z sx; clientY := of_Z sy |} p1
          = Ok p2
          /\ find_element p2 idx (field el "id") = Some el)
  /\ (forall e p, move idx (up (snd start)) e p = Ok p).
Proof.
  intros Hel Hx Hy Bx By Bsx Bsy start. subst start.
  cbn [startDrag fst snd].
  split; [reflexivity|]. split; [reflexivity|].
  assert (Hmove : forall cx cy p,
             Z.abs cx < 2 ^ 51 -> Z.abs cy < 2 ^ 51 ->
             move idx
               (Some {| drag_id := field el "id"; kind := "move";
                        startX := of_Z sx; startY := of_Z sy;
                        startRect := [ ("x", field el "x"); ("y", field el "y");
                                       ("w", field el "w"); ("h", field el "h") ] |})
               {| clientX := of_Z cx; clientY := of_Z cy |} p
             = Ok (mutateElement idx (field el "id")
                     [("x", lit (x + (cx - sx))); ("y", lit (y + (cy - sy)))] p)).
  { intros cx cy p Bcx Bcy.
    exact (move_integers idx
             {| drag_id := field el "id"; kind := "move";
                startX := of_Z sx; startY := of_Z sy;
                startRect := [ ("x", field el "x"); ("y", field el "y");
                               ("w", field el "w"); ("h", field el "h") ] |}
             x y sx sy cx cy p eq_refl eq_refl eq_refl Hx Hy
             Bx By Bsx Bsy Bcx Bcy). }
  split; [exact Hmove|].
  split.
  { intros cx cy p el0 Bcx Bcy Hel0.
    destruct (find_element_moved idx (field el "id")
                (lit (x + (cx - sx))) (lit (y + (cy - sy))) p el0 Hel0)
      as (el1 & Hf & Hx1 & Hy1 & Hkeep).
    eexists _, el1. split; [exact (Hmove cx cy p Bcx Bcy)|].
    split; [exact Hf|]. auto. }
  split; [|reflexivity].
  intros e1 p1 H1.
  pose proof (move_last_wins _ _ _ {| clientX := of_Z sx; clientY := of_Z sy |}
                _ _ H1) as Hback.
  eexists. split.
  { etransitivity; [exact Hback | exact (Hmove sx sy (page w) Bsx Bsy)]. }
  rewrite find_element_mutate by reflexivity. rewrite Hel. simpl. f_equal.
  replace (x + (sx - sx)) with x by lia.
  replace (y + (sy - sy)) with y by lia.
  unfold spread. simpl.
  rewrite (set_prop_same "x" (lit x) el)
    by (apply field_lookup; [assumption | discriminate]).
  apply set_prop_same. apply field_lookup; [assumption | discriminate].
Qed.

(** Dragging the text of the sample page from (24, 24) with the pointer
    going from (300, 200) to (250, 260): the text is then at (-26, 84),
    and still 200 wide. *)
Lemma move_gesture_witness :
  let el := match element_at sample_text_page 0 0 with
            | Some el => el | None => [] end in
  let w := with_page sample_world sample_text_page in
  let start := startDrag 0 {| clientX := of_Z 300; clientY := of_Z 200 |}
                         el "move" w in
  exists p1 el1,
    move 0 (snd start) {| clientX := of_Z 250; clientY := of_Z 260 |} (page w)
    = Ok p1
    /\ find_element p1 0 (Str "aq7w2m9") = Some el1
    /\ field el1 "x" = lit (-26) /\ field el1 "y" = lit 84
    /\ field el1 "w" = lit 200.
Proof.
  destruct (move_gesture 0
              (match element_at sample_text_page 0 0 with
               | Some el => el | None => [] end)
              (with_page sample_world sample_text_page) 24 24 300 200
              eq_refl eq_refl eq_refl eq_refl eq_refl eq_refl eq_refl)
    as (_ & _ & _ & Hm & _).
  destruct (Hm 250 260 sample_text_page
              (match element_at sample_text_page 0 0 with
               | Some el => el | None => [] end)
              eq_refl eq_refl eq_refl)
    as (p1 & el1 & Hmove & Hf & Hx & Hy & Hkeep).
  exists p1, el1. split; [exact Hmove|]. split; [exact Hf|].
  split; [exact Hx|]. split; [exact Hy|].
  exact (Hkeep "w" eq_refl eq_refl).
Defined.
(** ** The export counter *)

Lemma stuck_counter_step (s : string) :
  In s stuck_counters ->
  (s =? "")%string = false
  /\ NumberToString (add (StringToNumber s) (of_Z 1)) = s.
Proof.
  unfold stuck_counters. simpl.
  intros [<-|[<-|[<-|[<-|[]]]]]; split; vm_compute; reflexivity.
Qed.

Lemma export_keeps_stuck (s url : string) (now : num) (w : World) :
  In s stuck_counters ->
  localStorage w !! "comicsCount" = Some s ->
  localStorage (exportPNG true (Some url) now w) !! "comicsCount" = Some s.
Proof.
  intros Hs Hw. destruct (stuck_counter_step s Hs) as (Hne & Hstep).
  destruct (exportPNG_success w now url) as (Hst & _).
  rewrite Hst, lookup_insert_eq. f_equal.
  unfold counter. rewrite Hw, Hne. exact Hstep.
Qed.

Lemma exports_keep_stuck (n : nat) (s url : string) (now : num) (w : World) :
  In s stuck_counters ->
  localStorage w !! "comicsCount" = Some s ->
  localStorage (exports n url now w) !! "comicsCount" = Some s.
Proof.
  intros Hs. revert w. induction n as [|n IH]; intros w Hw; [exact Hw|].
  simpl. apply IH. apply export_keeps_stuck; assumption.
Qed.

Lemma add_nan_l (y : num) : add NaN y = NaN.
Proof. reflexivity. Qed.

(** X21.  The export counter is never repaired.  A stored counter that does
    not read as a number (anything [Number] turns into NaN) is replaced by
    the text ["NaN"] at the first successful export; and once the store
    holds ["NaN"], ["Infinity"], ["-Infinity"] or ["9007199254740992"]
    (2^53, where adding 1 rounds back), every later export leaves it
    there. *)
Theorem export_counter_gets_stuck (url : string) (now : num) (w : World) :
  (is_nan (counter w) = true ->
   forall n,
     localStorage (exports (S n) url now w) !! "comicsCount" = Some "NaN")
  /\ (forall s n,
        In s stuck_counters ->
        localStorage w !! "comicsCount" = Some s ->
        localStorage (exports n url now w) !! "comicsCount" = Some s).
Proof.
  split.
  - intros Hnan n. simpl. apply exports_keep_stuck; [left; reflexivity|].
    destruct (exportPNG_success w now url) as (Hst & _).
    rewrite Hst, lookup_insert_eq. f_equal.
    destruct (counter w); try discriminate. reflexivity.
  - intros s n Hs Hw. apply exports_keep_stuck; assumption.
Qed.

(** A store whose counter is the text ["three"]. *)
Lemma export_counter_gets_stuck_witness :
  let w := {| page := sample_page;
              selection := {| panelIdx := 0; elId := Null |};
              localStorage := {[ "comicsCount" := "three" ]};
              downloads := []; alerts := [] |} in
  localStorage (exports 3 "data:," (of_Z 0) w) !! "comicsCount" = Some "NaN".
Proof.
  apply (proj1 (export_counter_gets_stuck "data:," (of_Z 0)
                  {| page := sample_page;
                     selection := {| panelIdx := 0; elId := Null |};
                     localStorage := {[ "comicsCount" := "three" ]};
                     downloads := []; alerts := [] |})).
  vm_compute. reflexivity.
Defined.

(** X22.  A text that [addText] has just made, of any of the three
    subtypes, goes through saving and the sanitizer unchanged but for its
    id, which is drawn anew: the defaults of [defaultText] lie within the
    ranges and the enumerations that the sanitizer enforces. *)
Theorem fresh_text_survives_reload (st : string) (r r2 : randomness) :
  is_key_of ["speech"; "caption"; "sfx"] st = true ->
  exists d,
    defaultText (Str st) r = Ok (d, after_draw r)
    /\ sanitizeElement (json_roundtrip (Obj d)) r2
       = Ok (set_prop "id" (drawn r2) d, after_draw r2).
Proof.
  intros Hst. apply is_key_of_cases in Hst. simpl in Hst.
  destruct Hst as [<-|[<-|[<-|[]]]];
    (eexists; split; [reflexivity|]);
    rewrite sanitizeElement_eq; vm_compute; reflexivity.
Qed.

Lemma fresh_text_survives_reload_witness :
  exists d,
    defaultText (Str "caption") sample_random = Ok (d, after_draw sample_random)
    /\ field d "bg" = Str "#fef3c7"
    /\ sanitizeElement (json_roundtrip (Obj d)) (after_draw sample_random)
       = Ok (set_prop "id" (Str "bq7w2m9") d,
             after_draw (after_draw sample_random)).
Proof.
  destruct (fresh_text_survives_reload "caption" sample_random
              (after_draw sample_random) eq_refl) as (d & Hd & Hs).
  exists d. split; [exact Hd|]. split; [|exact Hs].
  vm_compute in Hd. apply Ok_inj in Hd. injection Hd as <-. reflexivity.
Defined.

Lemma json_roundtrip_lit (z : Z) :
  Z.abs z < 2 ^ 53 -> json_roundtrip (lit z) = lit z.
Proof.
  intros Hz. destruct (Z.eq_dec z 0) as [->|Hz0]; [reflexivity|].
  destruct (of_Z_finite z Hz0 Hz) as (m & e & H & _).
  unfold lit. rewrite H. reflexivity.
Qed.

Lemma nullish_or_lit (z : Z) (d : value) : nullish_or (lit z) d = lit z.
Proof. reflexivity. Qed.

Lemma or_else_lit_pos (z : Z) (d : value) :
  0 < z < 2 ^ 53 -> or_else (lit z) d = lit z.
Proof.
  intros Hz. unfold or_else. rewrite ToBoolean_lit by lia.
  destruct (Z.eqb_spec z 0); [lia | reflexivity].
Qed.

(** The sanitizer on a saved image whose sides are positive integers. *)
Lemma sanitized_image_integers (i : string) (j src : value) (wd ht : Z) :
  0 < wd < 2 ^ 53 -> 0 < ht < 2 ^ 53 ->
  is_str src = true ->
  sanitized
    (json_roundtrip
       (Obj [ ("id", Str i); ("type", Str "image"); ("src", src);
              ("x", lit 24); ("y", lit 24); ("w", lit wd); ("h", lit ht);
              ("z", lit 0); ("rotate", lit 0) ])) j
  = Ok [ ("id", j); ("type", Str "image"); ("src", src);
         ("x", lit 24); ("y", lit 24);
         ("w", lit (Z.max 10 (Z.min 10000 wd)));
         ("h", lit (Z.max 10 (Z.min 10000 ht)));
         ("z", lit 0); ("rotate", lit 0) ].
Proof.
  intros Hw Hh Hsrc. destruct src as [| | | |s| |]; try discriminate.
  assert (Hrt :
    json_roundtrip
      (Obj [ ("id", Str i); ("type", Str "image"); ("src", Str s);
             ("x", lit 24); ("y", lit 24); ("w", lit wd); ("h", lit ht);
             ("z", lit 0); ("rotate", lit 0) ])
    = Obj [ ("id", Str i); ("type", Str "image"); ("src", Str s);
            ("x", lit 24); ("y", lit 24); ("w", lit wd); ("h", lit ht);
            ("z", lit 0); ("rotate", lit 0) ]).
  { destruct (of_Z_finite wd ltac:(lia) ltac:(lia)) as (mw & ew & Hfw & _).
    destruct (of_Z_finite ht ltac:(lia) ltac:(lia)) as (mh & eh & Hfh & _).
    unfold lit. rewrite Hfw, Hfh. vm_compute. reflexivity. }
  rewrite Hrt. clear Hrt.
  unfold sanitized, sanitized_image.
  cbn [member field lookup_prop String.eqb Ascii.eqb Bool.eqb strict_eq].
  rewrite !nullish_or_lit, !(or_else_lit_pos wd), !(or_else_lit_pos ht)
    by assumption.
  cbn [lit ToNumber rbind].
  rewrite !clampN_of_Z by (try reflexivity; lia).
  destruct s; reflexivity.
Qed.

(** X23.  An image that [addImage] has just made goes through saving and
    the sanitizer with its source, position, stacking and rotation
    unchanged and a new id; a side of at least 10 is unchanged, and a
    smaller side (the picture was smaller than 10) comes back as 10. *)
Theorem fresh_image_reloaded (url : string) (wd ht : Z) (r r2 : randomness) :
  0 <= wd < 2 ^ 53 -> 0 <= ht < 2 ^ 53 ->
  let sw := if wd =? 0 then 300 else Z.min 300 wd in
  let sh := if ht =? 0 then 220 else Z.min 220 ht in
  exists d,
    defaultImage (Str url) (Obj [("width", lit wd); ("height", lit ht)]) r
    = Ok (d, after_draw r)
    /\ field d "w" = lit sw /\ field d "h" = lit sh
    /\ sanitizeElement (json_roundtrip (Obj d)) r2
       = Ok ([ ("id", drawn r2); ("type", Str "image"); ("src", Str url);
               ("x", lit 24); ("y", lit 24);
               ("w", lit (Z.max 10 sw)); ("h", lit (Z.max 10 sh));
               ("z", lit 0); ("rotate", lit 0) ], after_draw r2)
    /\ (10 <= sw -> 10 <= sh ->
        sanitizeElement (json_roundtrip (Obj d)) r2
        = Ok (set_prop "id" (drawn r2) d, after_draw r2)).
Proof.
  intros Hw Hh sw sh.
  assert (Bw : 0 < sw <= 300).
  { subst sw. destruct (Z.eqb_spec wd 0); lia. }
  assert (Bh : 0 < sh <= 220).
  { subst sh. destruct (Z.eqb_spec ht 0); lia. }
  eexists. split; [apply defaultImage_probed; assumption|].
  fold sw. fold sh.
  split; [reflexivity|]. split; [reflexivity|].
  assert (Hs : sanitizeElement
                 (json_roundtrip
                    (Obj [ ("id", drawn r); ("type", Str "image");
                           ("src", Str url); ("x", lit 24); ("y", lit 24);
                           ("w", lit sw); ("h", lit sh);
                           ("z", lit 0); ("rotate", lit 0) ])) r2
               = Ok ([ ("id", drawn r2); ("type", Str "image");
                       ("src", Str url); ("x", lit 24); ("y", lit 24);
                       ("w", lit (Z.max 10 sw)); ("h", lit (Z.max 10 sh));
                       ("z", lit 0); ("rotate", lit 0) ], after_draw r2)).
  { rewrite sanitizeElement_eq.
    change (nullish (json_roundtrip (Obj _))) with false. cbv iota.
    unfold drawn at 1.
    rewrite sanitized_image_integers
      by (try reflexivity; change (2 ^ 53) with 9007199254740992; lia).
    rewrite !(Z.min_r 10000) by lia. reflexivity. }
  split; [exact Hs|].
  intros H10w H10h. rewrite Hs.
  rewrite !Z.max_r by lia. reflexivity.
Qed.

(** A picture of 1024 by 4: added at 300 by 4, reloaded at 300 by 10. *)
Lemma fresh_image_reloaded_witness :
  exists d,
    defaultImage (Str "blob:a") (Obj [("width", lit 1024); ("height", lit 4)])
                 sample_random
    = Ok (d, after_draw sample_random)
    /\ field d "w" = lit 300 /\ field d "h" = lit 4
    /\ (fun o => (field o "w", field o "h"))
         <$> result_of (sanitizeElement (json_roundtrip (Obj d))) sample_random
       = Some (lit 300, lit 10).
Proof.
  destruct (fresh_image_reloaded "blob:a" 1024 4 sample_random sample_random
              ltac:(lia) ltac:(lia)) as (d & Hd & Hw & Hh & Hs & _).
  exists d. split; [exact Hd|]. split; [exact Hw|]. split; [exact Hh|].
  unfold result_of. rewrite Hs. reflexivity.
Defined.

(** ** [ElementView] *)

Lemma plus_px (n : num) :
  plus (Num n) (Str "px") = Ok (Str (NumberToString n +:+ "px")).
Proof. reflexivity. Qed.

Lemma within_truthy (a b : Z) (n : num) :
  0 < a -> Z.abs a < 2 ^ 53 ->
  within (of_Z a) (of_Z b) n = true -> ToBoolean (Num n) = true.
Proof.
  intros Ha Hb Hw. unfold within in Hw. apply andb_true_iff in Hw as [Hl _].
  destruct n as [s| | |]; try reflexivity.
  - exfalso. unfold le, SFleb in Hl.
    destruct (of_Z_finite a ltac:(lia) Hb) as (m & e & Hf & _).
    rewrite Hf in Hl. destruct (Z.ltb_spec a 0); [lia|]. discriminate.
  - apply le_not_nan in Hl as [_ Hl]. discriminate.
Qed.

(** The font size that the view shows for a sanitized text. *)
Lemma shown_font_size (o : obj) :
  in_range_or_nan o "fontSize" 8 160 = true ->
  exists n,
    within (of_Z 8) (of_Z 160) n = true
    /\ plus (or_else (field o "fontSize") (lit 18)) (Str "px")
       = Ok (Str (NumberToString n +:+ "px"))
    /\ (field o "fontSize" = Num NaN -> n = of_Z 18)
    /\ (forall m, field o "fontSize" = Num m -> is_nan m = false -> n = m).
Proof.
  unfold in_range_or_nan. destruct (field o "fontSize") as [| | |f| | |];
    try discriminate.
  destruct (is_nan f) eqn:Hn.
  - intros _. destruct f; try discriminate.
    exists (of_Z 18). repeat split. intros m Hm. injection Hm as <-.
    discriminate.
  - simpl. intros Hw. exists f.
    split; [exact Hw|]. split.
    + unfold or_else.
      rewrite (within_truthy 8 160 f ltac:(lia) eq_refl Hw). apply plus_px.
    + split.
      * intros Hf. injection Hf as ->. discriminate.
      * intros m Hm _. injection Hm as <-. reflexivity.
Qed.

Lemma sanitized_measure (el i : value) (o : obj) (k : string) (lo hi : Z) :
  sanitized el i = Ok o ->
  In (k, (lo, hi)) (ranges o) ->
  in_range_or_nan o k lo hi = true.
Proof.
  intros Hs Hin. pose proof (sanitized_ranges el i o Hs) as Hr.
  rewrite forallb_forall in Hr. exact (Hr _ Hin).
Qed.

Lemma converts_kept_rotate (v : value) :
  converts (or_else (nullish_or v (lit 0)) (lit 0)) = converts v.
Proof. rewrite converts_or_else. apply converts_nullish_or. Qed.

(** X24.  For every element that the sanitizer returns, [ElementView]
    computes its styles without an exception unless [rotate], which the
    sanitizer keeps as given, is an object or an array with no primitive
    conversion.  The box is placed at the element's [x], [y], [w] and [h];
    the resize handle is there exactly when the element is selected; and a
    text is shown with a font size from [8px] to [160px], whatever the file
    said: [18px] when the sanitized font size is NaN. *)
Theorem ElementView_after_sanitizer (el : value) (o : obj) (r r' : randomness)
    (selected : bool) :
  sanitizeElement el r = Ok (o, r') ->
  match ElementView o selected with
  | Ok v =>
      converts (member el "rotate") = true
      /\ handle v = selected
      /\ field (style v) "left" = field o "x"
      /\ field (style v) "top" = field o "y"
      /\ field (style v) "width" = field o "w"
      /\ field (style v) "height" = field o "h"
      /\ match box v with
         | None => is_image o = true
         | Some b =>
             is_image o = false
             /\ exists n,
                  within (of_Z 8) (of_Z 160) n = true
                  /\ field b "fontSize" = Str (NumberToString n +:+ "px")
                  /\ (field o "fontSize" = Num NaN -> n = of_Z 18)
         end
  | Throw _ => converts (member el "rotate") = false
  end.
Proof.
  intros H. apply sanitizeElement_inv in H as (_ & Hs & _).
  destruct (sanitized_z_rotate el _ o Hs) as (_ & Hrot).
  pose proof (converts_kept_rotate (member el "rotate")) as Hc.
  rewrite <- Hrot in Hc. unfold converts in Hc at 1.
  unfold ElementView.
  destruct (ToString (or_else (field o "rotate") (lit 0))) as [deg|x];
    cbn [rbind]; [|symmetry; exact Hc].
  fold (is_image o). destruct (is_image o) eqn:Himg.
  - cbn [handle style box]. repeat split. symmetry. exact Hc.
  - assert (Hfs : in_range_or_nan o "fontSize" 8 160 = true).
    { apply (sanitized_measure el _ o _ _ _ Hs). unfold ranges.
      rewrite Himg. simpl. tauto. }
    assert (Hrad : in_range_or_nan o "radius" 0 64 = true).
    { apply (sanitized_measure el _ o _ _ _ Hs). unfold ranges.
      rewrite Himg. simpl. tauto. }
    destruct (shown_font_size o Hfs) as (n & Hn & Hplus & Hnan & _).
    unfold in_range_or_nan in Hrad.
    destruct (field o "radius") as [| | |rad| | |] eqn:Er; try discriminate.
    cbn [nullish_or nullish]. rewrite plus_px. cbn [rbind].
    rewrite Hplus. cbn [rbind handle style box].
    repeat split; try (symmetry; exact Hc).
    exists n. split; [exact Hn|]. split; [reflexivity | exact Hnan].
Qed.

(** A text whose font size the file gives as ["huge"]. *)
Lemma ElementView_after_sanitizer_witness :
  exists o r' v,
    sanitizeElement (Obj [("fontSize", Str "huge")]) sample_random = Ok (o, r')
    /\ ElementView o true = Ok v
    /\ handle v = true
    /\ field (style v) "left" = field o "x".
Proof.
  destruct (sanitizeElement (Obj [("fontSize", Str "huge")]) sample_random)
    as [[o r']|x] eqn:E; [|vm_compute in E; discriminate].
  pose proof (ElementView_after_sanitizer _ _ _ _ true E) as H.
  exists o, r'.
  destruct (ElementView o true) as [v|x]; [|discriminate H].
  exists v. destruct H as (_ & Hh & Hl & _).
  split; [reflexivity|]. split; [reflexivity|]. split; assumption.
Defined.

(** ** [Inspector] *)

Lemma strict_eq_Str (v : value) (s : string) :
  strict_eq v (Str s) = true -> v = Str s.
Proof.
  destruct v; try discriminate. simpl. intros H.
  apply String.eqb_eq in H. subst. reflexivity.
Qed.

Lemma find_element_id (p : Page) (pIdx : nat) (s : string) (el : obj) :
  find_element p pIdx (Str s) = Some el -> field el "id" = Str s.
Proof.
  unfold find_element. destruct (panels p !! pIdx) as [pan|]; [|discriminate].
  intros H. apply find_some in H as [_ H]. apply strict_eq_Str. exact H.
Qed.

Lemma control_value_total (c : control) (input : string) :
  control_value c input
  = Ok (if numeric c
        then Num (if (input =? "")%string then of_Z (fallback c)
                  else StringToNumber input)
        else Str input).
Proof.
  destruct c; cbn [control_value numeric fallback]; try reflexivity;
    unfold or_else; cbn [ToBoolean];
    destruct (input =? "")%string; reflexivity.
Qed.

Lemma control_key_not_id (c : control) :
  is_key_of [control_key c] "id" = false.
Proof. destruct c; reflexivity. Qed.

(** X25.  A change of an Inspector control, for the element that the
    Inspector shows (selected by a string id), commits exactly one
    property: afterwards the Inspector shows the same element with that
    property set and every other property as it was, the selection and the
    other panels are unchanged.  The text, colour and alignment controls
    commit the text of the field; every other control commits a number,
    [Number] of the text, and for an empty field 0, or 600 for the weight;
    nothing is clamped. *)
Theorem Inspector_change_commits (c : control) (input s : string) (w : World)
    (el : obj) :
  elId (selection w) = Str s ->
  Inspector_el w = Some el ->
  text_only c && negb (strict_eq (field el "type") (Str "text")) = false ->
  exists v w',
    control_value c input = Ok v
    /\ Inspector_change c input w = Ok w'
    /\ v = (if numeric c
            then Num (if (input =? "")%string then of_Z (fallback c)
                      else StringToNumber input)
            else Str input)
    /\ selection w' = selection w
    /\ Inspector_el w' = Some (set_prop (control_key c) v el)
    /\ field (set_prop (control_key c) v el) (control_key c) = v
    /\ (forall k, (k =? control_key c)%string = false ->
                  field (set_prop (control_key c) v el) k = field el k)
    /\ (forall i, i <> panelIdx (selection w) ->
                  panels (page w') !! i = panels (page w) !! i).
Proof.
  intros Hsel Hel Hshown.
  pose proof (control_value_total c input) as Hv.
  unfold Inspector_el in Hel. rewrite Hsel in Hel.
  pose proof (find_element_id _ _ _ _ Hel) as Hid.
  eexists _, _. split; [exact Hv|]. split.
  { unfold Inspector_change, Inspector_el. rewrite Hsel, Hel, Hshown, Hv.
    cbn [rbind]. rewrite Hid. reflexivity. }
  split; [reflexivity|]. split; [reflexivity|]. split.
  { unfold Inspector_el. cbn [page selection with_page]. rewrite Hsel.
    rewrite find_element_mutate by apply control_key_not_id.
    rewrite Hel. reflexivity. }
  split; [apply field_set_prop_eq|]. split.
  { intros k Hk. apply field_set_prop_ne. exact Hk. }
  intros i Hi. cbn [page with_page]. rewrite mutateElement_lookup.
  destruct (Nat.eqb_spec i (panelIdx (selection w))); [contradiction|].
  destruct (panels (page w) !! i); reflexivity.
Qed.

(** Emptying the font size field of the text of the sample page commits a
    font size of 0. *)
Lemma Inspector_change_commits_witness :
  let w := with_selection (with_page sample_world sample_text_page)
             {| panelIdx := 0; elId := Str "aq7w2m9" |} in
  exists w',
    Inspector_change CfontSize "" w = Ok w'
    /\ (fun el => field el "fontSize") <$> Inspector_el w' = Some (lit 0)
    /\ (fun el => field el "weight") <$> Inspector_el w' = Some (lit 800).
Proof.
  destruct (Inspector_change_commits CfontSize "" "aq7w2m9"
              (with_selection (with_page sample_world sample_text_page)
                 {| panelIdx := 0; elId := Str "aq7w2m9" |})
              (match element_at sample_text_page 0 0 with
               | Some el => el | None => [] end)
              eq_refl eq_refl eq_refl)
    as (v & w' & _ & Hch & Hv & _ & Hel & Hset & Hkeep & _).
  cbn [control_key] in Hel, Hset, Hkeep.
  exists w'. split; [exact Hch|]. rewrite Hel.
  unfold fmap, option_fmap, option_map.
  rewrite Hset, (Hkeep "weight" eq_refl), Hv. split; reflexivity.
Defined.

(** X26.  The colour control of the Inspector sets the background of the
    selected panel, which the Inspector then shows (white for an empty
    text), and does not touch the element it shows.  The Delete button
    removes the element it shows and clears the selection, after which the
    Inspector shows no element. *)
Theorem Inspector_panel_controls (input s : string) (w : World) (pan : Panel) :
  elId (selection w) = Str s ->
  panels (page w) !! panelIdx (selection w) = Some pan ->
  panelBg (Inspector_background input w)
  = (if (input =? "")%string then Str "#ffffff" else Str input)
  /\ Inspector_el (Inspector_background input w) = Inspector_el w
  /\ find_element (page (Inspector_delete w)) (panelIdx (selection w)) (Str s)
     = None
  /\ elId (selection (Inspector_delete w))
     = (match Inspector_el w with Some _ => Null | None => Str s end).
Proof.
  intros Hsel Hpan. split; [|split; [|split]].
  - unfold panelBg, Inspector_background. cbn [page selection with_page].
    rewrite setPanel_lookup, Hpan. simpl. rewrite Nat.eqb_refl.
    unfold or_else. simpl. destruct (input =? "")%string; reflexivity.
  - unfold Inspector_el, Inspector_background, find_element.
    cbn [page selection with_page]. rewrite setPanel_lookup, Hpan. simpl.
    rewrite Nat.eqb_refl. reflexivity.
  - unfold Inspector_delete.
    destruct (Inspector_el w) as [el|] eqn:Hel;
      unfold Inspector_el in Hel; rewrite Hsel in Hel; [|exact Hel].
    rewrite (find_element_id _ _ _ _ Hel).
    unfold removeElement. cbn [page with_page with_selection].
    apply remove_from_gone.
  - unfold Inspector_delete. destruct (Inspector_el w); [reflexivity|].
    exact Hsel.
Qed.

Lemma Inspector_panel_controls_witness :
  let w := with_selection (with_page sample_world sample_text_page)
             {| panelIdx := 0; elId := Str "aq7w2m9" |} in
  Inspector_el w <> None
  /\ panelBg (Inspector_background "#00ff00" w) = Str "#00ff00"
  /\ find_element (page (Inspector_delete w)) 0 (Str "aq7w2m9") = None.
Proof.
  split; [discriminate|].
  destruct (panels sample_text_page !! 0%nat) as [pan|] eqn:Hpan;
    [|discriminate Hpan].
  destruct (Inspector_panel_controls "#00ff00" "aq7w2m9"
              (with_selection (with_page sample_world sample_text_page)
                 {| panelIdx := 0; elId := Str "aq7w2m9" |})
              pan eq_refl Hpan) as (Hbg & _ & Hdel & _).
  split; [exact Hbg | exact Hdel].
Defined.

(** ** Saving and loading again *)

Lemma json_roundtrip_Arr (l : list value) :
  json_roundtrip (Arr l)
  = Arr (map (fun x => match x with
                       | Undefined => Null
                       | _ => json_roundtrip x
                       end) l).
Proof. reflexivity. Qed.

Lemma json_roundtrip_Obj_cons (k : string) (x : value) (o : obj) :
  json_roundtrip (Obj ((k, x) :: o))
  = match x with
    | Undefined => json_roundtrip (Obj o)
    | _ => match json_roundtrip (Obj o) with
           | Obj o' => Obj ((k, json_roundtrip x) :: o')
           | other => other
           end
    end.
Proof. destruct x; reflexivity. Qed.

Lemma json_roundtrip_Obj (o : obj) : exists o', json_roundtrip (Obj o) = Obj o'.
Proof. eexists. reflexivity. Qed.

(** A saved number or string reads back as a number, [null] or the
    string. *)
Lemma plain_value_converts (v : value) :
  is_num v || is_str v = true -> converts (json_roundtrip v) = true.
Proof.
  destruct v as [| | |n|s| |]; try discriminate; intros _; [|reflexivity].
  destruct n; reflexivity.
Qed.

Lemma plain_member_converts (o : obj) (k : string) :
  plain o = true -> converts (member (json_roundtrip (Obj o)) k) = true.
Proof.
  induction o as [|[k0 v0] o IH]; [reflexivity|].
  unfold plain. cbn [forallb snd]. intros H.
  apply andb_true_iff in H as [Hv Ho].
  rewrite json_roundtrip_Obj_cons.
  destruct (json_roundtrip_Obj o) as (o' & Ho').
  specialize (IH Ho). rewrite Ho' in IH |- *.
  assert (Hcase : converts (member (Obj ((k0, json_roundtrip v0) :: o')) k)
                  = true).
  { unfold member, field. cbn [lookup_prop].
    destruct (k =? k0)%string; [apply plain_value_converts; exact Hv | exact IH]. }
  destruct v0; try discriminate; exact Hcase.
Qed.

Lemma plain_element_ok (o : obj) :
  plain o = true -> element_ok (json_roundtrip (Obj o)) = true.
Proof.
  intros Hp. unfold element_ok.
  destruct (json_roundtrip_Obj o) as (o' & Ho'). rewrite Ho'.
  cbn [nullish negb andb]. rewrite <- Ho'.
  apply forallb_forall. intros k _. apply plain_member_converts. exact Hp.
Qed.

Lemma forallb_mapped {A B} (f : B -> bool) (g : A -> B) (l : list A) :
  forallb f (map g l) = forallb (fun x => f (g x)) l.
Proof.
  induction l as [|x l IH]; [reflexivity|]. simpl. rewrite IH. reflexivity.
Qed.

(** What a saved panel reads back as. *)
Lemma saved_panel (pan : Panel) :
  member (json_roundtrip (panel_value pan)) "id" = json_roundtrip (id pan)
  /\ member (json_roundtrip (panel_value pan)) "bg" = json_roundtrip (bg pan)
  /\ member (json_roundtrip (panel_value pan)) "elements"
     = Arr (map (fun o => json_roundtrip (Obj o)) (elements pan)).
Proof.
  unfold panel_value.
  assert (He : json_roundtrip (Obj [("elements", Arr (map Obj (elements pan)))])
               = Obj [("elements",
                       Arr (map (fun o => json_roundtrip (Obj o))
                                (elements pan)))]).
  { rewrite json_roundtrip_Obj_cons.
    change (json_roundtrip (Obj [])) with (Obj []). cbv iota.
    rewrite json_roundtrip_Arr, map_map. reflexivity. }
  rewrite (json_roundtrip_Obj_cons "id").
  rewrite (json_roundtrip_Obj_cons "bg"). rewrite He.
  destruct (id pan) eqn:Ei; destruct (bg pan) eqn:Eb; repeat split.
Qed.

Lemma saved_panel_ok (pan : Panel) :
  forallb plain (elements pan) = true ->
  panel_ok (json_roundtrip (panel_value pan)) = true.
Proof.
  intros Hp. unfold panel_ok.
  destruct (saved_panel pan) as (_ & _ & He). rewrite He.
  destruct (json_roundtrip_Obj
              [("id", id pan); ("bg", bg pan);
               ("elements", Arr (map Obj (elements pan)))]) as (o' & Ho').
  unfold panel_value. rewrite Ho'. cbn [nullish negb andb].
  rewrite forallb_mapped. apply forallb_forall. intros o Ho.
  apply plain_element_ok.
  rewrite forallb_forall in Hp. apply Hp. exact Ho.
Qed.

Lemma saved_page (p : Page) (k : string) :
  layout p = Str k ->
  json_roundtrip (page_value p)
  = Obj [ ("layout", Str k);
          ("panels", Arr (map (fun pan => json_roundtrip (panel_value pan))
                              (panels p))) ].
Proof.
  intros Hl. unfold page_value. rewrite Hl.
  rewrite !json_roundtrip_Obj_cons.
  change (json_roundtrip (Obj [])) with (Obj []).
  rewrite json_roundtrip_Arr, map_map. reflexivity.
Qed.

Lemma saved_page_loadable (p : Page) (k : string) :
  layout p = Str k -> plain_page p = true ->
  loadable (json_roundtrip (page_value p)) = true.
Proof.
  intros Hl Hp. rewrite (saved_page p k Hl).
  unfold loadable, shape_ok.
  cbn [ToBoolean member field lookup_prop String.eqb Ascii.eqb Bool.eqb
       isArray converts ToString andb].
  rewrite forallb_mapped. apply forallb_forall. intros pan Hpan.
  apply saved_panel_ok. unfold plain_page in Hp.
  rewrite forallb_forall in Hp. apply Hp. exact Hpan.
Qed.

(** X27.  A page whose elements hold only numbers and strings, as the
    editor writes them, and whose layout is a string, can always be saved
    and loaded again: the load succeeds and gives a well-formed page with
    the same number of panels, each with the id and the background it had
    (when these are non-empty strings) and as many elements as it had; the
    layout is kept when it is a key of [LAYOUTS]. *)
Theorem reload_keeps_panels (p : Page) (k : string) (r : randomness) :
  layout p = Str k -> plain_page p = true ->
  exists p' r',
    reload p r = Ok (p', r')
    /\ layout p' = (if is_key_of LAYOUT_keys k
                       || is_key_of Object_prototype_keys k
                    then Str k else Str "4")
    /\ valid_page p' = true
    /\ length (panels p') = length (panels p)
    /\ forall i pan,
         panels p !! i = Some pan ->
         exists pan',
           panels p' !! i = Some pan'
           /\ length (elements pan') = length (elements pan)
           /\ (forall s, id pan = Str s -> s <> "" -> id pan' = Str s)
           /\ (forall s, bg pan = Str s -> s <> "" -> bg pan' = Str s).
Proof.
  intros Hl Hp. unfold reload.
  pose proof (load_document_outcome (json_roundtrip (page_value p)) r) as Hload.
  rewrite (saved_page_loadable p k Hl Hp) in Hload.
  destruct Hload as (p' & r' & Hload & Hvalid).
  exists p', r'. split; [exact Hload|].
  split.
  { apply (load_document_layout (json_roundtrip (page_value p)) k r r' p');
      [|exact Hload].
    rewrite (saved_page p k Hl). reflexivity. }
  split; [exact Hvalid|].
  assert (Hitems : member (json_roundtrip (page_value p)) "panels"
                   = Arr (map (fun pan => json_roundtrip (panel_value pan))
                              (panels p))).
  { rewrite (saved_page p k Hl). reflexivity. }
  destruct (load_document_panels _ _ _ _ _ Hitems Hload) as (Hlen & Hpans).
  split; [rewrite Hlen; apply length_map|].
  intros i pan Hpan.
  destruct (Hpans i (json_roundtrip (panel_value pan)))
    as (pan' & Hpan' & Hid & _ & Hbg & Hels).
  { rewrite list_lookup_fmap, Hpan. reflexivity. }
  destruct (saved_panel pan) as (Mid & Mbg & Mels).
  exists pan'. split; [exact Hpan'|]. split.
  { rewrite Hels, Mels. apply length_map. }
  split.
  - intros s Hs Hne. rewrite Hid; rewrite Mid, Hs; [reflexivity|].
    simpl. destruct (String.eqb_spec s ""); [contradiction | reflexivity].
  - intros s Hs Hne. rewrite Hbg, Mbg, Hs. unfold or_else. simpl.
    destruct (String.eqb_spec s ""); [contradiction | reflexivity].
Qed.

Lemma reload_keeps_panels_witness :
  exists p' r',
    reload sample_text_page sample_random = Ok (p', r')
    /\ layout p' = Str "4"
    /\ length (panels p') = 4%nat
    /\ (fun pan => (id pan, length (elements pan))) <$> panels p' !! 0%nat
       = Some (Str "aq7w2m9", 1%nat).
Proof.
  destruct (reload_keeps_panels sample_text_page "4" sample_random
              eq_refl eq_refl)
    as (p' & r' & Hr & Hl & _ & Hlen & Hpans).
  exists p', r'. split; [exact Hr|]. split; [exact Hl|].
  split; [exact Hlen|].
  destruct (panels sample_text_page !! 0%nat) as [pan|] eqn:Hpan;
    [|discriminate Hpan].
  destruct (Hpans 0%nat pan Hpan) as (pan' & Hpan' & He & Hid & _).
  rewrite Hpan'. simpl. vm_compute in Hpan. injection Hpan as <-.
  rewrite (Hid "aq7w2m9" eq_refl ltac:(discriminate)), He. reflexivity.
Defined.

(** ** Well-formed pages under the handlers *)

Lemma same_keys_eq (l1 l2 : list string) : same_keys l1 l2 = true -> l1 = l2.
Proof.
  revert l2. induction l1 as [|k1 l1 IH]; intros [|k2 l2]; simpl;
    try discriminate; [reflexivity|].
  intros H. apply andb_true_iff in H as [Hk Hl].
  apply String.eqb_eq in Hk. subst. f_equal. apply IH. exact Hl.
Qed.

Lemma same_keys_refl (l : list string) : same_keys l l = true.
Proof.
  induction l as [|k l IH]; [reflexivity|]. simpl.
  rewrite String.eqb_refl. exact IH.
Qed.

Lemma lookup_prop_keys (k : string) (o : obj) :
  lookup_prop k o <> None -> is_key_of (keys o) k = true.
Proof.
  induction o as [|[k0 v0] o IH]; simpl; [congruence|].
  unfold is_key_of in *. simpl.
  destruct (k =? k0)%string; [reflexivity|]. exact IH.
Qed.

Lemma keys_set_prop (k : string) (v : value) (o : obj) :
  lookup_prop k o <> None -> keys (set_prop k v o) = keys o.
Proof.
  induction o as [|[k0 v0] o IH]; cbn [lookup_prop set_prop]; [congruence|].
  destruct (k =? k0)%string eqn:E.
  - intros _. apply String.eqb_eq in E. subst. reflexivity.
  - intros H. change (k0 :: keys (set_prop k v o) = k0 :: keys o).
    f_equal. apply IH. exact H.
Qed.

(** The writes that keep an element well formed: a number for a measure,
    anything but [null] and [undefined] for [z] and [rotate]. *)
Ltac split_valid H :=
  repeat match goal with
         | H' : _ && _ = true |- _ =>
             let V := fresh "V" in apply andb_true_iff in H' as [H' V]
         end.

Lemma valid_text_set (o : obj) (k : string) (v : value) :
  valid_text o = true ->
  (is_key_of ["x"; "y"; "w"; "h"; "fontSize"; "radius"; "weight"] k = true
   /\ is_num v = true)
  \/ (is_key_of ["z"; "rotate"] k = true /\ nullish v = false) ->
  valid_text (set_prop k v o) = true.
Proof.
  intros Hv Hk. unfold valid_text in Hv. cbn [forallb] in Hv.
  split_valid Hv.
  assert (Hkeys : keys o = text_keys) by (apply same_keys_eq; assumption).
  assert (Hin : is_key_of text_keys k = true).
  { destruct Hk as [[Hk _]|[Hk _]]; apply is_key_of_cases in Hk; simpl in Hk;
      intuition (subst; reflexivity). }
  assert (Hhas : lookup_prop k o <> None).
  { intros Hnone. rewrite <- Hkeys in Hin. clear -Hin Hnone.
    induction o as [|[k0 v0] o IH]; [discriminate|].
    unfold is_key_of in *. simpl in *.
    destruct (k =? k0)%string; [discriminate|]. apply IH; assumption. }
  unfold valid_text. cbn [forallb]. rewrite (keys_set_prop k v o Hhas), Hkeys.
  destruct Hk as [[Hk Hnum]|[Hk Hnn]]; apply is_key_of_cases in Hk;
    simpl in Hk;
    repeat match goal with
           | H : _ \/ _ |- _ => destruct H as [<-|H]
           | H : False |- _ => destruct H
           end;
    rewrite ?field_set_prop_eq, ?field_set_prop_ne by reflexivity;
    repeat (apply andb_true_iff; split);
    first [assumption | reflexivity | rewrite Hnn; reflexivity].
Qed.

Lemma valid_image_set (o : obj) (k : string) (v : value) :
  valid_image o = true ->
  lookup_prop k o <> None ->
  (is_key_of ["x"; "y"; "w"; "h"; "fontSize"; "radius"; "weight"] k = true
   /\ is_num v = true)
  \/ (is_key_of ["z"; "rotate"] k = true /\ nullish v = false) ->
  valid_image (set_prop k v o) = true.
Proof.
  intros Hv Hhas Hk. unfold valid_image in Hv. cbn [forallb] in Hv.
  split_valid Hv.
  assert (Hkeys : keys o = image_keys) by (apply same_keys_eq; assumption).
  pose proof (lookup_prop_keys k o Hhas) as Hin. rewrite Hkeys in Hin.
  unfold valid_image. cbn [forallb]. rewrite (keys_set_prop k v o Hhas), Hkeys.
  destruct Hk as [[Hk Hnum]|[Hk Hnn]]; apply is_key_of_cases in Hk;
    simpl in Hk;
    repeat match goal with
           | H : _ \/ _ |- _ => destruct H as [<-|H]
           | H : False |- _ => destruct H
           end;
    try discriminate Hin;
    rewrite ?field_set_prop_eq, ?field_set_prop_ne by reflexivity;
    repeat (apply andb_true_iff; split);
    first [assumption | reflexivity | rewrite Hnn; reflexivity].
Qed.

Lemma valid_element_has (o : obj) (k : string) :
  valid_element o = true ->
  is_key_of ["x"; "y"; "w"; "h"; "z"; "rotate"] k = true ->
  lookup_prop k o <> None.
Proof.
  intros Hv Hk.
  assert (Hkeys : keys o = text_keys \/ keys o = image_keys).
  { unfold valid_element in Hv. apply orb_true_iff in Hv as [Hv|Hv];
      [left; unfold valid_text in Hv | right; unfold valid_image in Hv];
      split_valid Hv; apply same_keys_eq; assumption. }
  assert (Hin : is_key_of (keys o) k = true).
  { apply is_key_of_cases in Hk. simpl in Hk.
    destruct Hkeys as [->| ->];
      repeat match goal with
             | H : _ \/ _ |- _ => destruct H as [<-|H]
             | H : False |- _ => destruct H
             end; reflexivity. }
  clear -Hin. induction o as [|[k0 v0] o IH]; [discriminate|].
  unfold is_key_of in *. simpl in *.
  destruct (k =? k0)%string; [discriminate|]. apply IH. exact Hin.
Qed.

Lemma valid_element_measures (o : obj) (k : string) :
  valid_element o = true ->
  is_key_of ["x"; "y"; "w"; "h"] k = true ->
  exists n, field o k = Num n.
Proof.
  intros Hv Hk. apply is_key_of_cases in Hk. simpl in Hk.
  unfold valid_element in Hv. apply orb_true_iff in Hv as [Hv|Hv];
    [unfold valid_text in Hv | unfold valid_image in Hv];
    cbn [forallb] in Hv; split_valid Hv;
    repeat match goal with
           | H : _ \/ _ |- _ => destruct H as [<-|H]
           | H : False |- _ => destruct H
           end;
    match goal with
    | H : is_num (field o ?k) = true |- exists n, field o ?k = Num n =>
        destruct (field o k); try discriminate H; eauto
    end.
Qed.

(** The writes of the keyboard and of the gestures: a number for [x], [y],
    [w] or [h], anything but [null] and [undefined] for [z]. *)
Lemma valid_element_set (o : obj) (k : string) (v : value) :
  valid_element o = true ->
  (is_key_of ["x"; "y"; "w"; "h"] k = true /\ is_num v = true)
  \/ (is_key_of ["z"; "rotate"] k = true /\ nullish v = false) ->
  valid_element (set_prop k v o) = true.
Proof.
  intros Hv Hk.
  assert (Hhas : lookup_prop k o <> None).
  { apply valid_element_has; [assumption|].
    destruct Hk as [[Hk _]|[Hk _]]; apply is_key_of_cases in Hk; simpl in Hk;
      repeat match goal with
             | H : _ \/ _ |- _ => destruct H as [<-|H]
             | H : False |- _ => destruct H
             end; reflexivity. }
  assert (Hk' : (is_key_of ["x"; "y"; "w"; "h"; "fontSize"; "radius"; "weight"]
                           k = true /\ is_num v = true)
                \/ (is_key_of ["z"; "rotate"] k = true /\ nullish v = false)).
  { destruct Hk as [[Hk Hn]|Hk]; [left | right; exact Hk].
    split; [|exact Hn]. apply is_key_of_cases in Hk. simpl in Hk.
    repeat match goal with
           | H : _ \/ _ |- _ => destruct H as [<-|H]
           | H : False |- _ => destruct H
           end; reflexivity. }
  unfold valid_element in *. apply orb_true_iff in Hv as [Hv|Hv].
  - rewrite (valid_text_set o k v Hv Hk'). reflexivity.
  - rewrite (valid_image_set o k v Hv Hhas Hk'). apply orb_true_r.
Qed.

Lemma valid_element_spread (o patch : obj) :
  valid_element o = true ->
  Forall (fun kv =>
            (is_key_of ["x"; "y"; "w"; "h"] (fst kv) = true
             /\ is_num (snd kv) = true)
            \/ (is_key_of ["z"; "rotate"] (fst kv) = true
                /\ nullish (snd kv) = false)) patch ->
  valid_element (spread o patch) = true.
Proof.
  intros Hv Hp. revert o Hv. unfold spread.
  induction Hp as [|[k v] patch Hkv _ IH]; intros o Hv; [exact Hv|].
  simpl. apply IH. apply valid_element_set; assumption.
Qed.

Lemma mutateElement_valid (pIdx : nat) (eId : value) (patch : obj) (p : Page) :
  valid_page p = true ->
  Forall (fun kv =>
            (is_key_of ["x"; "y"; "w"; "h"] (fst kv) = true
             /\ is_num (snd kv) = true)
            \/ (is_key_of ["z"; "rotate"] (fst kv) = true
                /\ nullish (snd kv) = false)) patch ->
  valid_page (mutateElement pIdx eId patch p) = true.
Proof.
  intros Hv Hp. unfold valid_page, mutateElement in *. cbn [panels].
  apply forallb_imap; [|exact Hv]. intros i pan Hpan.
  destruct (i =? pIdx)%nat; [|exact Hpan]. cbn [negb].
  unfold valid_panel in *. cbn [id bg elements].
  apply andb_true_iff in Hpan as [Hpan Hels]. rewrite Hpan. cbn [andb].
  apply forallb_map_keep; [|exact Hels]. intros el Hel.
  destruct (strict_eq (field el "id") eId); [|exact Hel].
  apply valid_element_spread; assumption.
Qed.

Lemma remove_from_valid (pIdx : nat) (eId : value) (p : Page) :
  valid_page p = true -> valid_page (remove_from pIdx eId p) = true.
Proof.
  intros Hv. unfold valid_page, remove_from in *. cbn [panels].
  apply forallb_imap; [|exact Hv]. intros i pan Hpan.
  destruct (i =? pIdx)%nat; [|exact Hpan]. cbn [negb].
  unfold valid_panel in *. cbn [id bg elements].
  apply andb_true_iff in Hpan as [Hpan Hels]. rewrite Hpan. cbn [andb].
  apply forallb_filter_keep. exact Hels.
Qed.

Lemma find_element_valid (p : Page) (pIdx : nat) (eId : value) (el : obj) :
  valid_page p = true -> find_element p pIdx eId = Some el ->
  valid_element el = true.
Proof.
  unfold valid_page, find_element. intros Hv Hf.
  destruct (panels p !! pIdx) as [pan|] eqn:Hpan; [|discriminate].
  pose proof (forallb_lookup _ _ _ _ Hv Hpan) as Hp.
  unfold valid_panel in Hp. apply andb_true_iff in Hp as [_ Hels].
  apply find_some in Hf as [Hin _].
  rewrite forallb_forall in Hels. apply Hels. exact Hin.
Qed.

Lemma plus_not_nullish (a b v : value) : plus a b = Ok v -> nullish v = false.
Proof.
  unfold plus, rbind.
  destruct (ToPrimitive a) as [pa|]; [|discriminate].
  destruct (ToPrimitive b) as [pb|]; [|discriminate].
  destruct pa, pb;
    repeat match goal with
           | |- match ?c with Ok _ => _ | Throw _ => _ end = Ok _ -> _ =>
               destruct c; [|discriminate]
           end;
    intros H; apply Ok_inj in H; subst v; reflexivity.
Qed.

Lemma ToPrimitive_converts (v : value) :
  converts v = true -> exists pv, ToPrimitive v = Ok pv /\ converts pv = true
                                  /\ isArray pv = false
                                  /\ match pv with Obj _ => False | _ => True end.
Proof.
  unfold converts. intros H.
  destruct v as [| | | | |items|props];
    try (eexists; split; [reflexivity|]; repeat split; exact H).
  - unfold ToPrimitive. destruct (ToString (Arr items)) as [s|]; [|discriminate].
    exists (Str s). repeat split.
  - unfold ToPrimitive. destruct (ToString (Obj props)) as [s|]; [|discriminate].
    exists (Str s). repeat split.
Qed.

Lemma plus_total (a b : value) :
  converts a = true -> converts b = true -> exists v, plus a b = Ok v.
Proof.
  intros Ha Hb. unfold plus.
  destruct (ToPrimitive_converts a Ha) as (pa & -> & _ & Hqa & Hoa).
  destruct (ToPrimitive_converts b Hb) as (pb & -> & _ & Hqb & Hob).
  cbn [rbind].
  destruct pa; try discriminate; try contradiction;
    destruct pb; try discriminate; try contradiction; simpl; eauto.
Qed.

Lemma minus_total (a b : value) :
  converts a = true -> converts b = true -> exists n, minus a b = Ok (Num n).
Proof.
  intros Ha Hb. unfold minus.
  pose proof (ToNumber_converts a) as Ca. pose proof (ToNumber_converts b) as Cb.
  destruct (ToNumber a); [|congruence]. destruct (ToNumber b); [|congruence].
  simpl. eauto.
Qed.

(** X28.  On a well-formed page a key press leaves the page well formed:
    every element keeps all its properties, with numbers for its measures.
    The arrow keys, [Delete] and [Backspace] never throw on such a page, and
    [']'] and ['['] throw only when the [z] of the selected element, which
    the sanitizer keeps as given, has no primitive conversion. *)
Theorem onKey_keeps_well_formed (tag : option string) (e : KeyboardEvent)
    (w : World) :
  valid_page (page w) = true ->
  (forall w', onKey tag e w = Ok w' -> valid_page (page w') = true)
  /\ ((forall el,
         find_element (page w) (panelIdx (selection w)) (elId (selection w))
         = Some el ->
         is_key_of ["]"; "["] (key e) = true ->
         converts (field el "z") = true) ->
      exists w', onKey tag e w = Ok w').
Proof.
  intros Hv.
  assert (Hnum : forall el k,
             find_element (page w) (panelIdx (selection w)) (elId (selection w))
             = Some el ->
             is_key_of ["x"; "y"; "w"; "h"] k = true ->
             exists n, field el k = Num n).
  { intros el k Hel Hk. apply valid_element_measures; [|exact Hk].
    eapply find_element_valid; eassumption. }
  unfold onKey. destruct tag as [t|]; [|split; [intros w' H; congruence | eauto]].
  destruct ((t =? "INPUT")%string || (t =? "TEXTAREA")%string);
    [split; [intros w' H; congruence | eauto]|].
  destruct (nullish (elId (selection w)));
    [split; [intros w' H; congruence | eauto]|].
  destruct ((key e =? "Delete")%string || (key e =? "Backspace")%string).
  { split; [|eauto]. intros w' H. apply Ok_inj in H. subst w'.
    apply remove_from_valid. exact Hv. }
  destruct (is_key_of ["ArrowUp"; "ArrowDown"; "ArrowLeft"; "ArrowRight"]
                      (key e)).
  { destruct (find_element _ _ _) as [el|] eqn:Hel;
      [|split; [intros w' H; congruence | eauto]].
    destruct (Hnum el "x" eq_refl eq_refl) as (x & ->).
    destruct (Hnum el "y" eq_refl eq_refl) as (y & ->).
    rewrite !plus_numbers. cbn [rbind]. split; [|eauto].
    intros w' H. apply Ok_inj in H. subst w'. cbn [page with_page].
    apply mutateElement_valid; [exact Hv|].
    repeat (apply List.Forall_cons; [left; split; reflexivity|]). apply List.Forall_nil. }
  unfold is_key_of, existsb.
  destruct (key e =? "]")%string.
  { destruct (find_element _ _ _) as [el|] eqn:Hel;
      [|split; [intros w' H; congruence | eauto]].
    split.
    - intros w'. unfold rbind.
      destruct (plus _ _) as [nz|] eqn:Hp; [|discriminate].
      intros H. apply Ok_inj in H. subst w'. cbn [page with_page].
      apply mutateElement_valid; [exact Hv|].
      apply List.Forall_cons; [|apply List.Forall_nil]. right. split; [reflexivity|].
      eapply plus_not_nullish. exact Hp.
    - intros Hz. specialize (Hz el eq_refl eq_refl).
      destruct (plus_total (nullish_or (field el "z") (lit 0)) (lit 1))
        as (nz & ->); [|reflexivity|cbn [rbind]; eauto].
      unfold nullish_or. destruct (nullish (field el "z")); [reflexivity|].
      exact Hz. }
  destruct (key e =? "[")%string.
  { destruct (find_element _ _ _) as [el|] eqn:Hel;
      [|split; [intros w' H; congruence | eauto]].
    split.
    - intros w'. unfold rbind.
      destruct (minus _ _) as [d|]; [|discriminate].
      destruct (Math_max2 _ _) as [nz|]; [|discriminate].
      intros H. apply Ok_inj in H. subst w'. cbn [page with_page].
      apply mutateElement_valid; [exact Hv|].
      apply List.Forall_cons; [|apply List.Forall_nil]. right. split; reflexivity.
    - intros Hz. specialize (Hz el eq_refl).
      rewrite orb_true_r in Hz. specialize (Hz eq_refl).
      destruct (minus_total (nullish_or (field el "z") (lit 0)) (lit 1))
        as (d & ->); [|reflexivity|cbn [rbind]; eauto].
      unfold nullish_or. destruct (nullish (field el "z")); [reflexivity|].
      exact Hz. }
  split; [intros w' H; congruence | eauto].
Qed.

(** The sample page with a text: the down arrow. *)
Lemma onKey_keeps_well_formed_witness :
  let w := with_selection (with_page sample_world sample_text_page)
             {| panelIdx := 0; elId := Str "aq7w2m9" |} in
  valid_page (page w) = true
  /\ exists w',
       onKey (Some "BODY") {| key := "ArrowDown"; shiftKey := false |} w = Ok w'
       /\ page w' <> page w
       /\ valid_page (page w') = true.
Proof.
  split; [reflexivity|].
  pose proof (onKey_keeps_well_formed (Some "BODY")
                {| key := "ArrowDown"; shiftKey := false |}
                (with_selection (with_page sample_world sample_text_page)
                   {| panelIdx := 0; elId := Str "aq7w2m9" |})
                eq_refl) as (Hkeep & _).
  eexists. split; [reflexivity|]. split; [discriminate|].
  apply Hkeep. reflexivity.
Defined.

(** X29.  A gesture started on a well-formed element of a well-formed page
    never throws, whatever its kind and wherever the pointer goes, and
    every page it commits is well formed. *)
Theorem gestures_keep_well_formed (idx : nat) (e0 e : PointerEvent) (el : obj)
    (k : string) (w : World) (p : Page) :
  valid_element el = true ->
  valid_page p = true ->
  exists p',
    move idx (snd (startDrag idx e0 el k w)) e p = Ok p'
    /\ valid_page p' = true.
Proof.
  intros Hel Hp. cbn [startDrag snd]. unfold move.
  cbn [kind startX startY startRect drag_id field lookup_prop
       String.eqb Ascii.eqb Bool.eqb].
  destruct (valid_element_measures el "x" Hel eq_refl) as (x & ->).
  destruct (valid_element_measures el "y" Hel eq_refl) as (y & ->).
  destruct (valid_element_measures el "w" Hel eq_refl) as (wd & ->).
  destruct (valid_element_measures el "h" Hel eq_refl) as (ht & ->).
  destruct (k =? "move")%string; rewrite !plus_numbers; cbn [rbind].
  - eexists. split; [reflexivity|].
    apply mutateElement_valid; [exact Hp|].
    repeat (apply List.Forall_cons; [left; split; reflexivity|]). apply List.Forall_nil.
  - unfold Math_max2, lit. cbn [ToNumber rbind].
    eexists. split; [reflexivity|].
    apply mutateElement_valid; [exact Hp|].
    repeat (apply List.Forall_cons; [left; split; reflexivity|]). apply List.Forall_nil.
Qed.

Lemma gestures_keep_well_formed_witness :
  let el := match element_at sample_text_page 0 0 with
            | Some el => el | None => [] end in
  valid_element el = true
  /\ exists p',
       move 0 (snd (startDrag 0 {| clientX := of_Z 300; clientY := of_Z 200 |}
                              el "resize" sample_world))
            {| clientX := of_Z 0; clientY := of_Z 0 |} sample_text_page
       = Ok p'
       /\ valid_page p' = true.
Proof.
  split; [reflexivity|].
  exact (gestures_keep_well_formed 0
           {| clientX := of_Z 300; clientY := of_Z 200 |}
           {| clientX := of_Z 0; clientY := of_Z 0 |}
           (match element_at sample_text_page 0 0 with
            | Some el => el | None => [] end)
           "resize" sample_world sample_text_page eq_refl eq_refl).
Defined.

Lemma setPanel_append_valid (idx : nat) (el : obj) (p : Page) (pan : Panel) :
  valid_page p = true ->
  panels p !! idx = Some pan ->
  valid_element el = true ->
  valid_page (setPanel idx (patch_elements (elements pan ++ [el])) p) = true.
Proof.
  intros Hv Hpan Hel. unfold valid_page, setPanel in *. cbn [panels].
  apply forallb_Forall. apply Forall_lookup. intros i x Hi.
  rewrite list_lookup_imap in Hi.
  destruct (panels p !! i) as [pan'|] eqn:Hpan'; [|discriminate].
  simpl in Hi. injection Hi as <-.
  pose proof (forallb_lookup _ _ _ _ Hv Hpan') as Hvalid.
  destruct (Nat.eqb_spec i idx) as [->|]; [|exact Hvalid].
  rewrite Hpan in Hpan'. injection Hpan' as <-.
  unfold valid_panel in *. cbn [patch_panel id bg elements].
  apply andb_true_iff in Hvalid as [Hidbg Hels]. rewrite Hidbg. cbn [andb].
  rewrite forallb_app, Hels. cbn [forallb andb]. rewrite Hel. reflexivity.
Qed.

Lemma defaultText_valid (st : string) (r : randomness) :
  is_key_of ["speech"; "caption"; "sfx"] st = true ->
  exists el, defaultText (Str st) r = Ok (el, after_draw r)
             /\ valid_element el = true.
Proof.
  intros Hst. apply is_key_of_cases in Hst. simpl in Hst.
  destruct Hst as [<-|[<-|[<-|[]]]]; eexists; split; reflexivity.
Qed.

Lemma image_valid (i url : string) (wd ht : Z) :
  valid_element [ ("id", Str i); ("type", Str "image"); ("src", Str url);
                  ("x", lit 24); ("y", lit 24); ("w", lit wd); ("h", lit ht);
                  ("z", lit 0); ("rotate", lit 0) ] = true.
Proof.
  unfold valid_element.
  assert (H : valid_image
                [ ("id", Str i); ("type", Str "image"); ("src", Str url);
                  ("x", lit 24); ("y", lit 24); ("w", lit wd); ("h", lit ht);
                  ("z", lit 0); ("rotate", lit 0) ] = true).
  { unfold valid_image.
    cbn [keys map fst same_keys image_keys field lookup_prop String.eqb
         Ascii.eqb Bool.eqb is_str strict_eq forallb is_num lit andb
         ToBoolean nullish negb].
    destruct url; reflexivity. }
  rewrite H. apply orb_true_r.
Qed.

Lemma setPanel_elements_valid (idx : nat) (els : list obj) (p : Page) :
  valid_page p = true ->
  forallb valid_element els = true ->
  valid_page (setPanel idx (patch_elements els) p) = true.
Proof.
  intros Hv Hels. unfold valid_page, setPanel in *. cbn [panels].
  apply forallb_imap; [|exact Hv].
  intros i pan Hpan. destruct (i =? idx)%nat; [|exact Hpan].
  unfold valid_panel in *. cbn [patch_panel id bg elements].
  apply andb_true_iff in Hpan as [Hidbg _]. rewrite Hidbg, Hels. reflexivity.
Qed.

Lemma addImage_valid (idx : nat) (el : obj) (shown current : Page)
    (pan : Panel) :
  valid_page shown = true -> valid_page current = true ->
  panels shown !! idx = Some pan ->
  valid_element el = true ->
  valid_page (setPanel idx (patch_elements (elements pan ++ [el])) current)
  = true.
Proof.
  intros Hs Hc Hpan Hel. apply setPanel_elements_valid; [exact Hc|].
  pose proof (forallb_lookup _ _ _ _ Hs Hpan) as Hvalid.
  unfold valid_panel in Hvalid. apply andb_true_iff in Hvalid as [_ Hels].
  rewrite forallb_app, Hels. cbn [forallb andb]. rewrite Hel. reflexivity.
Qed.

(** X30.  Adding and removing keep a well-formed page well formed: the
    text that [addText] appends for any of the three subtypes, the list
    that [addImage] installs for a probed or an unprobed picture (built
    from the panel of a well-formed page shown earlier), and the page that
    [removeElement] leaves. *)
Theorem adding_keeps_well_formed (idx : nat) (p : Page) (r : randomness) :
  valid_page p = true ->
  (forall st p' r',
      is_key_of ["speech"; "caption"; "sfx"] st = true ->
      addText idx (Str st) p r = Ok (p', r') -> valid_page p' = true)
  /\ (forall shown url wd ht p' r',
        valid_page shown = true ->
        0 <= wd < 2 ^ 53 -> 0 <= ht < 2 ^ 53 ->
        addImage idx (Str url) (Obj [("width", lit wd); ("height", lit ht)])
                 shown p r
        = Ok (p', r') ->
        valid_page p' = true)
  /\ (forall shown url p' r',
        valid_page shown = true ->
        addImage idx (Str url) Null shown p r = Ok (p', r') ->
        valid_page p' = true)
  /\ (forall eId, valid_page (remove_from idx eId p) = true).
Proof.
  intros Hv. split; [|split; [|split]].
  - intros st p' r' Hst.
    destruct (defaultText_valid st r Hst) as (el & Hd & Hel).
    unfold addText, elements_at, bind, lift.
    destruct (panels p !! idx) as [pan|] eqn:Hpan; [|discriminate].
    rewrite Hd. unfold ret. intros H. apply Ok_inj in H.
    injection H as <- _. apply setPanel_append_valid; assumption.
  - intros shown url wd ht p' r' Hs Hw Hh.
    unfold addImage, elements_at, bind, lift.
    destruct (panels shown !! idx) as [pan|] eqn:Hpan; [|discriminate].
    rewrite (defaultImage_probed (Str url) wd ht r Hw Hh).
    unfold ret. intros H. apply Ok_inj in H. injection H as <- _.
    apply (addImage_valid idx _ shown p pan Hs Hv Hpan).
    apply image_valid.
  - intros shown url p' r' Hs.
    unfold addImage, elements_at, bind, lift.
    destruct (panels shown !! idx) as [pan|] eqn:Hpan; [|discriminate].
    rewrite defaultImage_unprobed.
    unfold ret. intros H. apply Ok_inj in H. injection H as <- _.
    apply (addImage_valid idx _ shown p pan Hs Hv Hpan).
    apply image_valid.
  - intros eId. apply remove_from_valid. exact Hv.
Qed.

(** The sample page with its sound-effect text, and the page that results
    when a picture chosen on the sample page arrives after the text was
    added. *)
Lemma adding_keeps_well_formed_witness :
  valid_page sample_page = true
  /\ valid_page sample_text_page = true
  /\ addText 0 (Str "sfx") sample_page sample_random
     = Ok (sample_text_page, after_draw sample_random)
  /\ exists p' r',
       addImage 0 (Str "blob:a") Null sample_page sample_text_page
                sample_random = Ok (p', r')
       /\ valid_page p' = true.
Proof.
  split; [reflexivity|]. split; [reflexivity|]. split; [reflexivity|].
  eexists _, _. split; [reflexivity|].
  exact (proj1 (proj2 (proj2 (adding_keeps_well_formed 0 sample_text_page
                                sample_random eq_refl)))
           sample_page "blob:a" _ _ eq_refl eq_refl).
Defined.
